(** * shop/api.py: the business logic of the shop, embedded in Rocq

    The Django models are rows of relational tables; the database is a
    record of tables that every operation threads explicitly.  An operation
    decorated with [transaction.atomic] either returns its value together
    with the new database, or raises, in which case the caller keeps the
    database it had (the rollback). *)

From Stdlib Require Import ZArith QArith Qround Lia Permutation Sorted.
From stdpp Require Import base option list strings gmap.

Local Open Scope string_scope.
Local Open Scope list_scope.
Local Open Scope Z_scope.

(** ** Exceptions and results *)

(** The exceptions the module can raise.  [APIException] is
    [shop.exceptions.APIException], the only business error of the module
    (the specification calls it ConflictError or OrderingError by use). *)
Inductive Exception : Type :=
  | DoesNotExist (model : string)
  | MultipleObjectsReturned (model : string)
  | APIException (msg : string)
  | AssertionError (msg : string)
  | ValueError (msg : string)
  | ZeroDivisionError
  | AttributeError (msg : string)
  | UnboundLocalError (var : string)
  | OverflowError (msg : string).

Inductive Result (A : Type) : Type :=
  | Ok (a : A)
  | Raise (e : Exception).
Arguments Ok {A} a.
Arguments Raise {A} e.

Definition bind {A B : Type} (r : Result A) (k : A -> Result B) : Result B :=
  match r with
  | Ok a => k a
  | Raise e => Raise e
  end.

Notation "'let*' x := r 'in' k" := (bind r (fun x => k))
  (at level 10, x pattern, r at level 100, k at level 200).

Definition is_ok {A : Type} (r : Result A) : bool :=
  match r with Ok _ => true | Raise _ => false end.

(** ** Enumerations *)

Inductive TrxType : Type := INVENTORY | PURCHASE | CORRECTION.
Inductive TrxStatus : Type := PENDING | FINALIZED | CANCELED.

(** The models a generic reference can point to ([ContentType]). *)
Inductive ContentType : Type := CT_DeliveryItem | CT_StocktakeItem | CT_Other.

Definition TrxType_eqb (a b : TrxType) : bool :=
  match a, b with
  | INVENTORY, INVENTORY | PURCHASE, PURCHASE | CORRECTION, CORRECTION => true
  | _, _ => false
  end.

Definition TrxStatus_eqb (a b : TrxStatus) : bool :=
  match a, b with
  | PENDING, PENDING | FINALIZED, FINALIZED | CANCELED, CANCELED => true
  | _, _ => false
  end.

(** ** Rows *)

Record Product : Type := {
  product_id : Z;
  product_category : Z;
  product_out_of_stock_forecast : option Z
}.

(** One row of [ProductTransactionStatus]: a status with the optional
    generic reference (content type and primary key). *)
Record TrxState : Type := {
  state_status : TrxStatus;
  state_reference : option (ContentType * Z)
}.

(** A ledger entry with its [states], in creation order. *)
Record ProductTransaction : Type := {
  trx_id : Z;
  trx_product_id : Z;
  trx_type : TrxType;
  trx_qty : Z;
  trx_date_created : Z;
  trx_states : list TrxState
}.

Record Stocktake : Type := {
  stocktake_id : Z;
  stocktake_locked : bool
}.

Record StocktakeChunk : Type := {
  chunk_id : Z;
  chunk_stocktake_id : Z;
  chunk_locked : bool;
  chunk_owner_id : option Z
}.

Record StocktakeItem : Type := {
  item_id : Z;
  item_chunk_id : Z;
  item_product_id : Z;
  item_qty : Z
}.

Record Supplier : Type := {
  supplier_id : Z;
  supplier_internal_name : string
}.

Record SupplierProduct : Type := {
  sp_id : Z;
  sp_supplier_id : Z;
  sp_product_id : option Z;
  sp_sku : string;
  sp_name : string;
  sp_price : Q;
  sp_units : Z;
  sp_qty : Z;
  sp_unit_price : Q;
  sp_qty_multiplier : Z
}.

Record Delivery : Type := {
  delivery_id : Z;
  delivery_supplier_id : Z;
  delivery_report_path : string;
  delivery_locked : bool
}.

Record DeliveryItem : Type := {
  di_id : Z;
  di_delivery_id : Z;
  di_supplier_product_id : Z;
  di_qty : Z;
  di_price : Q
}.

(** ** The database *)

(** [db_supplier_products] is keyed by (supplier, SKU), the unique key of
    the catalog cache; the other tables are lists of rows in insertion
    order.  [db_next_id] is the next primary key to hand out and [db_now]
    the clock that stamps new rows. *)
Record DB : Type := {
  db_products : list Product;
  db_transactions : list ProductTransaction;
  db_suppliers : list Supplier;
  db_supplier_products : gmap (Z * string) SupplierProduct;
  db_deliveries : list Delivery;
  db_delivery_items : list DeliveryItem;
  db_stocktakes : list Stocktake;
  db_chunks : list StocktakeChunk;
  db_items : list StocktakeItem;
  db_next_id : Z;
  db_now : Z
}.

Definition empty_db : DB :=
  {| db_products := []; db_transactions := []; db_suppliers := [];
     db_supplier_products := ∅; db_deliveries := []; db_delivery_items := [];
     db_stocktakes := []; db_chunks := []; db_items := [];
     db_next_id := 1; db_now := 0 |}.

Definition set_products (f : list Product -> list Product) (db : DB) : DB :=
  {| db_products := f (db_products db);
     db_transactions := db_transactions db; db_suppliers := db_suppliers db;
     db_supplier_products := db_supplier_products db;
     db_deliveries := db_deliveries db;
     db_delivery_items := db_delivery_items db;
     db_stocktakes := db_stocktakes db; db_chunks := db_chunks db;
     db_items := db_items db; db_next_id := db_next_id db;
     db_now := db_now db |}.

Definition set_transactions
    (f : list ProductTransaction -> list ProductTransaction) (db : DB) : DB :=
  {| db_products := db_products db;
     db_transactions := f (db_transactions db); db_suppliers := db_suppliers db;
     db_supplier_products := db_supplier_products db;
     db_deliveries := db_deliveries db;
     db_delivery_items := db_delivery_items db;
     db_stocktakes := db_stocktakes db; db_chunks := db_chunks db;
     db_items := db_items db; db_next_id := db_next_id db;
     db_now := db_now db |}.

Definition set_supplier_products
    (f : gmap (Z * string) SupplierProduct -> gmap (Z * string) SupplierProduct)
    (db : DB) : DB :=
  {| db_products := db_products db;
     db_transactions := db_transactions db; db_suppliers := db_suppliers db;
     db_supplier_products := f (db_supplier_products db);
     db_deliveries := db_deliveries db;
     db_delivery_items := db_delivery_items db;
     db_stocktakes := db_stocktakes db; db_chunks := db_chunks db;
     db_items := db_items db; db_next_id := db_next_id db;
     db_now := db_now db |}.

Definition set_deliveries (f : list Delivery -> list Delivery) (db : DB) : DB :=
  {| db_products := db_products db;
     db_transactions := db_transactions db; db_suppliers := db_suppliers db;
     db_supplier_products := db_supplier_products db;
     db_deliveries := f (db_deliveries db);
     db_delivery_items := db_delivery_items db;
     db_stocktakes := db_stocktakes db; db_chunks := db_chunks db;
     db_items := db_items db; db_next_id := db_next_id db;
     db_now := db_now db |}.

Definition set_delivery_items
    (f : list DeliveryItem -> list DeliveryItem) (db : DB) : DB :=
  {| db_products := db_products db;
     db_transactions := db_transactions db; db_suppliers := db_suppliers db;
     db_supplier_products := db_supplier_products db;
     db_deliveries := db_deliveries db;
     db_delivery_items := f (db_delivery_items db);
     db_stocktakes := db_stocktakes db; db_chunks := db_chunks db;
     db_items := db_items db; db_next_id := db_next_id db;
     db_now := db_now db |}.

Definition set_stocktakes (f : list Stocktake -> list Stocktake) (db : DB) : DB :=
  {| db_products := db_products db;
     db_transactions := db_transactions db; db_suppliers := db_suppliers db;
     db_supplier_products := db_supplier_products db;
     db_deliveries := db_deliveries db;
     db_delivery_items := db_delivery_items db;
     db_stocktakes := f (db_stocktakes db); db_chunks := db_chunks db;
     db_items := db_items db; db_next_id := db_next_id db;
     db_now := db_now db |}.

Definition set_chunks
    (f : list StocktakeChunk -> list StocktakeChunk) (db : DB) : DB :=
  {| db_products := db_products db;
     db_transactions := db_transactions db; db_suppliers := db_suppliers db;
     db_supplier_products := db_supplier_products db;
     db_deliveries := db_deliveries db;
     db_delivery_items := db_delivery_items db;
     db_stocktakes := db_stocktakes db; db_chunks := f (db_chunks db);
     db_items := db_items db; db_next_id := db_next_id db;
     db_now := db_now db |}.

Definition set_items
    (f : list StocktakeItem -> list StocktakeItem) (db : DB) : DB :=
  {| db_products := db_products db;
     db_transactions := db_transactions db; db_suppliers := db_suppliers db;
     db_supplier_products := db_supplier_products db;
     db_deliveries := db_deliveries db;
     db_delivery_items := db_delivery_items db;
     db_stocktakes := db_stocktakes db; db_chunks := db_chunks db;
     db_items := f (db_items db); db_next_id := db_next_id db;
     db_now := db_now db |}.

(** Hands out a fresh primary key. *)
Definition fresh_id (db : DB) : Z * DB :=
  (db_next_id db,
   {| db_products := db_products db;
      db_transactions := db_transactions db; db_suppliers := db_suppliers db;
      db_supplier_products := db_supplier_products db;
      db_deliveries := db_deliveries db;
      db_delivery_items := db_delivery_items db;
      db_stocktakes := db_stocktakes db; db_chunks := db_chunks db;
      db_items := db_items db; db_next_id := db_next_id db + 1;
      db_now := db_now db |}).

(** The clock moves between operations; nothing else changes. *)
Definition set_now (t : Z) (db : DB) : DB :=
  {| db_products := db_products db;
     db_transactions := db_transactions db; db_suppliers := db_suppliers db;
     db_supplier_products := db_supplier_products db;
     db_deliveries := db_deliveries db;
     db_delivery_items := db_delivery_items db;
     db_stocktakes := db_stocktakes db; db_chunks := db_chunks db;
     db_items := db_items db; db_next_id := db_next_id db;
     db_now := t |}.

(** ** Query helpers *)

(** [Model.objects.get(...)]: exactly one row must match. *)
Definition objects_get {A : Type} (model : string) (p : A -> bool)
    (table : list A) : Result A :=
  match filter (fun r => p r = true) table with
  | [] => Raise (DoesNotExist model)
  | [r] => Ok r
  | _ :: _ :: _ => Raise (MultipleObjectsReturned model)
  end.

(** [row.save()] of an existing row: the row with that primary key is
    replaced. *)
Definition save_row {A : Type} (pk : A -> Z) (r : A) (table : list A) : list A :=
  map (fun old => if pk old =? pk r then r else old) table.

(** [queryset.first()] of an unordered queryset: Django orders by primary
    key, so the row with the least key is returned. *)
Fixpoint first_by_pk {A : Type} (pk : A -> Z) (rows : list A) : option A :=
  match rows with
  | [] => None
  | r :: rest =>
      match first_by_pk pk rest with
      | Some m => if pk m <? pk r then Some m else Some r
      | None => Some r
      end
  end.

(** Python's [range(start, stop, step)] as a list. *)
Fixpoint range_up (fuel : nat) (i stop step : Z) : list Z :=
  match fuel with
  | O => []
  | S fuel' => if i <? stop then i :: range_up fuel' (i + step) stop step else []
  end.

Fixpoint range_down (fuel : nat) (i stop step : Z) : list Z :=
  match fuel with
  | O => []
  | S fuel' => if stop <? i then i :: range_down fuel' (i + step) stop step else []
  end.

Definition py_range (start stop step : Z) : Result (list Z) :=
  if step =? 0 then Raise (ValueError "range() arg 3 must not be zero")
  else if 0 <? step then Ok (range_up (Z.to_nat (stop - start)) start stop step)
  else Ok (range_down (Z.to_nat (start - stop)) start stop step).

(** [l[lo:hi]] for the indices the module uses, [0 <= lo <= hi]. *)
Definition py_slice {A : Type} (l : list A) (lo hi : Z) : list A :=
  take (Z.to_nat (hi - lo)) (drop (Z.to_nat lo) l).

(** The exact ceiling of the quotient [a / b]: for [0 < b], the least [m]
    with [a <= m * b].  The statements count in it; the code's own
    [math.ceil(qty / sp.qty)] goes through a double, see [minimum_qty]. *)
Definition ceil_div (a b : Z) : Z := - ((- a) / b).

(** ** Sorting by a key

    Python's [sorted(xs, key=f)] is stable: rows with equal keys keep their
    order.  A stable sort is determined by its input, so insertion from the
    right computes the same list.  [order_by] of a queryset is modelled the
    same way; the database leaves the order of ties open and no statement
    below depends on it. *)
Section SortedByKey.
Context {A K : Type}.
Variable ltb : K -> K -> bool.
Variable key : A -> K.

Fixpoint insert_by_key (x : A) (l : list A) : list A :=
  match l with
  | [] => [x]
  | y :: l' =>
      if ltb (key y) (key x) then y :: insert_by_key x l' else x :: y :: l'
  end.

Definition sorted_by_key (l : list A) : list A :=
  foldr insert_by_key [] l.

(** [key a] is not above [key b]. *)
Definition key_le (a b : A) : Prop := ltb (key b) (key a) = false.
End SortedByKey.

(** ** Stock-taking *)

Definition order_by_category (ps : list Product) : list Product :=
  sorted_by_key Z.ltb product_category ps.

(** [chunk_obj.items.create(product=p)].  The StocktakeItem model is not in
    src/: a new item is taken to count 0 until a quantity is entered. *)
Definition create_item (cid : Z) (db : DB) (p : Product) : DB :=
  let '(iid, db1) := fresh_id db in
  set_items (fun t => t ++ [{| item_id := iid; item_chunk_id := cid;
                               item_product_id := product_id p;
                               item_qty := 0 |}]) db1.

(** [stocktake_obj.chunks.create()].  Modelled from the spec: the
    StocktakeChunk model is not in src/; a chunk starts open (unlocked) and
    unassigned. *)
Definition create_chunk (sid : Z) (db : DB) : StocktakeChunk * DB :=
  let '(cid, db1) := fresh_id db in
  let chunk_obj := {| chunk_id := cid; chunk_stocktake_id := sid;
                      chunk_locked := false; chunk_owner_id := None |} in
  (chunk_obj, set_chunks (fun t => t ++ [chunk_obj]) db1).

Definition initiate_chunk (sid chunk_size : Z) (product_objs : list Product)
    (db : DB) (i : Z) : DB :=
  let '(chunk_obj, db1) := create_chunk sid db in
  let chunk_products := py_slice product_objs i (i + chunk_size) in
  foldl (create_item (chunk_id chunk_obj)) db1 chunk_products.

(** Modelled from the spec for the defaults of the Stocktake model, which
    is not in src/: a stocktake starts open (unlocked). *)
Definition initiate_stocktaking (chunk_size : Z) (db : DB)
    : Result (Stocktake * DB) :=
  if negb (length (filter (fun s => stocktake_locked s = false)
                          (db_stocktakes db)) =? 0)%nat
  then Raise (APIException "Stock-taking already in progress.")
  else
    let '(sid, db1) := fresh_id db in
    let stocktake_obj := {| stocktake_id := sid; stocktake_locked := false |} in
    let db2 := set_stocktakes (fun t => t ++ [stocktake_obj]) db1 in
    let product_objs := order_by_category (db_products db2) in
    let* starts := py_range 0 (Z.of_nat (length product_objs)) chunk_size in
    Ok (stocktake_obj,
        foldl (initiate_chunk sid chunk_size product_objs) db2 starts).

Definition finalize_stocktake_chunk (cid : Z) (db : DB) : Result (unit * DB) :=
  let* chunk_obj :=
    objects_get "StocktakeChunk" (fun c => chunk_id c =? cid) (db_chunks db) in
  if chunk_locked chunk_obj then Raise (APIException "Chunk already locked.")
  else
    let chunk_obj' := {| chunk_id := chunk_id chunk_obj;
                         chunk_stocktake_id := chunk_stocktake_id chunk_obj;
                         chunk_locked := true; chunk_owner_id := None |} in
    Ok (tt, set_chunks (save_row chunk_id chunk_obj') db).

Definition owned_by (sid uid : Z) (c : StocktakeChunk) : bool :=
  (chunk_stocktake_id c =? sid) && bool_decide (chunk_owner_id c = Some uid).

Definition free_in (sid : Z) (c : StocktakeChunk) : bool :=
  (chunk_stocktake_id c =? sid) && negb (chunk_locked c)
  && bool_decide (chunk_owner_id c = None).

Definition assign_free_stocktake_chunk (uid sid : Z) (db : DB)
    : Result (option StocktakeChunk * DB) :=
  match objects_get "StocktakeChunk" (owned_by sid uid) (db_chunks db) with
  | Ok chunk_obj => Ok (Some chunk_obj, db)
  | Raise (DoesNotExist _) =>
      let chunk_objs := filter (fun c => free_in sid c = true) (db_chunks db) in
      match first_by_pk chunk_id chunk_objs with
      | None => Ok (None, db)
      | Some chunk_obj =>
          let chunk_obj' := {| chunk_id := chunk_id chunk_obj;
                               chunk_stocktake_id := chunk_stocktake_id chunk_obj;
                               chunk_locked := chunk_locked chunk_obj;
                               chunk_owner_id := Some uid |} in
          Ok (Some chunk_obj', set_chunks (save_row chunk_id chunk_obj') db)
      end
  | Raise e => Raise e
  end.


(** ** Transaction ledger *)

(** Modelled from the spec: [ProductTransaction.status], the model's current
    status, is not in src/.  It is the status of the most recent state row;
    a transaction without states is pending. *)
Definition trx_status (t : ProductTransaction) : TrxStatus :=
  match last (trx_states t) with
  | Some s => state_status s
  | None => PENDING
  end.

(** Modelled from the spec: the manager method [finalized()] is not in
    src/; only finalized transactions count toward quantity. *)
Definition finalized (ts : list ProductTransaction) : list ProductTransaction :=
  filter (fun t => TrxStatus_eqb (trx_status t) FINALIZED = true) ts.

(** Modelled from the spec: the manager method [restocks()] is not in src/;
    a restock is an INVENTORY-type transaction. *)
Definition restocks (ts : list ProductTransaction) : list ProductTransaction :=
  filter (fun t => TrxType_eqb (trx_type t) INVENTORY = true) ts.

(** [aggregate(qty=Sum('qty'))['qty'] or 0]. *)
Definition sum_qty (ts : list ProductTransaction) : Z :=
  foldr (fun t acc => trx_qty t + acc) 0 ts.

(** Modelled from the spec: [Product.qty] is not in src/; the quantity of a
    product equals the sum of its finalized ledger quantities. *)
Definition product_qty (db : DB) (pid : Z) : Z :=
  sum_qty (filter (fun t => (trx_product_id t =? pid) = true)
                  (finalized (db_transactions db))).

Definition get_product_row (pid : Z) (db : DB) : Result Product :=
  objects_get "Product" (fun p => product_id p =? pid) (db_products db).

Definition create_product (category : Z) (db : DB) : Product * DB :=
  let '(pid, db1) := fresh_id db in
  let product_obj := {| product_id := pid; product_category := category;
                        product_out_of_stock_forecast := None |} in
  (product_obj, set_products (fun t => t ++ [product_obj]) db1).

(** [update_product(id, category=...)], the one attribute of the row the
    model carries besides the forecast. *)
Definition update_product (pid category : Z) (db : DB) : Result (unit * DB) :=
  let* product_obj := get_product_row pid db in
  let product_obj' :=
    {| product_id := product_id product_obj; product_category := category;
       product_out_of_stock_forecast :=
         product_out_of_stock_forecast product_obj |} in
  Ok (tt, set_products (save_row product_id product_obj') db).

Definition create_product_transaction (pid : Z) (ty : TrxType) (qty : Z)
    (reference : option (ContentType * Z)) (db : DB)
    : Result (ProductTransaction * DB) :=
  let* product_obj := get_product_row pid db in
  let '(tid, db1) := fresh_id db in
  let trx_obj :=
    {| trx_id := tid; trx_product_id := product_id product_obj;
       trx_type := ty; trx_qty := qty; trx_date_created := db_now db;
       trx_states := [ {| state_status := PENDING;
                          state_reference := reference |} ] |} in
  Ok (trx_obj, set_transactions (fun t => t ++ [trx_obj]) db1).

(** Modelled from the spec: [ProductTransaction.set_status] is not in src/;
    only a pending transaction may be finalized or canceled, and the new
    status is recorded as a further state row. *)
Definition set_status (status : TrxStatus)
    (reference : option (ContentType * Z)) (t : ProductTransaction)
    : Result ProductTransaction :=
  match trx_status t with
  | PENDING =>
      Ok {| trx_id := trx_id t; trx_product_id := trx_product_id t;
            trx_type := trx_type t; trx_qty := trx_qty t;
            trx_date_created := trx_date_created t;
            trx_states := trx_states t ++
              [ {| state_status := status; state_reference := reference |} ] |}
  | _ => Raise (APIException "Transaction is not pending.")
  end.

Definition change_product_transaction (status : TrxStatus) (tid : Z)
    (reference : option (ContentType * Z)) (db : DB) : Result (unit * DB) :=
  let* trx_obj :=
    objects_get "ProductTransaction" (fun t => trx_id t =? tid)
                (db_transactions db) in
  let* trx_obj' := set_status status reference trx_obj in
  Ok (tt, set_transactions (save_row trx_id trx_obj') db).

Definition finalize_product_transaction := change_product_transaction FINALIZED.
Definition cancel_product_transaction := change_product_transaction CANCELED.

(** A [for] loop over rows whose body may raise. *)
Fixpoint for_each {A : Type} (body : DB -> A -> Result DB) (db : DB)
    (l : list A) : Result DB :=
  match l with
  | [] => Ok db
  | x :: l' => let* db' := body db x in for_each body db' l'
  end.

(** The body of the inner loop of [finalize_stocktaking]. *)
Definition correct_item (db : DB) (item_obj : StocktakeItem) : Result DB :=
  let* product_obj := get_product_row (item_product_id item_obj) db in
  let* (_, db') :=
    create_product_transaction
      (product_id product_obj) CORRECTION
      (item_qty item_obj - product_qty db (product_id product_obj))
      (Some (CT_StocktakeItem, item_id item_obj)) db in
  Ok db'.

Definition chunk_items (db : DB) (chunk_obj : StocktakeChunk)
    : list StocktakeItem :=
  filter (fun it => (item_chunk_id it =? chunk_id chunk_obj) = true) (db_items db).

Definition correct_chunk (db : DB) (chunk_obj : StocktakeChunk) : Result DB :=
  for_each correct_item db (chunk_items db chunk_obj).

Definition finalize_stocktaking (sid : Z) (db : DB)
    : Result (Stocktake * DB) :=
  let* stocktake_obj :=
    objects_get "Stocktake" (fun s => stocktake_id s =? sid)
                (db_stocktakes db) in
  if stocktake_locked stocktake_obj
  then Raise (APIException "Stock-taking already finished.")
  else
    let chunk_objs :=
      filter (fun c => (chunk_stocktake_id c =? stocktake_id stocktake_obj) = true)
             (db_chunks db) in
    if negb (forallb chunk_locked chunk_objs)
    then Raise (APIException "Found unfinished chunks.")
    else
      let* db1 := for_each correct_chunk db chunk_objs in
      let stocktake_obj' := {| stocktake_id := stocktake_id stocktake_obj;
                               stocktake_locked := true |} in
      Ok (stocktake_obj',
          set_stocktakes (save_row stocktake_id stocktake_obj') db1).

(** ** Double-precision arithmetic

    The module divides twice, [qty / sp.qty] in [order_from_supplier] and
    [-initial_qty / svr.coef_] in [predict_quantity], and both quotients are
    IEEE 754 binary64 numbers (Python's [float], numpy's [float64]): the
    double nearest to the exact quotient, a tie going to the even
    significand.  A double is read as the rational it denotes. *)

(** The integer nearest to [n / d], for [0 < d], a tie going to the even
    one. *)
Definition round_half_even (n d : Z) : Z :=
  let f := n / d in
  let r := n mod d in
  if 2 * r <? d then f
  else if d <? 2 * r then f + 1
  else if Z.even f then f else f + 1.

(** [n / d] divided by [2 ^ e], as a fraction. *)
Definition scaled (n d e : Z) : Z * Z :=
  if 0 <=? e then (n, d * 2 ^ e) else (n * 2 ^ (- e), d).

(** The binary exponent of [n / d], for [0 < n] and [0 < d]: the [e] with
    [2 ^ e <= n / d < 2 ^ (e + 1)]. *)
Definition binary_exponent (n d : Z) : Z :=
  let e := Z.log2 n - Z.log2 d in
  let '(n', d') := scaled n d e in
  if d' <=? n' then e else e - 1.

(** The double nearest to [n / d], for [0 < n] and [0 < d]: a significand
    of 53 bits whose last bit weighs [2 ^ u], with [u] no less than -1074
    (gradual underflow).  Values from [2 ^ 1024] on stand for an overflow,
    which the callers handle. *)
Definition binary64_pos (n d : Z) : Q :=
  let u := Z.max (binary_exponent n d - 52) (-1074) in
  let '(n', d') := scaled n d u in
  let m := round_half_even n' d' in
  if 0 <=? u then inject_Z (m * 2 ^ u) else m # Z.to_pos (2 ^ (- u)).

Definition binary64 (q : Q) : Q :=
  match Qnum q with
  | 0 => 0%Q
  | Z.pos n => binary64_pos (Z.pos n) (Z.pos (Qden q))
  | Z.neg n => (- binary64_pos (Z.pos n) (Z.pos (Qden q)))%Q
  end.

Definition float_is_finite (x : Q) : bool :=
  Z.abs (Qnum x) <? 2 ^ 1024 * Z.pos (Qden x).

(** The exact quotient of two integers. *)
Definition int_quotient (a b : Z) : Q :=
  match b with
  | 0 => 0%Q
  | Z.pos p => a # p
  | Z.neg p => (- a) # p
  end.

(** [a / b] on Python integers: the double nearest to the exact quotient;
    ZeroDivisionError for [b = 0], OverflowError when the quotient is
    beyond the doubles. *)
Definition int_true_divide (a b : Z) : Result Q :=
  if b =? 0 then Raise ZeroDivisionError
  else
    let x := binary64 (int_quotient a b) in
    if float_is_finite x then Ok x
    else Raise (OverflowError "integer division result too large for a float").

(** An integer converted to [float64], as numpy does for the integer
    operand of a division by an array of doubles (for an integer within
    the range of the doubles). *)
Definition float_of_int (n : Z) : Q := binary64 (inject_Z n).

(** The quotient of two doubles, for a divisor other than 0. *)
Definition float_div (x y : Q) : Q := binary64 (x / y).

(** ** Dates and the forecast series *)

(** Timestamps count seconds on a clock whose day [d] (a proleptic
    Gregorian ordinal) starts at [86400 * d]; [TruncDay] followed by
    [toordinal()] is the quotient. *)
Definition day_of (timestamp : Z) : Z := timestamp / 86400.

(** [date.fromordinal]: ordinals of the years 1 to 9999. *)
Definition date_fromordinal (n : Z) : Result Z :=
  if (1 <=? n) && (n <=? 3652059) then Ok n
  else Raise (ValueError "ordinal out of range").

(** [order_by('-date_created').first()]: a row with the greatest creation
    time. *)
Fixpoint latest (ts : list ProductTransaction) : option ProductTransaction :=
  match ts with
  | [] => None
  | t :: rest =>
      match latest rest with
      | Some m =>
          if trx_date_created t <? trx_date_created m then Some m else Some t
      | None => Some t
      end
  end.

(** The grouped query: one row (day, summed quantity) per calendar day, in
    ascending order of day. *)
Fixpoint add_to_day (d q : Z) (groups : list (Z * Z)) : list (Z * Z) :=
  match groups with
  | [] => [(d, q)]
  | (d', q') :: rest =>
      if d =? d' then (d', q' + q) :: rest
      else if d <? d' then (d, q) :: groups
      else (d', q') :: add_to_day d q rest
  end.

Definition group_by_day (ts : list ProductTransaction) : list (Z * Z) :=
  foldl (fun groups t =>
           add_to_day (day_of (trx_date_created t)) (trx_qty t) groups) [] ts.

(** [itertools.accumulate]: running sums. *)
Fixpoint accumulate_from (acc : Z) (l : list Z) : list Z :=
  match l with
  | [] => []
  | v :: l' => (acc + v) :: accumulate_from (acc + v) l'
  end.

Definition accumulate (l : list Z) : list Z := accumulate_from 0 l.

(** [.astype(int)]: truncation toward zero.  (A quotient beyond the 64-bit
    integers has no defined cast; it lies far outside the ordinals of
    [date.fromordinal], which raises for it as it does here.) *)
Definition Qtruncate (q : Q) : Z := Z.quot (Qnum q) (Zpos (Qden q)).

(** ** Supplier capability *)

Record ProductData : Type := {
  pd_name : string;
  pd_price : Q;
  pd_units : Z
}.

Record ReportItem : Type := {
  ri_sku : string;
  ri_qty : Z;
  ri_price : Q
}.

(** The interface of [suppliers.base]: [order_product] answers [false] when
    the supplier raises [SupplierAPIException]. *)
Record SupplierAPI : Type := {
  retrieve_product : string -> option ProductData;
  parse_delivery_report : string -> list ReportItem;
  order_product : string -> Z -> bool
}.

Fixpoint map_result {A B : Type} (f : A -> Result B) (l : list A)
    : Result (list B) :=
  match l with
  | [] => Ok []
  | x :: l' =>
      let* y := f x in
      let* ys := map_result f l' in
      Ok (y :: ys)
  end.

Definition Qltb (a b : Q) : bool := negb (Qle_bool b a).

Section Shop.
(** [suppliers.get_supplier_api], the registry of supplier integrations. *)
Variable get_supplier_api : string -> SupplierAPI.
(** The [SupplierProduct] model is not in src/: a row created by the cache
    takes from this row the fields the code does not set. *)
Variable sp_defaults : SupplierProduct.
(** [SVR(kernel='linear', C=1e2).fit(x, y).coef_]: the regression runs in
    floating point outside the module and is taken as given; its slope is
    read as the rational it denotes. *)
Variable svr_coef : list Z -> list Z -> Q.

(** *** Forecast *)

(** Lines 329-337: the day offsets [x] and the daily deltas [y], with the
    initial quantity put at offset -1 and a zero delta appended at today's
    offset when [today_ordinal] is not among the offsets. *)
Definition series (initial_qty today_ordinal date_offset : Z)
    (trx_objs : list (Z * Z)) : list Z * list Z :=
  let x := -1 :: map (fun r => fst r - date_offset) trx_objs in
  let y := initial_qty :: map snd trx_objs in
  if bool_decide (today_ordinal ∈ x) then (x, y)
  else (x ++ [today_ordinal - date_offset], y ++ [0]).

(** Lines 339-350: fit, then project from [date_offset].  The quotient
    [-initial_qty / svr.coef_] is a [float64] division, and [astype(int)]
    truncates its result. *)
Definition regression_step (initial_qty date_offset : Z) (x y : list Z)
    : Result (option Z) :=
  let coef := svr_coef x (accumulate y) in
  if Qle_bool 0 coef then Ok None
  else
    let days := Qtruncate (float_div (float_of_int (- initial_qty)) coef) in
    let* d := date_fromordinal (date_offset + days) in
    Ok (Some d).

Definition predict_quantity (pid target : Z) (current_date : option Z)
    (db : DB) : Result (option Z) :=
  let* product_obj := get_product_row pid db in
  if product_qty db (product_id product_obj) <=? target then Ok None
  else
    let qs := finalized (db_transactions db) in
    match latest (restocks qs) with
    | None => Ok None
    | Some restock_trx =>
        let initial_qty :=
          sum_qty (filter (fun t => (trx_date_created t <=?
                                     trx_date_created restock_trx) = true) qs) in
        let trx_objs :=
          group_by_day
            (filter (fun t => (trx_date_created restock_trx <?
                               trx_date_created t) = true) qs) in
        match trx_objs with
        | [] => Ok None
        | (first_date, _) :: _ =>
            let today_ordinal :=
              match current_date with
              | Some d => d
              | None => day_of (db_now db)
              end in
            let date_offset := first_date in
            let '(x, y) :=
              series initial_qty today_ordinal date_offset trx_objs in
            regression_step initial_qty date_offset x y
        end
    end.

Definition update_out_of_stock_forecast (pid : Z) (db : DB)
    : Result (unit * DB) :=
  let* product_obj := get_product_row pid db in
  let* forecast := predict_quantity pid 0 None db in
  let product_obj' :=
    {| product_id := product_id product_obj;
       product_category := product_category product_obj;
       product_out_of_stock_forecast := forecast |} in
  Ok (tt, set_products (save_row product_id product_obj') db).

(** *** Ordering *)

(** The catalog rows in primary key order. *)
Definition supplier_product_rows (db : DB) : list SupplierProduct :=
  sorted_by_key Z.ltb sp_id (map snd (map_to_list (db_supplier_products db))).

(** [math.ceil(qty / sp.qty)]: the quotient is a double, and [math.ceil]
    gives the least integer that is no less than that double. *)
Definition minimum_qty (qty : Z) (sp : SupplierProduct) : Result Z :=
  let* quotient := int_true_divide qty (sp_qty sp) in
  Ok (Qceiling quotient).

Definition cost (qty : Z) (sp : SupplierProduct) : Result Q :=
  let* m := minimum_qty qty sp in
  Ok (inject_Z (m * sp_qty sp) * sp_unit_price sp)%Q.

(** [sorted(products, key=cost)]: every key is computed first. *)
Definition sorted_by_cost (qty : Z) (products : list SupplierProduct)
    : Result (list SupplierProduct) :=
  let* keyed := map_result (fun sp => let* c := cost qty sp in Ok (c, sp))
                           products in
  Ok (map snd (sorted_by_key Qltb fst keyed)).

(** [product.supplier]: the row the foreign key points to. *)
Definition supplier_of (db : DB) (sp : SupplierProduct) : Result Supplier :=
  objects_get "Supplier" (fun s => supplier_id s =? sp_supplier_id sp)
              (db_suppliers db).

(** The [for ... else] loop.  [product] is the loop variable, unbound
    until the first iteration; the first component of the result lists
    the offerings handed to [order_product], in order. *)
Fixpoint order_loop (qty : Z) (db : DB) (product : option SupplierProduct)
    (products : list SupplierProduct)
    : list SupplierProduct * Result SupplierProduct :=
  match products with
  | [] =>
      ([], match product with
           | None => Raise (UnboundLocalError "product")
           | Some p =>
               Raise (APIException
                        (String.append "Could not order "
                           (String.append (sp_sku p) ".")))
           end)
  | p :: rest =>
      match supplier_of db p with
      | Raise e => ([], Raise e)
      | Ok supplier =>
          match minimum_qty qty p with
          | Raise e => ([], Raise e)
          | Ok m =>
              if order_product
                   (get_supplier_api (supplier_internal_name supplier))
                   (sp_sku p) m
              then ([p], Ok p)
              else
                let '(attempts, r) := order_loop qty db (Some p) rest in
                (p :: attempts, r)
          end
      end
  end.

Definition candidates (pid : Z) (sid : option Z) (db : DB)
    : list SupplierProduct :=
  let products :=
    filter (fun sp => sp_product_id sp = Some pid) (supplier_product_rows db) in
  match sid with
  | Some s => filter (fun sp => (sp_supplier_id sp =? s) = true) products
  | None => products
  end.

Definition order_from_supplier (pid qty : Z) (sid : option Z) (db : DB)
    : list SupplierProduct * Result SupplierProduct :=
  match sorted_by_cost qty (candidates pid sid db) with
  | Raise e => ([], Raise e)
  | Ok products => order_loop qty db None products
  end.

(** *** Supplier catalog cache *)

Definition update_or_create (sid : Z) (sku : string) (pd : ProductData)
    (db : DB) : SupplierProduct * DB :=
  match db_supplier_products db !! (sid, sku) with
  | Some old =>
      let row := {| sp_id := sp_id old; sp_supplier_id := sid;
                    sp_product_id := sp_product_id old; sp_sku := sku;
                    sp_name := pd_name pd; sp_price := pd_price pd;
                    sp_units := pd_units pd; sp_qty := sp_qty old;
                    sp_unit_price := sp_unit_price old;
                    sp_qty_multiplier := sp_qty_multiplier old |} in
      (row, set_supplier_products (insert (sid, sku) row) db)
  | None =>
      let '(new_id, db1) := fresh_id db in
      let row := {| sp_id := new_id; sp_supplier_id := sid;
                    sp_product_id := sp_product_id sp_defaults; sp_sku := sku;
                    sp_name := pd_name pd; sp_price := pd_price pd;
                    sp_units := pd_units pd; sp_qty := sp_qty sp_defaults;
                    sp_unit_price := sp_unit_price sp_defaults;
                    sp_qty_multiplier := sp_qty_multiplier sp_defaults |} in
      (row, set_supplier_products (insert (sid, sku) row) db1)
  end.

Definition fetch_supplier_product (sid : Z) (sku : string) (db : DB)
    : Result (option SupplierProduct * DB) :=
  let* supplier_obj :=
    objects_get "Supplier" (fun s => supplier_id s =? sid) (db_suppliers db) in
  let supplier_api := get_supplier_api (supplier_internal_name supplier_obj) in
  match retrieve_product supplier_api sku with
  | None => Ok (None, db)
  | Some product_data =>
      let '(product_obj, db1) := update_or_create sid sku product_data db in
      Ok (Some product_obj, db1)
  end.

Definition get_supplier_product (sid : Z) (sku : string) (refresh : bool)
    (db : DB) : Result (option SupplierProduct * DB) :=
  if refresh then fetch_supplier_product sid sku db
  else
    match db_supplier_products db !! (sid, sku) with
    | Some product_obj => Ok (Some product_obj, db)
    | None => fetch_supplier_product sid sku db
    end.

(** *** Delivery pipeline *)

Definition populate_item (delivery_obj : Delivery) (supplier_obj : Supplier)
    (db : DB) (item : ReportItem) : Result DB :=
  let* (product_obj, db1) :=
    get_supplier_product (supplier_id supplier_obj) (ri_sku item) false db in
  match product_obj with
  | None => Ok db1
  | Some sp =>
      if sp_qty_multiplier sp =? 0 then Raise ZeroDivisionError
      else
        let '(new_id, db2) := fresh_id db1 in
        Ok (set_delivery_items
              (fun t => t ++
                 [ {| di_id := new_id;
                      di_delivery_id := delivery_id delivery_obj;
                      di_supplier_product_id := sp_id sp;
                      di_qty := ri_qty item * sp_qty_multiplier sp;
                      di_price := (ri_price item /
                                   inject_Z (sp_qty_multiplier sp))%Q |} ])
              db2)
  end.

Definition parse_report (supplier_internal_name report_path : string)
    : list ReportItem :=
  parse_delivery_report (get_supplier_api supplier_internal_name) report_path.

Definition populate_delivery (did : Z) (db : DB) : Result (Delivery * DB) :=
  let* delivery_obj :=
    objects_get "Delivery" (fun d => delivery_id d =? did) (db_deliveries db) in
  let* supplier_obj :=
    objects_get "Supplier"
      (fun s => supplier_id s =? delivery_supplier_id delivery_obj)
      (db_suppliers db) in
  let items := parse_report (supplier_internal_name supplier_obj)
                            (delivery_report_path delivery_obj) in
  let* db1 := for_each (populate_item delivery_obj supplier_obj) db items in
  Ok (delivery_obj, db1).

Definition supplier_product_by_id (db : DB) (id : Z) : option SupplierProduct :=
  List.find (fun sp => sp_id sp =? id) (supplier_product_rows db).

(** The product a delivery item stands for, through its supplier
    product. *)
Definition delivery_item_product (db : DB) (item : DeliveryItem) : option Z :=
  match supplier_product_by_id db (di_supplier_product_id item) with
  | Some sp => sp_product_id sp
  | None => None
  end.

Definition delivery_items_of (db : DB) (delivery_obj : Delivery)
    : list DeliveryItem :=
  filter (fun it => (di_delivery_id it =? delivery_id delivery_obj) = true)
         (db_delivery_items db).

(** Modelled from the spec: [Delivery.valid] is not in src/; a delivery is
    valid when every item of it is associated with a product. *)
Definition delivery_valid (db : DB) (delivery_obj : Delivery) : bool :=
  forallb (fun it => bool_decide (is_Some (delivery_item_product db it)))
          (delivery_items_of db delivery_obj).

Definition process_item (db : DB) (item : DeliveryItem) : Result DB :=
  match delivery_item_product db item with
  | None => Raise (AttributeError "'NoneType' object has no attribute 'id'")
  | Some pid =>
      let* (_, db') :=
        create_product_transaction pid INVENTORY (di_qty item)
          (Some (CT_DeliveryItem, di_id item)) db in
      Ok db'
  end.

Definition process_delivery (did : Z) (db : DB) : Result (unit * DB) :=
  let* delivery_obj :=
    objects_get "Delivery" (fun d => delivery_id d =? did) (db_deliveries db) in
  if negb (delivery_valid db delivery_obj)
  then Raise (AssertionError
                "Some of the delivered items are not associated with a product in the system.")
  else
    let* db1 := for_each process_item db (delivery_items_of db delivery_obj) in
    let delivery_obj' :=
      {| delivery_id := delivery_id delivery_obj;
         delivery_supplier_id := delivery_supplier_id delivery_obj;
         delivery_report_path := delivery_report_path delivery_obj;
         delivery_locked := true |} in
    Ok (tt, set_deliveries (save_row delivery_id delivery_obj') db1).

(** *** Reachable databases

    One step is a successful call of an operation of the module (a failed
    call leaves the database as it was), the passing of time, or an entry
    made outside the module: a counted quantity, a supplier, a delivery. *)
Inductive step : DB -> DB -> Prop :=
  | step_tick db t :
      step db (set_now t db)
  | step_count db id qty :
      step db (set_items
                 (map (fun it => if item_id it =? id
                                 then {| item_id := item_id it;
                                         item_chunk_id := item_chunk_id it;
                                         item_product_id := item_product_id it;
                                         item_qty := qty |}
                                 else it)) db)
  | step_supplier db s :
      step db {| db_products := db_products db;
                 db_transactions := db_transactions db;
                 db_suppliers := db_suppliers db ++ [s];
                 db_supplier_products := db_supplier_products db;
                 db_deliveries := db_deliveries db;
                 db_delivery_items := db_delivery_items db;
                 db_stocktakes := db_stocktakes db;
                 db_chunks := db_chunks db;
                 db_items := db_items db;
                 db_next_id := db_next_id db;
                 db_now := db_now db |}
  | step_delivery db d :
      step db (set_deliveries (fun t => t ++ [d]) db)
  | step_create_product db category :
      step db (snd (create_product category db))
  | step_update_product db pid category db' :
      update_product pid category db = Ok (tt, db') -> step db db'
  | step_create_product_transaction db pid ty qty reference t db' :
      create_product_transaction pid ty qty reference db = Ok (t, db') ->
      step db db'
  | step_finalize_product_transaction db tid reference db' :
      finalize_product_transaction tid reference db = Ok (tt, db') ->
      step db db'
  | step_cancel_product_transaction db tid reference db' :
      cancel_product_transaction tid reference db = Ok (tt, db') ->
      step db db'
  | step_get_supplier_product db sid sku refresh r db' :
      get_supplier_product sid sku refresh db = Ok (r, db') -> step db db'
  | step_populate_delivery db did d db' :
      populate_delivery did db = Ok (d, db') -> step db db'
  | step_process_delivery db did db' :
      process_delivery did db = Ok (tt, db') -> step db db'
  | step_initiate_stocktaking db chunk_size s db' :
      initiate_stocktaking chunk_size db = Ok (s, db') -> step db db'
  | step_finalize_stocktaking db sid s db' :
      finalize_stocktaking sid db = Ok (s, db') -> step db db'
  | step_finalize_stocktake_chunk db cid db' :
      finalize_stocktake_chunk cid db = Ok (tt, db') -> step db db'
  | step_assign_free_stocktake_chunk db uid sid r db' :
      assign_free_stocktake_chunk uid sid db = Ok (r, db') -> step db db'
  | step_update_out_of_stock_forecast db pid db' :
      update_out_of_stock_forecast pid db = Ok (tt, db') -> step db db'.

Definition reachable (db : DB) : Prop := rtc step empty_db db.
End Shop.

(** The invariant of the chunk table: a locked chunk has no owner. *)
Definition chunk_inv (c : StocktakeChunk) : Prop :=
  chunk_locked c = true -> chunk_owner_id c = None.

Definition chunks_inv (db : DB) : Prop := Forall chunk_inv (db_chunks db).

(** ** The rows a stock-taking creates

    [initiate_stocktaking] appends to the chunk and item tables; these
    functions name the appended rows, given the product groups and the first
    free primary key, so that the loop can be compared with them. *)

Definition add_stocktake_rows (chunks : list StocktakeChunk)
    (items : list StocktakeItem) (next : Z) (db : DB) : DB :=
  {| db_products := db_products db;
     db_transactions := db_transactions db; db_suppliers := db_suppliers db;
     db_supplier_products := db_supplier_products db;
     db_deliveries := db_deliveries db;
     db_delivery_items := db_delivery_items db;
     db_stocktakes := db_stocktakes db;
     db_chunks := db_chunks db ++ chunks;
     db_items := db_items db ++ items;
     db_next_id := next; db_now := db_now db |}.

Fixpoint items_for (cid next : Z) (group : list Product) : list StocktakeItem :=
  match group with
  | [] => []
  | p :: group' =>
      {| item_id := next; item_chunk_id := cid;
         item_product_id := product_id p; item_qty := 0 |}
      :: items_for cid (next + 1) group'
  end.

Definition group_span (group : list Product) : Z := 1 + Z.of_nat (length group).

Fixpoint built_chunks (sid next : Z) (groups : list (list Product))
    : list StocktakeChunk :=
  match groups with
  | [] => []
  | g :: groups' =>
      {| chunk_id := next; chunk_stocktake_id := sid;
         chunk_locked := false; chunk_owner_id := None |}
      :: built_chunks sid (next + group_span g) groups'
  end.

Fixpoint built_items (next : Z) (groups : list (list Product))
    : list StocktakeItem :=
  match groups with
  | [] => []
  | g :: groups' =>
      items_for next (next + 1) g ++ built_items (next + group_span g) groups'
  end.

Fixpoint next_after (next : Z) (groups : list (list Product)) : Z :=
  match groups with
  | [] => next
  | g :: groups' => next_after (next + group_span g) groups'
  end.

(** A chunk as [initiate_stocktaking] creates it for stocktake [sid]. *)
Definition fresh_chunk (sid : Z) (c : StocktakeChunk) : Prop :=
  chunk_stocktake_id c = sid /\ chunk_locked c = false /\ chunk_owner_id c = None.

(** The items of a chunk among the given rows. *)
Definition items_of_chunk (c : StocktakeChunk) (items : list StocktakeItem)
    : list StocktakeItem :=
  filter (fun it => (item_chunk_id it =? chunk_id c) = true) items.

(** ** Statements about finalizing a stock-taking *)

(** Referential integrity of the item table: the product of every item is a
    row of the product table. *)
Definition items_have_products (db : DB) : bool :=
  forallb (fun it => is_ok (get_product_row (item_product_id it) db))
          (db_items db).

Definition stocktake_chunks (db : DB) (st : Stocktake) : list StocktakeChunk :=
  filter (fun c => (chunk_stocktake_id c =? stocktake_id st) = true)
         (db_chunks db).

(** The items of a stocktake, chunk by chunk. *)
Definition stocktake_items (db : DB) (st : Stocktake) : list StocktakeItem :=
  concat (map (chunk_items db) (stocktake_chunks db st)).

(** [t] is the correction that [finalize_stocktaking] records for [it] when
    the product quantities are those of [db]: its delta is the counted minus
    the recorded quantity, it refers to the item, and its only state is
    pending. *)
Definition correction_for (db : DB) (it : StocktakeItem)
    (t : ProductTransaction) : Prop :=
  trx_type t = CORRECTION
  /\ trx_product_id t = item_product_id it
  /\ trx_qty t = item_qty it - product_qty db (item_product_id it)
  /\ trx_states t = [ {| state_status := PENDING;
                         state_reference :=
                           Some (CT_StocktakeItem, item_id it) |} ].

(** What the ledger part of the loops may change: nothing but the
    transaction table and the key counter, and no product quantity. *)
Definition ledger_grows (db db' : DB) (ts : list ProductTransaction) : Prop :=
  db_transactions db' = db_transactions db ++ ts
  /\ db_products db' = db_products db
  /\ db_items db' = db_items db
  /\ db_chunks db' = db_chunks db
  /\ db_stocktakes db' = db_stocktakes db
  /\ Forall (fun t => trx_status t = PENDING) ts.

(** ** Statements about the forecast *)

(** Python's [round]: the nearest integer, a tie going to the even one. *)
Definition Qround (q : Q) : Z :=
  let f := Qfloor q in
  match Qcompare (q - inject_Z f) (1 # 2) with
  | Lt => f
  | Gt => f + 1
  | Eq => if Z.even f then f else f + 1
  end.

(** The date as the specification words it: the offset of the last point of
    the fitted series plus the rounded number of days, counted from
    [date_offset].  The quotient is the double the code divides to. *)
Definition spec_forecast_date (initial_qty date_offset : Z) (x : list Z)
    (coef : Q) : Z :=
  date_offset + List.last x 0
  + Qround (float_div (float_of_int (- initial_qty)) coef).

(** The date the code computes: the number of days, which is the
    [float64] quotient of [-initial_qty] by the slope truncated toward
    zero, counted from [date_offset], the day of the first data point. *)
Definition forecast_date (initial_qty date_offset : Z) (coef : Q) : Z :=
  date_offset + Qtruncate (float_div (float_of_int (- initial_qty)) coef).

(** The series the regression is fitted on, for a ledger that passes the
    three guards of [predict_quantity]. *)
Definition initial_qty_at (db : DB) (restock_trx : ProductTransaction) : Z :=
  sum_qty (filter (fun t => (trx_date_created t <=?
                             trx_date_created restock_trx) = true)
                  (finalized (db_transactions db))).

Definition data_points (db : DB) (restock_trx : ProductTransaction)
    : list (Z * Z) :=
  group_by_day
    (filter (fun t => (trx_date_created restock_trx <?
                       trx_date_created t) = true)
            (finalized (db_transactions db))).

Definition today_of (current_date : option Z) (db : DB) : Z :=
  match current_date with
  | Some d => d
  | None => day_of (db_now db)
  end.

(** ** Statements about ordering *)

(** The batch sizes for which, with a quantity below 2^53 in magnitude,
    the double-precision quotient of the code has the exact ceiling. *)
Definition batch_in_range (sp : SupplierProduct) : Prop :=
  sp_qty sp <> 0 /\ Z.abs (sp_qty sp) < 2 ^ 53.

(** [ceil(qty / offering.qty) * offering.qty * offering.unit_price], with
    the exact ceiling of the quotient. *)
Definition cost_of (qty : Z) (sp : SupplierProduct) : Q :=
  (inject_Z (ceil_div qty (sp_qty sp) * sp_qty sp) * sp_unit_price sp)%Q.

(** Whether the supplier of an offering takes the order for [qty], that is
    for the exact ceiling of [qty / offering.qty] batches. *)
Definition accepts (get_supplier_api : string -> SupplierAPI) (qty : Z)
    (db : DB) (sp : SupplierProduct) : bool :=
  match supplier_of db sp with
  | Ok supplier =>
      order_product (get_supplier_api (supplier_internal_name supplier))
                    (sp_sku sp) (ceil_div qty (sp_qty sp))
  | Raise _ => false
  end.

Definition order_failure_message (sp : SupplierProduct) : string :=
  String.append "Could not order " (String.append (sp_sku sp) ".").

(** ** Sample data *)

(** Ordinary least squares, a regression routine to run the forecast
    with. *)
Definition sum_Z (l : list Z) : Z := foldr Z.add 0 l.

Definition least_squares_slope (x y : list Z) : Q :=
  let n := Z.of_nat (length x) in
  let sx := sum_Z x in
  let sy := sum_Z y in
  let sxy := sum_Z (zip_with Z.mul x y) in
  let sxx := sum_Z (map (fun v => v * v) x) in
  let den := n * sxx - sx * sx in
  if den <=? 0 then 0%Q else (n * sxy - sx * sy) # (Z.to_pos den).

Definition finalized_states : list TrxState :=
  [ {| state_status := PENDING; state_reference := None |};
    {| state_status := FINALIZED; state_reference := None |} ].

Definition sample_trx (id pid : Z) (ty : TrxType) (qty day : Z)
    : ProductTransaction :=
  {| trx_id := id; trx_product_id := pid; trx_type := ty; trx_qty := qty;
     trx_date_created := day * 86400 + 3600 * id;
     trx_states := finalized_states |}.

Definition sample_product (id category : Z) : Product :=
  {| product_id := id; product_category := category;
     product_out_of_stock_forecast := None |}.

(** A product restocked with 10 units on day 736000 and sold on the days
    736001 and 736003. *)
Definition forecast_db : DB :=
  set_transactions
    (fun _ => [ sample_trx 2 1 INVENTORY 10 736000;
                sample_trx 3 1 PURCHASE (-2) 736001;
                sample_trx 4 1 PURCHASE (-3) 736003 ])
    (set_products (fun _ => [sample_product 1 1]) empty_db).

(** Product 1 was never restocked (its 10 units come from a correction);
    product 2 was restocked with 50 units and sold on two days. *)
Definition two_product_db : DB :=
  set_transactions
    (fun _ => [ sample_trx 3 1 CORRECTION 10 736000;
                sample_trx 4 2 INVENTORY 50 736000;
                sample_trx 5 2 PURCHASE (-5) 736001;
                sample_trx 6 2 PURCHASE (-5) 736002 ])
    (set_products (fun _ => [sample_product 1 1; sample_product 2 1]) empty_db).

(** A stocktake (2) with one locked chunk (3) that counted 5 units of
    product 1, of which the ledger records 3. *)
Definition stocktake_db : DB :=
  {| db_products := [sample_product 1 1];
     db_transactions := [sample_trx 5 1 INVENTORY 3 736000];
     db_suppliers := []; db_supplier_products := ∅;
     db_deliveries := []; db_delivery_items := [];
     db_stocktakes := [ {| stocktake_id := 2; stocktake_locked := false |} ];
     db_chunks := [ {| chunk_id := 3; chunk_stocktake_id := 2;
                       chunk_locked := true; chunk_owner_id := None |} ];
     db_items := [ {| item_id := 4; item_chunk_id := 3;
                      item_product_id := 1; item_qty := 5 |} ];
     db_next_id := 6; db_now := 736010 * 86400 |}.

(** Five products in three categories, and nothing else. *)
Definition catalog_db : DB :=
  set_products
    (fun _ => [ sample_product 10 2; sample_product 11 1; sample_product 12 2;
                sample_product 13 1; sample_product 14 3 ])
    (snd (fresh_id (set_now 20 empty_db))).

(** Every offering has a batch size other than 0 and below 2^53 in
    magnitude, and a supplier row. *)
Definition offerings_ok (db : DB) (products : list SupplierProduct) : bool :=
  forallb (fun sp => negb (sp_qty sp =? 0) && (Z.abs (sp_qty sp) <? 2 ^ 53)
                     && is_ok (supplier_of db sp)) products.

Definition sample_offering (id supplier : Z) (sku : string) (batch : Z)
    (unit_price : Q) : SupplierProduct :=
  {| sp_id := id; sp_supplier_id := supplier; sp_product_id := Some 1;
     sp_sku := sku; sp_name := sku; sp_price := unit_price; sp_units := 1;
     sp_qty := batch; sp_unit_price := unit_price;
     sp_qty_multiplier := batch |}.

(** Two suppliers and three offerings of product 1: for 10 units they cost
    24 (SKU A, batches of 6), 30 (SKU B, batches of 4) and 22 (SKU C,
    batches of 10). *)
Definition offerings_db : DB :=
  {| db_products := [sample_product 1 1; sample_product 2 1];
     db_transactions := [];
     db_suppliers := [ {| supplier_id := 1; supplier_internal_name := "north" |};
                       {| supplier_id := 2; supplier_internal_name := "south" |} ];
     db_supplier_products :=
       list_to_map
         [ ((1, "A"), sample_offering 11 1 "A" 6 (2 # 1));
           ((2, "B"), sample_offering 12 2 "B" 4 (5 # 2));
           ((1, "C"), sample_offering 13 1 "C" 10 (22 # 10)) ];
     db_deliveries := [ {| delivery_id := 20; delivery_supplier_id := 1;
                           delivery_report_path := "report.pdf";
                           delivery_locked := false |} ];
     db_delivery_items := [];
     db_stocktakes := []; db_chunks := []; db_items := [];
     db_next_id := 30; db_now := 736010 * 86400 |}.

(** Two offerings of product 1 at the same unit price, in batches of 6
    and of 1. *)
Definition large_order_db : DB :=
  set_supplier_products
    (fun _ => list_to_map
                [ ((1, "A"), sample_offering 11 1 "A" 6 (1 # 1));
                  ((2, "B"), sample_offering 12 2 "B" 1 (1 # 1)) ])
    offerings_db.

(** A supplier integration: "north" has run out of SKU C and does not know
    SKU Z; its report lists A twice, the unknown Z and the new D. *)
Definition sample_api (name : string) : SupplierAPI :=
  {| retrieve_product := fun sku =>
       if String.eqb sku "D"
       then Some {| pd_name := "D"; pd_price := 9 # 1; pd_units := 1 |}
       else None;
     parse_delivery_report := fun _ =>
       [ {| ri_sku := "A"; ri_qty := 2; ri_price := 12 # 1 |};
         {| ri_sku := "Z"; ri_qty := 1; ri_price := 5 # 1 |};
         {| ri_sku := "D"; ri_qty := 3; ri_price := 9 # 1 |};
         {| ri_sku := "A"; ri_qty := 1; ri_price := 12 # 1 |} ];
     order_product := fun sku _ =>
       negb (String.eqb name "north" && String.eqb sku "C") |}.

Definition sample_defaults : SupplierProduct :=
  {| sp_id := 0; sp_supplier_id := 0; sp_product_id := None; sp_sku := "";
     sp_name := ""; sp_price := 0; sp_units := 1; sp_qty := 1;
     sp_unit_price := 0; sp_qty_multiplier := 1 |}.

(** ** Statements about the delivery pipeline *)




(** [catalog_db] after a stocktake with chunks of two products has been
    initiated. *)
Definition counting_db : DB :=
  match initiate_stocktaking 2 catalog_db with
  | Ok (_, db) => db
  | Raise _ => catalog_db
  end.

(** From the empty database: a product is created, a stocktake initiated,
    its chunk assigned to user 7 and then finalized. *)
Definition counted_db : DB :=
  let db1 := snd (create_product 1 empty_db) in
  match initiate_stocktaking 10 db1 with
  | Ok (_, db2) =>
      match assign_free_stocktake_chunk 7 2 db2 with
      | Ok (_, db3) =>
          match finalize_stocktake_chunk 3 db3 with
          | Ok (_, db4) => db4
          | Raise _ => db3
          end
      | Raise _ => db2
      end
  | Raise _ => db1
  end.


(** ** Reading products and transactions *)

(** [get_product]: the row, or None when the product does not exist. *)
Definition get_product (pid : Z) (db : DB) : Result (option Product) :=
  match get_product_row pid db with
  | Ok product_obj => Ok (Some product_obj)
  | Raise (DoesNotExist _) => Ok None
  | Raise e => Raise e
  end.

#[global] Instance ContentType_eq_dec : EqDecision ContentType.
Proof. solve_decision. Defined.

(** A state row of the transaction carries the reference. *)
Definition refers_to (reference : ContentType * Z) (t : ProductTransaction)
    : bool :=
  existsb (fun s => bool_decide (state_reference s = Some reference))
          (trx_states t).

(** [get_product_transactions_by_ref]: the transactions with a state row
    that carries the reference, each once. *)
Definition get_product_transactions_by_ref (reference : ContentType * Z)
    (db : DB) : list ProductTransaction :=
  filter (fun t => refers_to reference t = true) (db_transactions db).

(** [queryset[start:limit]]: Django refuses negative bounds and otherwise
    slices as Python does. *)
Definition queryset_slice {A : Type} (start limit : option Z) (rows : list A)
    : Result (list A) :=
  let negative := fun b => match b with Some k => k <? 0 | None => false end in
  if negative start || negative limit
  then Raise (AssertionError "Negative indexing is not supported.")
  else
    let low := match start with Some k => Z.to_nat k | None => O end in
    match limit with
    | Some high => Ok (take (Z.to_nat high - low) (drop low rows))
    | None => Ok (drop low rows)
    end.

(** [list_products(start, limit, **kwargs)]: the keyword criteria are a
    filter on the rows. *)
Definition list_products (start limit : option Z) (criteria : Product -> bool)
    (db : DB) : Result (list Product) :=
  queryset_slice start limit
    (filter (fun p => criteria p = true) (db_products db)).

(** ** Refill *)

(** A row of the BaseStockLevel table, which the refill reads. *)
Record BaseStockLevel : Type := {
  bsl_product_id : Z;
  bsl_level : Z
}.

(** [date.weekday()] of an ordinal: Monday is 0, and day 1 is a Monday. *)
Definition weekday (d : Z) : Z := (d + 6) mod 7.

(** [d + timedelta(days)]: None stands for the OverflowError of a date
    outside the years 1 to 9999. *)
Definition date_add (d days : Z) : option Z :=
  if (1 <=? d + days) && (d + days <=? 3652059) then Some (d + days) else None.

(** The local function [next_weekday] of [order_refill]. *)
Definition next_weekday (d wd : Z) : option Z :=
  let days_ahead := wd - weekday d in
  let days_ahead := if days_ahead <=? 0 then days_ahead + 7 else days_ahead in
  date_add d days_ahead.

(** [product__out_of_stock_forecast__lt=second_delivery]: the product of the
    base level has a forecast, and it is before the second delivery. *)
Definition refill_due (db : DB) (second_delivery : Z) (bl : BaseStockLevel)
    : bool :=
  match List.find (fun p => product_id p =? bsl_product_id bl)
                  (db_products db) with
  | Some p =>
      match product_out_of_stock_forecast p with
      | Some forecast => forecast <? second_delivery
      | None => false
      end
  | None => false
  end.

Section Refill.
(** [suppliers.get_supplier_api]. *)
Variable get_supplier_api : string -> SupplierAPI.
(** The Supplier model is not in src/: the weekday a supplier delivers on
    ([supplier.delivers_on]) is read through this function. *)
Variable delivers_on : Supplier -> Z.

(** The loop of [order_refill]: the first component lists the offerings
    handed to the suppliers, the second is the list [ordered] or the
    exception that ended the loop. *)
Fixpoint refill_loop (sid : Z) (db : DB) (base_levels : list BaseStockLevel)
    : list SupplierProduct * Result (list SupplierProduct) :=
  match base_levels with
  | [] => ([], Ok [])
  | base_level :: rest =>
      match order_from_supplier get_supplier_api (bsl_product_id base_level)
              (bsl_level base_level) (Some sid) db with
      | (attempts, Raise e) => (attempts, Raise e)
      | (attempts, Ok sp) =>
          let '(attempts', r) := refill_loop sid db rest in
          (attempts ++ attempts',
           match r with
           | Ok ordered => Ok (sp :: ordered)
           | Raise e => Raise e
           end)
      end
  end.

(** [order_refill(supplier_id, current_date)], given the rows of the
    BaseStockLevel table.  None stands for the OverflowError of the date
    arithmetic. *)
Definition order_refill (sid : Z) (current_date : option Z)
    (base_levels : list BaseStockLevel) (db : DB)
    : option (list SupplierProduct * Result (list SupplierProduct)) :=
  let today := today_of current_date db in
  match objects_get "Supplier" (fun s => supplier_id s =? sid)
                    (db_suppliers db) with
  | Raise e => Some ([], Raise e)
  | Ok supplier =>
      let delivery_weekday := delivers_on supplier in
      match next_weekday today delivery_weekday with
      | None => None
      | Some first_delivery =>
          match next_weekday first_delivery delivery_weekday with
          | None => None
          | Some second_delivery =>
              Some (refill_loop (supplier_id supplier) db
                      (filter (fun bl => refill_due db second_delivery bl = true)
                              base_levels))
          end
      end
  end.
End Refill.

(** ** Invariants of reachable databases *)

(** The primary keys of the product, stocktake and chunk tables are
    distinct and below the key counter. *)
Definition keys_inv (db : DB) : Prop :=
  NoDup (map product_id (db_products db))
  /\ NoDup (map stocktake_id (db_stocktakes db))
  /\ NoDup (map chunk_id (db_chunks db))
  /\ Forall (fun k => k < db_next_id db) (map product_id (db_products db))
  /\ Forall (fun k => k < db_next_id db) (map stocktake_id (db_stocktakes db))
  /\ Forall (fun k => k < db_next_id db) (map chunk_id (db_chunks db)).

(** The keys of the chunk table are distinct and below the key counter. *)
Definition chunk_keys_inv (db : DB) : Prop :=
  NoDup (map chunk_id (db_chunks db))
  /\ Forall (fun k => k < db_next_id db) (map chunk_id (db_chunks db)).

(** The chunk with key [cid] has been finished: its row is locked and has
    no owner. *)
Definition finished_chunk (cid : Z) (db : DB) : Prop :=
  exists c,
    c ∈ db_chunks db
    /\ chunk_id c = cid /\ chunk_locked c = true /\ chunk_owner_id c = None.

Definition unlocked_stocktakes (db : DB) : list Stocktake :=
  filter (fun s => stocktake_locked s = false) (db_stocktakes db).

(** What an operation outside stock-taking and the catalog leaves alone. *)
Definition keeps_stocktaking (db db' : DB) : Prop :=
  db_products db' = db_products db
  /\ db_stocktakes db' = db_stocktakes db
  /\ db_chunks db' = db_chunks db
  /\ db_next_id db <= db_next_id db'.

(** What one step may do to the keys and to the stocktakes: the key
    counter does not go back, new product and chunk rows take keys between
    the old and the new counter, and either the stocktake keys stay and no
    further stocktake is unlocked, or one unlocked stocktake with the next
    key is added to a table without unlocked stocktake. *)
Definition fresh_keys (db db' : DB) (new : list Z) : Prop :=
  NoDup new /\ Forall (fun k => db_next_id db <= k < db_next_id db') new.

Definition step_effect (db db' : DB) : Prop :=
  db_next_id db <= db_next_id db'
  /\ (exists new,
         map product_id (db_products db')
         = map product_id (db_products db) ++ new
         /\ fresh_keys db db' new)
  /\ (exists new,
         map chunk_id (db_chunks db') = map chunk_id (db_chunks db) ++ new
         /\ fresh_keys db db' new)
  /\ ((map stocktake_id (db_stocktakes db')
       = map stocktake_id (db_stocktakes db)
       /\ (length (unlocked_stocktakes db')
           <= length (unlocked_stocktakes db))%nat)
      \/ (unlocked_stocktakes db = []
          /\ db_stocktakes db'
             = db_stocktakes db
               ++ [ {| stocktake_id := db_next_id db;
                       stocktake_locked := false |} ]
          /\ db_next_id db < db_next_id db')).

(** ** Statements about processing a delivery *)

(** [t] is the transaction [process_delivery] records for the delivery
    item [it]: an INVENTORY transaction for the product of the item, with
    the quantity of the item, which refers to the item and is pending. *)
Definition inventory_for (db : DB) (it : DeliveryItem)
    (t : ProductTransaction) : Prop :=
  trx_type t = INVENTORY
  /\ delivery_item_product db it = Some (trx_product_id t)
  /\ trx_qty t = di_qty it
  /\ trx_states t = [ {| state_status := PENDING;
                         state_reference :=
                           Some (CT_DeliveryItem, di_id it) |} ].

(** The loop of [process_delivery] appends to the ledger and leaves the
    catalog and the deliveries alone. *)
Definition delivery_frame (db db' : DB) (ts : list ProductTransaction) : Prop :=
  db_transactions db' = db_transactions db ++ ts
  /\ db_products db' = db_products db
  /\ db_supplier_products db' = db_supplier_products db
  /\ db_delivery_items db' = db_delivery_items db
  /\ db_deliveries db' = db_deliveries db.

(** The product of every item of the delivery is a row of the product
    table. *)
Definition delivery_products_exist (db : DB) (delivery : Delivery) : Prop :=
  forall it pid,
    it ∈ delivery_items_of db delivery ->
    delivery_item_product db it = Some pid ->
    exists p, get_product_row pid db = Ok p.

Definition lock_delivery (delivery : Delivery) : Delivery :=
  {| delivery_id := delivery_id delivery;
     delivery_supplier_id := delivery_supplier_id delivery;
     delivery_report_path := delivery_report_path delivery;
     delivery_locked := true |}.

(** ** Further sample data *)

(** [counting_db] after chunk 3 has been finished. *)
Definition finished_db : DB :=
  match finalize_stocktake_chunk 3 counting_db with
  | Ok (_, db) => db
  | Raise _ => counting_db
  end.

(** [offerings_db] with two items of delivery 20: 12 units of SKU A and 10
    units of SKU C. *)
Definition delivered_db : DB :=
  set_delivery_items
    (fun _ => [ {| di_id := 40; di_delivery_id := 20;
                   di_supplier_product_id := 11; di_qty := 12;
                   di_price := 2 # 1 |};
                {| di_id := 41; di_delivery_id := 20;
                   di_supplier_product_id := 13; di_qty := 10;
                   di_price := 22 # 10 |} ])
    offerings_db.

(** [offerings_db] with a further offering of product 1 whose batch size
    is 0. *)
Definition zero_batch_db : DB :=
  set_supplier_products
    (insert (2, "E") (sample_offering 14 2 "E" 0 (1 # 1))) offerings_db.

(** [offerings_db] with a cached row for SKU D, which the supplier knows
    under another price. *)
Definition stale_db : DB :=
  set_supplier_products
    (insert (1, "D") (sample_offering 15 1 "D" 3 (7 # 1))) offerings_db.

(** [offerings_db] with a forecast for product 1 and none for product 2;
    today is day 736010. *)
Definition refill_db : DB :=
  set_products
    (fun _ => [ {| product_id := 1; product_category := 1;
                   product_out_of_stock_forecast := Some 736015 |};
                {| product_id := 2; product_category := 1;
                   product_out_of_stock_forecast := None |} ])
    offerings_db.

Definition sample_base_levels : list BaseStockLevel :=
  [ {| bsl_product_id := 1; bsl_level := 10 |};
    {| bsl_product_id := 2; bsl_level := 5 |} ].

(** Every supplier delivers on Mondays. *)
Definition sample_delivers_on (s : Supplier) : Z := 0.

(** [catalog_db] with the key counter above the keys of its products. *)
Definition keyed_catalog_db : DB := add_stocktake_rows [] [] 100 catalog_db.

(** [catalog_db] with the key counter above its product keys, after a
    stocktake with chunks of two products has been initiated: stocktake
    100 with the chunks 101, 104 and 107. *)
Definition keyed_counting_db : DB :=
  match initiate_stocktaking 2 keyed_catalog_db with
  | Ok (_, db) => db
  | Raise _ => keyed_catalog_db
  end.

(** * Verification *)

(** ** The result monad *)

Lemma bind_Ok {A B : Type} (r : Result A) (k : A -> Result B) (b : B) :
  bind r k = Ok b -> exists a, r = Ok a /\ k a = Ok b.
Proof. destruct r as [a|e]; simpl; [eauto | discriminate]. Qed.

Tactic Notation "bind_inv" hyp(H) "as" ident(a) ident(Ha) :=
  apply bind_Ok in H; destruct H as (a & Ha & H).

Lemma objects_get_Ok {A : Type} (model : string) (p : A -> bool)
    (table : list A) (r : A) :
  objects_get model p table = Ok r ->
  filter (fun r => p r = true) table = [r].
Proof.
  unfold objects_get.
  destruct (filter _ table) as [|r1 [|r2 rest]]; intros H;
    inversion H; reflexivity.
Qed.

Lemma objects_get_elem {A : Type} (model : string) (p : A -> bool)
    (table : list A) (r : A) :
  objects_get model p table = Ok r -> r ∈ table /\ p r = true.
Proof.
  intros H. apply objects_get_Ok in H.
  assert (Hin : r ∈ filter (fun r => p r = true) table)
    by (rewrite H; apply list_elem_of_singleton; reflexivity).
  apply list_elem_of_filter in Hin. tauto.
Qed.

Lemma for_each_preserves {A : Type} (P : DB -> Prop)
    (body : DB -> A -> Result DB) (l : list A) :
  (forall db x db', P db -> body db x = Ok db' -> P db') ->
  forall db db', P db -> for_each body db l = Ok db' -> P db'.
Proof.
  intros Hbody. induction l as [|x l IH]; simpl; intros db db' HP H.
  - inversion H; subst; assumption.
  - bind_inv H as db1 H1. eauto.
Qed.

(** ** A locked chunk has no owner *)

Lemma save_row_Forall {A : Type} (P : A -> Prop) (pk : A -> Z) (r : A)
    (table : list A) :
  P r -> Forall P table -> Forall P (save_row pk r table).
Proof.
  intros Hr Ht. unfold save_row. apply Forall_map.
  eapply Forall_impl; [exact Ht|]. simpl. intros old Hold.
  destruct (pk old =? pk r); assumption.
Qed.

Lemma first_by_pk_elem {A : Type} (pk : A -> Z) (rows : list A) (r : A) :
  first_by_pk pk rows = Some r -> r ∈ rows.
Proof.
  revert r. induction rows as [|x rows IH]; simpl; intros r H; [discriminate|].
  destruct (first_by_pk pk rows) as [m|].
  - destruct (pk m <? pk x); inversion H; subst.
    + apply list_elem_of_further, IH; reflexivity.
    + apply list_elem_of_here.
  - inversion H; subst. apply list_elem_of_here.
Qed.

Lemma first_by_pk_None {A : Type} (pk : A -> Z) (rows : list A) :
  first_by_pk pk rows = None <-> rows = [].
Proof.
  destruct rows as [|x rows]; simpl; [tauto|].
  split; [|discriminate].
  destruct (first_by_pk pk rows) as [m|]; [destruct (pk m <? pk x)|];
    discriminate.
Qed.

Lemma create_item_chunks cid db p :
  db_chunks (create_item cid db p) = db_chunks db.
Proof. reflexivity. Qed.

Lemma create_items_chunks cid ps db :
  db_chunks (foldl (create_item cid) db ps) = db_chunks db.
Proof.
  revert db. induction ps as [|p ps IH]; simpl; intros db; [reflexivity|].
  rewrite IH. reflexivity.
Qed.

Lemma initiate_chunk_chunks sid chunk_size product_objs db i :
  db_chunks (initiate_chunk sid chunk_size product_objs db i)
  = db_chunks db ++ [ {| chunk_id := db_next_id db; chunk_stocktake_id := sid;
                         chunk_locked := false; chunk_owner_id := None |} ].
Proof.
  unfold initiate_chunk, create_chunk. simpl.
  rewrite create_items_chunks. reflexivity.
Qed.

Lemma initiate_chunks_created sid chunk_size product_objs starts db :
  exists new,
    db_chunks (foldl (initiate_chunk sid chunk_size product_objs) db starts)
    = db_chunks db ++ new
    /\ length new = length starts
    /\ Forall (fresh_chunk sid) new.
Proof.
  revert db. induction starts as [|i starts IH]; simpl; intros db.
  - exists []. rewrite app_nil_r. auto.
  - destruct (IH (initiate_chunk sid chunk_size product_objs db i))
      as (new & Heq & Hlen & Hnew).
    rewrite initiate_chunk_chunks, <- app_assoc in Heq. simpl in Heq.
    eexists. split; [exact Heq|]. split; [simpl; congruence|].
    constructor; [|assumption]. repeat split.
Qed.

Lemma create_product_transaction_chunks pid ty qty reference db t db' :
  create_product_transaction pid ty qty reference db = Ok (t, db') ->
  db_chunks db' = db_chunks db.
Proof.
  unfold create_product_transaction. intros H. bind_inv H as p Hp.
  inversion H; subst. reflexivity.
Qed.

Lemma correct_item_chunks db item db' :
  correct_item db item = Ok db' -> db_chunks db' = db_chunks db.
Proof.
  unfold correct_item. intros H. bind_inv H as p Hp. bind_inv H as r Hr.
  destruct r as [t db1]. inversion H; subst.
  eapply create_product_transaction_chunks; eassumption.
Qed.

Lemma correct_chunk_chunks db c db' :
  correct_chunk db c = Ok db' -> db_chunks db' = db_chunks db.
Proof.
  unfold correct_chunk. generalize (chunk_items db c). intros l.
  revert db. induction l as [|x l IH]; simpl; intros db H.
  - inversion H; reflexivity.
  - bind_inv H as db1 H1. rewrite (IH _ H).
    eapply correct_item_chunks; eassumption.
Qed.

Lemma for_each_chunks {A : Type} (body : DB -> A -> Result DB) (l : list A) :
  (forall db x db', body db x = Ok db' -> db_chunks db' = db_chunks db) ->
  forall db db', for_each body db l = Ok db' -> db_chunks db' = db_chunks db.
Proof.
  intros Hbody. induction l as [|x l IH]; simpl; intros db db' H.
  - inversion H; reflexivity.
  - bind_inv H as db1 H1. rewrite (IH _ _ H). eauto.
Qed.

Section ShopFacts.
Variable get_supplier_api : string -> SupplierAPI.
Variable sp_defaults : SupplierProduct.
Variable svr_coef : list Z -> list Z -> Q.

Lemma fetch_supplier_product_chunks sid sku db r db' :
  fetch_supplier_product get_supplier_api sp_defaults sid sku db = Ok (r, db') ->
  db_chunks db' = db_chunks db.
Proof.
  unfold fetch_supplier_product. intros H. bind_inv H as s Hs.
  destruct (retrieve_product _ sku).
  - unfold update_or_create in H.
    destruct (db_supplier_products db !! (sid, sku)); inversion H; reflexivity.
  - inversion H; reflexivity.
Qed.

Lemma get_supplier_product_chunks sid sku refresh db r db' :
  get_supplier_product get_supplier_api sp_defaults sid sku refresh db
    = Ok (r, db') ->
  db_chunks db' = db_chunks db.
Proof.
  unfold get_supplier_product.
  destruct refresh; [apply fetch_supplier_product_chunks|].
  destruct (db_supplier_products db !! (sid, sku)).
  - intros H; inversion H; reflexivity.
  - apply fetch_supplier_product_chunks.
Qed.

Lemma populate_item_chunks d s db item db' :
  populate_item get_supplier_api sp_defaults d s db item = Ok db' ->
  db_chunks db' = db_chunks db.
Proof.
  unfold populate_item. intros H. bind_inv H as a Hget. destruct a as [r db1].
  apply get_supplier_product_chunks in Hget.
  destruct r as [sp|].
  - destruct (sp_qty_multiplier sp =? 0); [discriminate|].
    inversion H; subst. simpl. assumption.
  - inversion H; subst. assumption.
Qed.

Lemma process_item_chunks db item db' :
  process_item db item = Ok db' -> db_chunks db' = db_chunks db.
Proof.
  unfold process_item. destruct (delivery_item_product db item); [|discriminate].
  intros H. bind_inv H as a Hget. destruct a as [t db1]. inversion H; subst.
  eapply create_product_transaction_chunks; eassumption.
Qed.

Lemma step_chunks_inv db db' :
  step get_supplier_api sp_defaults svr_coef db db' ->
  chunks_inv db -> chunks_inv db'.
Proof.
  unfold chunks_inv.
  intros Hstep Hinv. destruct Hstep as
    [ db t | db id qty | db s | db d | db category
    | db pid category db' H | db pid ty qty reference t db' H
    | db tid reference db' H | db tid reference db' H
    | db sid sku refresh r db' H | db did d db' H | db did db' H
    | db chunk_size s db' H | db sid s db' H | db cid db' H
    | db uid sid r db' H | db pid db' H ]; try assumption.
  - (* update_product *)
    unfold update_product in H. bind_inv H as p Hp. inversion H; subst. assumption.
  - (* create_product_transaction *)
    rewrite (create_product_transaction_chunks _ _ _ _ _ _ _ H). assumption.
  - (* finalize_product_transaction *)
    unfold finalize_product_transaction, change_product_transaction in H.
    bind_inv H as t Ht. bind_inv H as t' Ht'. inversion H; subst. assumption.
  - (* cancel_product_transaction *)
    unfold cancel_product_transaction, change_product_transaction in H.
    bind_inv H as t Ht. bind_inv H as t' Ht'. inversion H; subst. assumption.
  - (* get_supplier_product *)
    rewrite (get_supplier_product_chunks _ _ _ _ _ _ H). assumption.
  - (* populate_delivery *)
    unfold populate_delivery in H.
    bind_inv H as dl Hdl. bind_inv H as sup Hsup. bind_inv H as db1 Hdb1.
    inversion H; subst.
    rewrite (for_each_chunks _ _ (populate_item_chunks _ _) _ _ Hdb1).
    assumption.
  - (* process_delivery *)
    unfold process_delivery in H. bind_inv H as dl Hdl.
    destruct (negb (delivery_valid db dl)); [discriminate|].
    bind_inv H as db1 Hdb1. inversion H; subst. simpl.
    rewrite (for_each_chunks _ _ process_item_chunks _ _ Hdb1).
    assumption.
  - (* initiate_stocktaking: new chunks are unlocked *)
    unfold initiate_stocktaking in H.
    destruct (negb _); [discriminate|]. simpl in H.
    bind_inv H as starts Hstarts. inversion H; subst.
    match goal with
    | |- Forall _ (db_chunks (foldl (initiate_chunk ?sid ?cs ?ps) ?d ?st)) =>
        destruct (initiate_chunks_created sid cs ps st d)
          as (new & Heq & _ & Hnew)
    end.
    rewrite Heq. simpl. apply Forall_app. split; [assumption|].
    eapply Forall_impl; [exact Hnew|].
    intros c (_ & Hl & _) Hlocked. congruence.
  - (* finalize_stocktaking *)
    unfold finalize_stocktaking in H. bind_inv H as st Hst.
    destruct (stocktake_locked st); [discriminate|].
    destruct (negb _); [discriminate|].
    bind_inv H as db1 Hdb1. inversion H; subst. simpl.
    rewrite (for_each_chunks _ _ correct_chunk_chunks _ _ Hdb1).
    assumption.
  - (* finalize_stocktake_chunk: locking clears the owner *)
    unfold finalize_stocktake_chunk in H. bind_inv H as ch Hch.
    destruct (chunk_locked ch); [discriminate|].
    inversion H; subst. simpl.
    apply save_row_Forall; [|assumption]. intros _. reflexivity.
  - (* assign_free_stocktake_chunk: only an unlocked chunk gets an owner *)
    unfold assign_free_stocktake_chunk in H.
    destruct (objects_get _ _ _) as [c|e].
    + inversion H; subst. assumption.
    + destruct e; try discriminate.
      destruct (first_by_pk _ _) as [c|] eqn:Hfirst.
      * inversion H; subst. simpl.
        apply save_row_Forall; [|assumption].
        apply first_by_pk_elem, list_elem_of_filter in Hfirst.
        destruct Hfirst as [Hfree _]. unfold free_in in Hfree.
        apply andb_prop in Hfree as [Hfree _].
        apply andb_prop in Hfree as [_ Hunlocked].
        unfold chunk_inv. simpl. intros Hlocked.
        rewrite Hlocked in Hunlocked. discriminate.
      * inversion H; subst. assumption.
  - (* update_out_of_stock_forecast *)
    unfold update_out_of_stock_forecast in H.
    bind_inv H as p Hp. bind_inv H as f Hf.
    inversion H; subst. assumption.
Qed.

(** C9. Every operation preserves that a locked chunk has no owner:
    chunks are created unlocked and unowned, assignment gives an owner to
    an unlocked chunk only, and locking a chunk clears its owner; so in
    every database reachable from the empty one, a locked chunk has no
    owner. *)
Theorem locked_chunk_has_no_owner :
  (forall db db',
      step get_supplier_api sp_defaults svr_coef db db' ->
      chunks_inv db -> chunks_inv db')
  /\ (forall db c,
         reachable get_supplier_api sp_defaults svr_coef db ->
         c ∈ db_chunks db -> chunk_locked c = true ->
         chunk_owner_id c = None).
Proof.
  split; [exact step_chunks_inv|].
  intros db c Hreach.
  assert (Hinv : chunks_inv db).
  { unfold reachable in Hreach. revert db Hreach.
    apply (rtc_ind_r chunks_inv).
    - constructor.
    - intros db1 db2 _ Hs IH. eapply step_chunks_inv; eassumption. }
  intros Hin. unfold chunks_inv in Hinv.
  rewrite Forall_forall in Hinv. apply Hinv. assumption.
Qed.
End ShopFacts.

(** ** Chunk assignment *)

Lemma filter_none {A : Type} (p : A -> bool) (l : list A) :
  (forall x, x ∈ l -> p x = false) -> filter (fun x => p x = true) l = [].
Proof.
  induction l as [|x l IH]; intros H; [reflexivity|].
  rewrite filter_cons_False.
  - apply IH. intros y Hy. apply H. apply list_elem_of_further; assumption.
  - rewrite (H x (list_elem_of_here x l)). discriminate.
Qed.

Lemma filter_nil_none {A : Type} (p : A -> bool) (l : list A) :
  filter (fun x => p x = true) l = [] -> forall x, x ∈ l -> p x = false.
Proof.
  intros H x Hx. destruct (p x) eqn:Hp; [|reflexivity].
  exfalso. eapply filter_nil_not_elem_of; [exact H| |exact Hx]. exact Hp.
Qed.

Lemma save_row_absent {A : Type} (pk : A -> Z) (r : A) (l : list A) :
  pk r ∉ map pk l -> save_row pk r l = l.
Proof.
  induction l as [|x l IH]; simpl; intros H; [reflexivity|].
  rewrite not_elem_of_cons in H. destruct H as [Hne Hl].
  destruct (Z.eqb_spec (pk x) (pk r)) as [Heq|_]; [congruence|].
  f_equal. apply IH. assumption.
Qed.

(** Saving a row that newly satisfies a filter no other row satisfies
    leaves it as the only match. *)
Lemma filter_save_row_unique {A : Type} (pk : A -> Z) (p : A -> bool)
    (r r0 : A) (l : list A) :
  NoDup (map pk l) -> r0 ∈ l -> pk r = pk r0 ->
  (forall x, x ∈ l -> p x = false) -> p r = true ->
  filter (fun x => p x = true) (save_row pk r l) = [r].
Proof.
  intros Hnd Hin Hpk Hnone Hr.
  induction l as [|x l IH]; [inversion Hin|].
  simpl in Hnd. apply NoDup_cons in Hnd as [Hx Hnd].
  simpl. destruct (Z.eqb_spec (pk x) (pk r)) as [Heq|Hne].
  - rewrite filter_cons_True by exact Hr.
    fold (save_row pk r l). rewrite save_row_absent by congruence.
    rewrite filter_none; [reflexivity|].
    intros y Hy. apply Hnone. apply list_elem_of_further; assumption.
  - rewrite filter_cons_False
      by (rewrite (Hnone x (list_elem_of_here x l)); discriminate).
    apply IH; [assumption| |].
    + apply elem_of_cons in Hin as [->|Hin]; [congruence|assumption].
    + intros y Hy. apply Hnone. apply list_elem_of_further; assumption.
Qed.

(** C7. Assignment is idempotent per user: when a call returns a chunk, the
    same call repeated at once returns that chunk again and changes nothing;
    and when the user owns no chunk of the stocktake and no chunk of it is
    unlocked and unowned, the call returns None. *)
Theorem assign_free_stocktake_chunk_idempotent (uid sid : Z) (db : DB) :
  (forall c db1,
      NoDup (map chunk_id (db_chunks db)) ->
      assign_free_stocktake_chunk uid sid db = Ok (Some c, db1) ->
      assign_free_stocktake_chunk uid sid db1 = Ok (Some c, db1))
  /\ ((forall c, c ∈ db_chunks db ->
                 owned_by sid uid c = false /\ free_in sid c = false) ->
      assign_free_stocktake_chunk uid sid db = Ok (None, db)).
Proof.
  split.
  - intros c db1 Hnd H. unfold assign_free_stocktake_chunk in H.
    destruct (objects_get "StocktakeChunk" (owned_by sid uid) (db_chunks db))
      as [c0|e] eqn:Hget.
    + inversion H; subst. unfold assign_free_stocktake_chunk.
      rewrite Hget. reflexivity.
    + destruct e; try discriminate.
      destruct (first_by_pk chunk_id _) as [c0|] eqn:Hfirst; [|discriminate].
      inversion H; subst. clear H.
      apply first_by_pk_elem, list_elem_of_filter in Hfirst.
      destruct Hfirst as [Hfree Hin].
      assert (Hnone : forall x, x ∈ db_chunks db -> owned_by sid uid x = false).
      { apply filter_nil_none. unfold objects_get in Hget.
        destruct (filter _ (db_chunks db)) as [|r1 [|r2 rest]];
          [reflexivity|discriminate|discriminate]. }
      unfold assign_free_stocktake_chunk. simpl. unfold objects_get.
      erewrite filter_save_row_unique; [reflexivity|exact Hnd|exact Hin| | |].
      * reflexivity.
      * exact Hnone.
      * unfold owned_by. simpl. unfold free_in in Hfree.
        apply andb_prop in Hfree as [Hfree _].
        apply andb_prop in Hfree as [Hsid _].
        rewrite Hsid. simpl. apply bool_decide_eq_true. reflexivity.
  - intros Hnone. unfold assign_free_stocktake_chunk, objects_get.
    rewrite filter_none by (intros x Hx; apply Hnone; assumption).
    rewrite filter_none by (intros x Hx; apply Hnone; assumption).
    reflexivity.
Qed.

(** ** Initiating a stock-taking *)

Lemma add_stocktake_rows_nil db :
  add_stocktake_rows [] [] (db_next_id db) db = db.
Proof.
  destruct db. unfold add_stocktake_rows. simpl. rewrite !app_nil_r. reflexivity.
Qed.

Lemma add_stocktake_rows_twice c1 i1 n1 c2 i2 n2 db :
  add_stocktake_rows c2 i2 n2 (add_stocktake_rows c1 i1 n1 db)
  = add_stocktake_rows (c1 ++ c2) (i1 ++ i2) n2 db.
Proof. unfold add_stocktake_rows. simpl. rewrite !app_assoc. reflexivity. Qed.

Lemma create_items_rows cid group db :
  foldl (create_item cid) db group
  = add_stocktake_rows [] (items_for cid (db_next_id db) group)
      (db_next_id db + Z.of_nat (length group)) db.
Proof.
  revert db. induction group as [|p group IH]; intros db.
  - simpl. rewrite Z.add_0_r. symmetry. apply add_stocktake_rows_nil.
  - cbn [foldl]. rewrite IH. unfold create_item, fresh_id, set_items.
    unfold add_stocktake_rows. cbn [db_products db_transactions db_suppliers
      db_supplier_products db_deliveries db_delivery_items db_stocktakes
      db_chunks db_items db_next_id db_now items_for length].
    rewrite <- !app_assoc. cbn [app].
    replace (db_next_id db + 1 + Z.of_nat (length group))
      with (db_next_id db + Z.of_nat (S (length group)))
      by (rewrite Nat2Z.inj_succ; unfold Z.succ; ring).
    reflexivity.
Qed.

Lemma initiate_chunk_rows sid chunk_size product_objs db i :
  let g := py_slice product_objs i (i + chunk_size) in
  initiate_chunk sid chunk_size product_objs db i
  = add_stocktake_rows (built_chunks sid (db_next_id db) [g])
      (built_items (db_next_id db) [g]) (next_after (db_next_id db) [g]) db.
Proof.
  intros g. unfold initiate_chunk, create_chunk, fresh_id.
  cbn [chunk_id]. fold g. rewrite create_items_rows.
  unfold add_stocktake_rows, set_chunks, group_span.
  cbn [db_products db_transactions db_suppliers
      db_supplier_products db_deliveries db_delivery_items db_stocktakes
      db_chunks db_items db_next_id db_now built_chunks built_items next_after].
  rewrite !app_nil_r. unfold group_span. rewrite Z.add_assoc. reflexivity.
Qed.

Lemma initiate_loop_rows sid chunk_size product_objs starts db :
  let groups :=
    map (fun i => py_slice product_objs i (i + chunk_size)) starts in
  foldl (initiate_chunk sid chunk_size product_objs) db starts
  = add_stocktake_rows (built_chunks sid (db_next_id db) groups)
      (built_items (db_next_id db) groups) (next_after (db_next_id db) groups) db.
Proof.
  revert db. induction starts as [|i starts IH]; intros db groups.
  - simpl. symmetry. apply add_stocktake_rows_nil.
  - cbn [foldl]. rewrite IH. rewrite initiate_chunk_rows.
    rewrite add_stocktake_rows_twice. subst groups.
    cbn [map built_chunks built_items next_after db_next_id add_stocktake_rows].
    rewrite app_nil_r. reflexivity.
Qed.

(** *** Sorting by a key *)

Section SortedByKeyFacts.
Context {A K : Type}.
Variable ltb : K -> K -> bool.
Variable key : A -> K.

Hypothesis ltb_asym : forall a b, ltb a b = true -> ltb b a = false.
Hypothesis key_le_trans :
  forall a b c,
    key_le ltb key a b -> key_le ltb key b c -> key_le ltb key a c.

Lemma insert_by_key_perm x l : insert_by_key ltb key x l ≡ₚ x :: l.
Proof.
  induction l as [|y l IH]; simpl; [reflexivity|].
  destruct (ltb (key y) (key x)); [|reflexivity].
  rewrite IH. apply perm_swap.
Qed.

Lemma sorted_by_key_perm l : sorted_by_key ltb key l ≡ₚ l.
Proof.
  induction l as [|x l IH]; simpl; [reflexivity|].
  rewrite insert_by_key_perm. rewrite IH. reflexivity.
Qed.

Lemma insert_by_key_sorted x l :
  StronglySorted (key_le ltb key) l ->
  StronglySorted (key_le ltb key) (insert_by_key ltb key x l).
Proof.
  induction 1 as [|y l Hl IH Hy]; simpl.
  - repeat constructor.
  - destruct (ltb (key y) (key x)) eqn:Hlt.
    + constructor; [exact IH|].
      rewrite Forall_forall. intros z Hz.
      rewrite insert_by_key_perm in Hz.
      apply elem_of_cons in Hz as [->|Hz].
      * unfold key_le in *. apply ltb_asym. exact Hlt.
      * rewrite Forall_forall in Hy. apply Hy. exact Hz.
    + constructor; [constructor; assumption|].
      constructor; [exact Hlt|].
      eapply Forall_impl; [exact Hy|]. simpl. intros z Hz.
      eapply key_le_trans; [exact Hlt|exact Hz].
Qed.

Lemma sorted_by_key_sorted l :
  StronglySorted (key_le ltb key) (sorted_by_key ltb key l).
Proof.
  induction l as [|x l IH]; simpl; [constructor|].
  apply insert_by_key_sorted. exact IH.
Qed.
End SortedByKeyFacts.

Lemma StronglySorted_weaken {A : Type} (R S : A -> A -> Prop) (l : list A) :
  (forall a b, R a b -> S a b) -> StronglySorted R l -> StronglySorted S l.
Proof.
  intros HRS. induction 1 as [|x l Hl IH Hx]; constructor; [exact IH|].
  eapply Forall_impl; [exact Hx|]. simpl. intros y. apply HRS.
Qed.

Lemma order_by_category_perm ps : order_by_category ps ≡ₚ ps.
Proof. apply sorted_by_key_perm. Qed.

Lemma order_by_category_sorted ps :
  StronglySorted (fun p q => product_category p <= product_category q)
                 (order_by_category ps).
Proof.
  eapply StronglySorted_weaken;
    [|apply (sorted_by_key_sorted Z.ltb product_category)].
  - unfold key_le in *. intros p q H. apply Z.ltb_ge. exact H.
  - intros a b H. apply Z.ltb_ge. apply Z.ltb_lt in H. lia.
  - unfold key_le in *. intros a b c H1 H2.
    apply Z.ltb_ge in H1, H2. apply Z.ltb_ge. lia.
Qed.

(** *** The rows created *)

Lemma built_chunks_length sid next groups :
  length (built_chunks sid next groups) = length groups.
Proof.
  revert next. induction groups as [|g groups IH]; simpl; intros next;
    [reflexivity|]. rewrite IH. reflexivity.
Qed.

Lemma built_chunks_fresh sid next groups :
  Forall (fresh_chunk sid) (built_chunks sid next groups).
Proof.
  revert next. induction groups as [|g groups IH]; simpl; intros next;
    constructor; [repeat split|apply IH].
Qed.

Lemma group_span_pos g : 0 < group_span g.
Proof. unfold group_span. lia. Qed.

Lemma built_chunks_ge sid next groups c :
  c ∈ built_chunks sid next groups -> next <= chunk_id c.
Proof.
  revert next. induction groups as [|g groups IH]; simpl; intros next Hc.
  - inversion Hc.
  - apply elem_of_cons in Hc as [->|Hc]; [simpl; lia|].
    apply IH in Hc. pose proof (group_span_pos g). lia.
Qed.

Lemma built_chunks_NoDup sid next groups :
  NoDup (map chunk_id (built_chunks sid next groups)).
Proof.
  revert next. induction groups as [|g groups IH]; simpl; intros next.
  - constructor.
  - apply NoDup_cons. split; [|apply IH].
    intros Hin. apply list_elem_of_fmap in Hin as (c & Hid & Hc).
    apply built_chunks_ge in Hc. pose proof (group_span_pos g). lia.
Qed.

Lemma items_for_chunk cid next g it :
  it ∈ items_for cid next g -> item_chunk_id it = cid.
Proof.
  revert next. induction g as [|p g IH]; simpl; intros next Hit.
  - inversion Hit.
  - apply elem_of_cons in Hit as [->|Hit]; [reflexivity|eauto].
Qed.

Lemma items_for_products cid next g :
  map item_product_id (items_for cid next g) = map product_id g.
Proof.
  revert next. induction g as [|p g IH]; simpl; intros next; [reflexivity|].
  rewrite IH. reflexivity.
Qed.

Lemma built_items_ge next groups it :
  it ∈ built_items next groups -> next <= item_chunk_id it.
Proof.
  revert next. induction groups as [|g groups IH]; simpl; intros next Hit.
  - inversion Hit.
  - apply elem_of_app in Hit as [Hit|Hit].
    + apply items_for_chunk in Hit. lia.
    + apply IH in Hit. pose proof (group_span_pos g). lia.
Qed.

Lemma built_items_products next groups :
  map item_product_id (built_items next groups)
  = map product_id (concat groups).
Proof.
  revert next. induction groups as [|g groups IH]; simpl; intros next;
    [reflexivity|].
  rewrite !map_app, items_for_products, IH. reflexivity.
Qed.

Lemma items_of_chunk_all c items :
  (forall it, it ∈ items -> item_chunk_id it = chunk_id c) ->
  items_of_chunk c items = items.
Proof.
  unfold items_of_chunk. induction items as [|it items IH]; intros H;
    [reflexivity|].
  rewrite filter_cons_True.
  - f_equal. apply IH. intros it' Hit'. apply H.
    apply list_elem_of_further; assumption.
  - apply Z.eqb_eq. apply H. apply list_elem_of_here.
Qed.

Lemma items_of_chunk_none c items :
  (forall it, it ∈ items -> item_chunk_id it <> chunk_id c) ->
  items_of_chunk c items = [].
Proof.
  intros H. unfold items_of_chunk.
  apply (filter_none (fun it => item_chunk_id it =? chunk_id c)).
  intros it Hit. apply Z.eqb_neq. apply H. exact Hit.
Qed.

(** The items of the [k]-th chunk created are those of the [k]-th group. *)
Lemma built_items_of_chunk sid next groups k c g :
  built_chunks sid next groups !! k = Some c ->
  groups !! k = Some g ->
  items_of_chunk c (built_items next groups)
  = items_for (chunk_id c) (chunk_id c + 1) g.
Proof.
  revert next k. induction groups as [|g0 groups IH]; intros next k Hc Hg.
  - inversion Hg.
  - destruct k as [|k]; simpl in Hc, Hg.
    + inversion Hc; inversion Hg; subst. clear Hc Hg. simpl.
      unfold items_of_chunk. rewrite filter_app.
      fold (items_of_chunk
              {| chunk_id := next; chunk_stocktake_id := sid;
                 chunk_locked := false; chunk_owner_id := None |}
              (items_for next (next + 1) g)).
      fold (items_of_chunk
              {| chunk_id := next; chunk_stocktake_id := sid;
                 chunk_locked := false; chunk_owner_id := None |}
              (built_items (next + group_span g) groups)).
      rewrite items_of_chunk_all
        by (intros it Hit; apply items_for_chunk in Hit; exact Hit).
      rewrite items_of_chunk_none; [apply app_nil_r|].
      intros it Hit. apply built_items_ge in Hit.
      pose proof (group_span_pos g). simpl. lia.
    + simpl. unfold items_of_chunk. rewrite filter_app.
      fold (items_of_chunk c (items_for next (next + 1) g0)).
      fold (items_of_chunk c (built_items (next + group_span g0) groups)).
      rewrite items_of_chunk_none.
      * simpl. eapply IH; eassumption.
      * intros it Hit. apply items_for_chunk in Hit.
        apply list_elem_of_lookup_2 in Hc. apply built_chunks_ge in Hc.
        pose proof (group_span_pos g0). lia.
Qed.

(** *** Ranges, slices and the ceiling *)

(** [ceil_div a b] is the least integer whose multiple of [b] reaches [a]. *)
Lemma ceil_div_spec a b :
  0 < b -> (ceil_div a b - 1) * b < a <= ceil_div a b * b.
Proof.
  intros Hb. unfold ceil_div.
  pose proof (Z.div_mod (- a) b ltac:(lia)) as Hdm.
  pose proof (Z.mod_pos_bound (- a) b Hb) as Hm.
  nia.
Qed.

Lemma ceil_div_step a b : 0 < b -> ceil_div a b = 1 + ceil_div (a - b) b.
Proof.
  intros Hb. unfold ceil_div.
  replace (- (a - b)) with (- a + 1 * b) by ring.
  rewrite Z.div_add by lia. ring.
Qed.

Lemma ceil_div_nonpos a b : 0 < b -> a <= 0 -> ceil_div a b <= 0.
Proof.
  intros Hb Ha. unfold ceil_div.
  assert (0 <= (- a) / b) by (apply Z.div_pos; lia). lia.
Qed.

Lemma ceil_div_pos a b : 0 < b -> 0 < a -> 1 <= ceil_div a b.
Proof.
  intros Hb Ha. pose proof (ceil_div_spec a b Hb). nia.
Qed.

Lemma range_up_length fuel i stop step :
  0 < step -> stop - i <= Z.of_nat fuel ->
  Z.of_nat (length (range_up fuel i stop step))
  = Z.max 0 (ceil_div (stop - i) step).
Proof.
  intros Hstep. revert i. induction fuel as [|fuel IH]; intros i Hfuel.
  - simpl. pose proof (ceil_div_nonpos (stop - i) step Hstep). lia.
  - simpl. destruct (Z.ltb_spec i stop) as [Hlt|Hge].
    + cbn [length]. rewrite Nat2Z.inj_succ, IH by lia.
      rewrite (ceil_div_step (stop - i) step Hstep).
      replace (stop - (i + step)) with (stop - i - step) by ring.
      pose proof (ceil_div_pos (stop - i) step Hstep ltac:(lia)) as Hpos.
      rewrite (ceil_div_step (stop - i) step Hstep) in Hpos. lia.
    + simpl. pose proof (ceil_div_nonpos (stop - i) step Hstep). lia.
Qed.

Lemma range_up_lookup fuel i stop step k j :
  range_up fuel i stop step !! k = Some j ->
  j = i + Z.of_nat k * step /\ j < stop.
Proof.
  revert i k. induction fuel as [|fuel IH]; intros i k H; [inversion H|].
  simpl in H. destruct (Z.ltb_spec i stop) as [Hlt|Hge]; [|inversion H].
  destruct k as [|k]; simpl in H.
  - inversion H; subst. lia.
  - apply IH in H. lia.
Qed.

Lemma py_slice_take_drop {A : Type} (l : list A) (i size : Z) :
  0 <= i -> 0 <= size ->
  py_slice l i (i + size) = take (Z.to_nat size) (drop (Z.to_nat i) l).
Proof.
  intros Hi Hs. unfold py_slice. f_equal. f_equal. lia.
Qed.

Lemma slices_concat {A : Type} (l : list A) (size : Z) fuel i :
  0 < size -> 0 <= i -> Z.of_nat (length l) - i <= Z.of_nat fuel ->
  concat (map (fun j => py_slice l j (j + size))
              (range_up fuel i (Z.of_nat (length l)) size))
  = drop (Z.to_nat i) l.
Proof.
  intros Hsize. revert i. induction fuel as [|fuel IH]; intros i Hi Hfuel.
  - simpl. symmetry. apply drop_ge. lia.
  - simpl. destruct (Z.ltb_spec i (Z.of_nat (length l))) as [Hlt|Hge].
    + cbn [map concat]. rewrite IH by lia.
      rewrite py_slice_take_drop by lia.
      replace (Z.to_nat (i + size)) with (Z.to_nat i + Z.to_nat size)%nat by lia.
      rewrite <- drop_drop. apply take_drop.
    + simpl. symmetry. apply drop_ge. lia.
Qed.

Lemma unlocked_stocktakes_nil (stocktakes : list Stocktake) :
  filter (fun s => stocktake_locked s = false) stocktakes = []
  <-> forall s, s ∈ stocktakes -> stocktake_locked s = true.
Proof.
  split.
  - intros H s Hs. destruct (stocktake_locked s) eqn:Hl; [reflexivity|].
    exfalso. eapply filter_nil_not_elem_of; [exact H| |exact Hs]. exact Hl.
  - intros H. induction stocktakes as [|s l IH]; [reflexivity|].
    rewrite filter_cons_False.
    + apply IH. intros s' Hs'. apply H. apply list_elem_of_further; assumption.
    + rewrite (H s (list_elem_of_here s l)). discriminate.
Qed.

(** C6. With a positive chunk size, [initiate_stocktaking] fails with the
    business error exactly when an unlocked stocktake exists.  Otherwise it
    succeeds: it appends ceil(num_products / chunk_size) fresh chunks of the
    new stocktake and one item per product, the products taken in category
    order, the [k]-th chunk holding the [k]-th run of [chunk_size] products,
    so that every chunk before the last holds exactly [chunk_size] items. *)
Theorem initiate_stocktaking_chunks (chunk_size : Z) (db : DB) :
  0 < chunk_size ->
  let product_objs := order_by_category (db_products db) in
  (initiate_stocktaking chunk_size db
   = Raise (APIException "Stock-taking already in progress.")
   <-> exists s, s ∈ db_stocktakes db /\ stocktake_locked s = false)
  /\ ((forall s, s ∈ db_stocktakes db -> stocktake_locked s = true) ->
      exists st db' new_chunks new_items,
        initiate_stocktaking chunk_size db = Ok (st, db')
        /\ db_stocktakes db' = db_stocktakes db ++ [st]
        /\ db_chunks db' = db_chunks db ++ new_chunks
        /\ db_items db' = db_items db ++ new_items
        /\ Z.of_nat (length new_chunks)
           = ceil_div (Z.of_nat (length (db_products db))) chunk_size
        /\ Forall (fresh_chunk (stocktake_id st)) new_chunks
        /\ NoDup (map chunk_id new_chunks)
        /\ product_objs ≡ₚ db_products db
        /\ StronglySorted
             (fun p q => product_category p <= product_category q) product_objs
        /\ map item_product_id new_items = map product_id product_objs
        /\ (forall k c,
               new_chunks !! k = Some c ->
               map item_product_id (items_of_chunk c new_items)
               = map product_id
                   (take (Z.to_nat chunk_size)
                         (drop (k * Z.to_nat chunk_size) product_objs))
               /\ (S k < length new_chunks ->
                   length (items_of_chunk c new_items)
                   = Z.to_nat chunk_size)%nat)).
Proof.
  intros Hsize product_objs.
  assert (Hrange : py_range 0 (Z.of_nat (length product_objs)) chunk_size
                   = Ok (range_up (length product_objs) 0
                                  (Z.of_nat (length product_objs)) chunk_size)).
  { unfold py_range. destruct (Z.eqb_spec chunk_size 0); [lia|].
    destruct (Z.ltb_spec 0 chunk_size); [|lia].
    rewrite Z.sub_0_r, Nat2Z.id. reflexivity. }
  split.
  - unfold initiate_stocktaking. split.
    + intros H.
      destruct (filter _ (db_stocktakes db)) as [|s l] eqn:Hf.
      * simpl in H. fold product_objs in H. rewrite Hrange in H. discriminate.
      * exists s.
        assert (Hs : s ∈ filter (fun s => stocktake_locked s = false)
                                (db_stocktakes db))
          by (rewrite Hf; apply list_elem_of_here).
        apply list_elem_of_filter in Hs. tauto.
    + intros (s & Hs & Hl).
      destruct (filter _ (db_stocktakes db)) as [|s' l] eqn:Hf.
      * exfalso. eapply filter_nil_not_elem_of; [exact Hf| |exact Hs]. exact Hl.
      * reflexivity.
  - intros Hlocked. apply unlocked_stocktakes_nil in Hlocked.
    unfold initiate_stocktaking. rewrite Hlocked. simpl negb. cbv iota.
    cbn [fresh_id set_stocktakes db_products].
    fold product_objs. rewrite Hrange. cbn [bind].
    rewrite initiate_loop_rows. cbn [db_next_id].
    set (starts := range_up (length product_objs) 0
                            (Z.of_nat (length product_objs)) chunk_size).
    set (groups := map (fun i => py_slice product_objs i (i + chunk_size)) starts).
    set (sid := db_next_id db).
    assert (Hlen : length product_objs = length (db_products db))
      by (apply Permutation_length, order_by_category_perm).
    do 2 eexists.
    exists (built_chunks sid (sid + 1) groups), (built_items (sid + 1) groups).
    split; [reflexivity|].
    split; [reflexivity|]. split; [reflexivity|]. split; [reflexivity|].
    split.
    { rewrite built_chunks_length. subst groups. rewrite length_map.
      subst starts. rewrite range_up_length by lia.
      rewrite Z.sub_0_r, Hlen.
      destruct (length (db_products db)) as [|m] eqn:Hm.
      - change (Z.of_nat 0) with 0. unfold ceil_div. simpl.
        rewrite Zdiv_0_l. reflexivity.
      - pose proof (ceil_div_pos (Z.of_nat (S m)) chunk_size Hsize ltac:(lia)).
        lia. }
    split; [apply built_chunks_fresh|].
    split; [apply built_chunks_NoDup|].
    split; [apply order_by_category_perm|].
    split; [apply order_by_category_sorted|].
    split.
    { rewrite built_items_products. subst groups starts.
      rewrite slices_concat by lia. reflexivity. }
    intros k c Hc.
    assert (Hk : (k < length starts)%nat).
    { apply lookup_lt_Some in Hc. rewrite built_chunks_length in Hc.
      subst groups. rewrite length_map in Hc. exact Hc. }
    destruct (lookup_lt_is_Some_2 starts k Hk) as [j Hj].
    assert (Hg : groups !! k = Some (py_slice product_objs j (j + chunk_size))).
    { subst groups. rewrite list_lookup_fmap, Hj. reflexivity. }
    rewrite (built_items_of_chunk _ _ _ _ _ _ Hc Hg).
    pose proof Hj as Hj'. apply range_up_lookup in Hj' as [Hjk Hjn].
    assert (Hslice : py_slice product_objs j (j + chunk_size)
                     = take (Z.to_nat chunk_size)
                            (drop (k * Z.to_nat chunk_size) product_objs)).
    { rewrite py_slice_take_drop by lia. f_equal. f_equal. nia. }
    rewrite Hslice. split; [apply items_for_products|].
    intros HSk.
    rewrite built_chunks_length in HSk. subst groups.
    rewrite length_map in HSk.
    destruct (lookup_lt_is_Some_2 starts (S k) HSk) as [j' Hj'].
    apply range_up_lookup in Hj' as [Hj'k Hj'n].
    rewrite <- (length_map item_product_id), items_for_products, length_map.
    rewrite length_take, length_drop. nia.
Qed.

(** ** Finalizing a stock-taking *)

Lemma finalized_app ts1 ts2 :
  finalized (ts1 ++ ts2) = finalized ts1 ++ finalized ts2.
Proof. unfold finalized. apply filter_app. Qed.

Lemma finalized_pending ts :
  Forall (fun t => trx_status t = PENDING) ts -> finalized ts = [].
Proof.
  intros H. unfold finalized.
  apply (filter_none (fun t => TrxStatus_eqb (trx_status t) FINALIZED)).
  intros t Ht. rewrite Forall_forall in H. rewrite (H t Ht). reflexivity.
Qed.

Lemma ledger_grows_qty db db' ts pid :
  ledger_grows db db' ts -> product_qty db' pid = product_qty db pid.
Proof.
  intros (Ht & _ & _ & _ & _ & Hp). unfold product_qty.
  rewrite Ht, finalized_app, (finalized_pending ts Hp), app_nil_r. reflexivity.
Qed.

Lemma ledger_grows_refl db : ledger_grows db db [].
Proof.
  unfold ledger_grows. rewrite app_nil_r. repeat split; constructor.
Qed.

Lemma ledger_grows_trans db1 db2 db3 ts1 ts2 :
  ledger_grows db1 db2 ts1 -> ledger_grows db2 db3 ts2 ->
  ledger_grows db1 db3 (ts1 ++ ts2).
Proof.
  intros (Ht1 & Hp1 & Hi1 & Hc1 & Hs1 & Hf1) (Ht2 & Hp2 & Hi2 & Hc2 & Hs2 & Hf2).
  unfold ledger_grows. rewrite Ht2, Ht1, <- app_assoc.
  repeat split; try congruence. apply Forall_app; split; assumption.
Qed.

Lemma get_product_row_id pid db p :
  get_product_row pid db = Ok p -> product_id p = pid.
Proof.
  intros H. apply objects_get_elem in H as [_ H]. apply Z.eqb_eq. exact H.
Qed.

Lemma items_have_products_elem db it :
  items_have_products db = true -> it ∈ db_items db ->
  exists p, get_product_row (item_product_id it) db = Ok p.
Proof.
  unfold items_have_products. rewrite forallb_forall. intros H Hit.
  apply list_elem_of_In in Hit. specialize (H it Hit).
  destruct (get_product_row (item_product_id it) db) as [p|e];
    [eauto|discriminate].
Qed.

(** One correction: the body of the inner loop. *)
Lemma correct_item_spec db it p :
  get_product_row (item_product_id it) db = Ok p ->
  exists db' t,
    correct_item db it = Ok db'
    /\ ledger_grows db db' [t]
    /\ correction_for db it t.
Proof.
  intros Hp. pose proof (get_product_row_id _ _ _ Hp) as Hid.
  unfold correct_item. rewrite Hp. cbn [bind].
  unfold create_product_transaction. rewrite Hid, Hp. cbn [bind].
  rewrite Hid. cbn [fresh_id bind]. do 2 eexists.
  split; [reflexivity|]. split.
  - unfold ledger_grows. cbn. repeat split. repeat constructor.
  - unfold correction_for. cbn. repeat split.
Qed.

Lemma correction_for_qty db0 db it t :
  (forall pid, product_qty db pid = product_qty db0 pid) ->
  correction_for db it t -> correction_for db0 it t.
Proof.
  intros Hq (H1 & H2 & H3 & H4). unfold correction_for.
  rewrite <- Hq. repeat split; assumption.
Qed.

Lemma get_product_row_grows db db' ts pid :
  ledger_grows db db' ts -> get_product_row pid db' = get_product_row pid db.
Proof.
  intros (_ & Hp & _). unfold get_product_row. rewrite Hp. reflexivity.
Qed.

Lemma correct_items_spec db0 items :
  (forall it, it ∈ items ->
              exists p, get_product_row (item_product_id it) db0 = Ok p) ->
  forall db ts0, ledger_grows db0 db ts0 ->
  exists db' ts,
    for_each correct_item db items = Ok db'
    /\ ledger_grows db db' ts
    /\ Forall2 (correction_for db0) items ts.
Proof.
  induction items as [|it items IH]; intros Hprod db ts0 Hgrow.
  - exists db, []. split; [reflexivity|].
    split; [apply ledger_grows_refl|constructor].
  - destruct (Hprod it (list_elem_of_here it items)) as [p Hp].
    rewrite <- (get_product_row_grows _ _ _ _ Hgrow) in Hp.
    destruct (correct_item_spec db it p Hp) as (db1 & t & Hrun & Hg1 & Hc).
    destruct (IH (fun it' Hit' => Hprod it' (list_elem_of_further _ _ _ Hit'))
                 db1 (ts0 ++ [t]) (ledger_grows_trans _ _ _ _ _ Hgrow Hg1))
      as (db' & ts & Hrun' & Hg' & Hcs).
    exists db', ([t] ++ ts). cbn [for_each]. rewrite Hrun. cbn [bind].
    split; [exact Hrun'|]. split.
    + eapply ledger_grows_trans; eassumption.
    + constructor; [|exact Hcs].
      eapply correction_for_qty; [|exact Hc].
      intros pid. eapply ledger_grows_qty; eassumption.
Qed.

Lemma correct_chunks_spec db0 chunks :
  (forall it, it ∈ db_items db0 ->
              exists p, get_product_row (item_product_id it) db0 = Ok p) ->
  forall db ts0, ledger_grows db0 db ts0 ->
  exists db' ts,
    for_each correct_chunk db chunks = Ok db'
    /\ ledger_grows db db' ts
    /\ Forall2 (correction_for db0) (concat (map (chunk_items db0) chunks)) ts.
Proof.
  induction chunks as [|c chunks IH]; intros Hprod db ts0 Hgrow.
  - exists db, []. split; [reflexivity|].
    split; [apply ledger_grows_refl|constructor].
  - assert (Hitems : chunk_items db c = chunk_items db0 c).
    { unfold chunk_items. destruct Hgrow as (_ & _ & Hi & _). rewrite Hi.
      reflexivity. }
    destruct (correct_items_spec db0 (chunk_items db0 c)) with (db := db)
      (ts0 := ts0) as (db1 & ts1 & Hrun & Hg1 & Hc1); [|exact Hgrow|].
    { intros it Hit. apply Hprod. unfold chunk_items in Hit.
      apply list_elem_of_filter in Hit. tauto. }
    destruct (IH Hprod db1 (ts0 ++ ts1)
                 (ledger_grows_trans _ _ _ _ _ Hgrow Hg1))
      as (db' & ts & Hrun' & Hg' & Hcs).
    exists db', (ts1 ++ ts). cbn [for_each]. unfold correct_chunk at 1.
    rewrite Hitems, Hrun. cbn [bind].
    split; [exact Hrun'|]. split.
    + eapply ledger_grows_trans; eassumption.
    + cbn [map concat]. apply Forall2_app; assumption.
Qed.

(** What the call does, whatever the data. For a stocktake that exists,
    whose items refer to products: [finalize_stocktaking] fails with the business error when
    the stocktake is already locked or one of its chunks is unlocked;
    otherwise it succeeds, locks the stocktake, and appends to the ledger,
    for every item of every chunk in order, one CORRECTION transaction whose
    delta is the counted minus the recorded quantity (zero included), which
    refers to the item and is left pending. *)
Theorem finalize_stocktaking_corrections (sid : Z) (db : DB) (st : Stocktake) :
  objects_get "Stocktake" (fun s => stocktake_id s =? sid) (db_stocktakes db)
  = Ok st ->
  items_have_products db = true ->
  (stocktake_locked st = true ->
   finalize_stocktaking sid db
   = Raise (APIException "Stock-taking already finished."))
  /\ (stocktake_locked st = false ->
      (exists c, c ∈ stocktake_chunks db st /\ chunk_locked c = false) ->
      finalize_stocktaking sid db
      = Raise (APIException "Found unfinished chunks."))
  /\ (stocktake_locked st = false ->
      (forall c, c ∈ stocktake_chunks db st -> chunk_locked c = true) ->
      exists db' ts,
        finalize_stocktaking sid db
        = Ok ({| stocktake_id := stocktake_id st; stocktake_locked := true |},
              db')
        /\ db_transactions db' = db_transactions db ++ ts
        /\ Forall2 (correction_for db) (stocktake_items db st) ts
        /\ Forall (fun t => trx_status t = PENDING) ts
        /\ db_stocktakes db'
           = save_row stocktake_id
               {| stocktake_id := stocktake_id st; stocktake_locked := true |}
               (db_stocktakes db)).
Proof.
  intros Hst Hprod. unfold finalize_stocktaking. rewrite Hst. cbn [bind].
  fold (stocktake_chunks db st).
  split; [intros ->; reflexivity|]. split.
  - intros -> (c & Hc & Hl).
    destruct (forallb chunk_locked (stocktake_chunks db st)) eqn:Hall;
      [|reflexivity].
    rewrite forallb_forall in Hall. apply list_elem_of_In in Hc.
    rewrite (Hall c Hc) in Hl. discriminate.
  - intros -> Hall.
    assert (Hforall : forallb chunk_locked (stocktake_chunks db st) = true).
    { apply forallb_forall. intros c Hc. apply Hall, list_elem_of_In, Hc. }
    rewrite Hforall. cbn [negb].
    destruct (correct_chunks_spec db (stocktake_chunks db st)) with (db := db)
      (ts0 := @nil ProductTransaction) as (db1 & ts & Hrun & Hg & Hcs).
    { intros it Hit. apply items_have_products_elem; assumption. }
    { apply ledger_grows_refl. }
    rewrite Hrun. cbn [bind]. do 2 eexists. split; [reflexivity|].
    destruct Hg as (Ht & _ & _ & _ & Hs & Hp). cbn.
    rewrite Hs. split; [exact Ht|]. split; [exact Hcs|].
    split; [exact Hp|reflexivity].
Qed.

(** The call leaves every product quantity as it was: the corrections it
    records are pending, and pending transactions do not count. *)
Lemma finalize_stocktaking_keeps_quantities sid db st db' pid :
  finalize_stocktaking sid db = Ok (st, db') ->
  product_qty db' pid = product_qty db pid.
Proof.
  unfold finalize_stocktaking. intros H. bind_inv H as st0 Hst.
  destruct (stocktake_locked st0); [discriminate|].
  destruct (negb _); [discriminate|].
  bind_inv H as db1 Hrun. inversion H; subst. clear H.
  unfold product_qty. cbn.
  change (sum_qty (filter (fun t => (trx_product_id t =? pid) = true)
                          (finalized (db_transactions db1))))
    with (product_qty db1 pid).
  revert Hrun.
  apply (for_each_preserves (fun d => product_qty d pid = product_qty db pid));
    [|reflexivity].
  intros d c d' Hd. unfold correct_chunk.
  apply (for_each_preserves (fun d => product_qty d pid = product_qty db pid));
    [|exact Hd].
  clear. intros d it d' Hd H. unfold correct_item in H.
  bind_inv H as p Hp. bind_inv H as r Hr. destruct r as [t d1].
  inversion H; subst. clear H.
  unfold create_product_transaction in Hr. bind_inv Hr as p' Hp'.
  inversion Hr; subst. clear Hr.
  rewrite <- Hd. unfold product_qty. cbn.
  rewrite finalized_app.
  replace (finalized [_]) with (@nil ProductTransaction); [|reflexivity].
  rewrite app_nil_r. reflexivity.
Qed.

(** ** Forecast *)

Section ForecastFacts.
Variable svr_coef : list Z -> list Z -> Q.

(** A ledger that passes the three guards reaches the regression step,
    with the series built from the transactions after the last restock. *)
Lemma predict_quantity_regression pid target current_date db p restock_trx
    first_date first_qty rest :
  get_product_row pid db = Ok p ->
  target < product_qty db pid ->
  latest (restocks (finalized (db_transactions db))) = Some restock_trx ->
  data_points db restock_trx = (first_date, first_qty) :: rest ->
  predict_quantity svr_coef pid target current_date db
  = let initial_qty := initial_qty_at db restock_trx in
    let xy := series initial_qty (today_of current_date db) first_date
                     (data_points db restock_trx) in
    regression_step svr_coef initial_qty first_date (fst xy) (snd xy).
Proof.
  intros Hp Hqty Hrestock Hdata. unfold predict_quantity.
  rewrite Hp. cbn [bind]. rewrite (get_product_row_id _ _ _ Hp).
  destruct (Z.leb_spec (product_qty db pid) target) as [Hle|_]; [lia|].
  rewrite Hrestock.
  fold (initial_qty_at db restock_trx). fold (data_points db restock_trx).
  fold (today_of current_date db).
  rewrite Hdata. cbv zeta.
  destruct (series _ _ _ _) as [x y]. reflexivity.
Qed.

Lemma regression_step_result initial_qty date_offset x y :
  let coef := svr_coef x (accumulate y) in
  ((0 <= coef)%Q ->
   regression_step svr_coef initial_qty date_offset x y = Ok None)
  /\ ((coef < 0)%Q ->
      1 <= forecast_date initial_qty date_offset coef <= 3652059 ->
      regression_step svr_coef initial_qty date_offset x y
      = Ok (Some (forecast_date initial_qty date_offset coef))).
Proof.
  intros coef. unfold regression_step. fold coef. split.
  - intros Hle. apply Qle_bool_iff in Hle. rewrite Hle. reflexivity.
  - intros Hlt Hrange.
    destruct (Qle_bool 0 coef) eqn:Hle.
    + apply Qle_bool_iff in Hle. exfalso. apply (Qlt_not_le _ _ Hlt Hle).
    + fold (forecast_date initial_qty date_offset coef).
      unfold date_fromordinal.
      destruct (Z.leb_spec 1 (forecast_date initial_qty date_offset coef));
        [|lia].
      destruct (Z.leb_spec (forecast_date initial_qty date_offset coef)
                           3652059); [|lia].
      reflexivity.
Qed.

(** C3 (as the code has it). When [predict_quantity] reaches the
    regression step: a fitted slope of at least 0 gives None; a negative
    slope gives the date [date_offset + trunc(-initial_qty / slope)],
    where [date_offset] is the day of the first data point after the
    restock and the quotient, computed in double precision as the code
    computes it, is truncated toward zero, provided that day is a valid
    date. *)
Theorem predict_quantity_projects pid target current_date db p restock_trx
    first_date first_qty rest :
  get_product_row pid db = Ok p ->
  target < product_qty db pid ->
  latest (restocks (finalized (db_transactions db))) = Some restock_trx ->
  data_points db restock_trx = (first_date, first_qty) :: rest ->
  let initial_qty := initial_qty_at db restock_trx in
  let xy := series initial_qty (today_of current_date db) first_date
                   (data_points db restock_trx) in
  let coef := svr_coef (fst xy) (accumulate (snd xy)) in
  ((0 <= coef)%Q ->
   predict_quantity svr_coef pid target current_date db = Ok None)
  /\ ((coef < 0)%Q ->
      1 <= forecast_date initial_qty first_date coef <= 3652059 ->
      predict_quantity svr_coef pid target current_date db
      = Ok (Some (forecast_date initial_qty first_date coef))).
Proof.
  intros Hp Hqty Hrestock Hdata initial_qty xy coef.
  rewrite (predict_quantity_regression _ _ _ _ _ _ _ _ _
             Hp Hqty Hrestock Hdata).
  cbv zeta. fold initial_qty. fold xy.
  apply regression_step_result.
Qed.

(** On [two_product_db] the forecast for product 1 reaches the regression
    step whatever the regression routine, on a series made of the restock
    and the sales of product 2. *)
Lemma predict_quantity_two_products :
  predict_quantity svr_coef 1 0 (Some 736003) two_product_db
  = regression_step svr_coef 60 736001 [-1; 0; 1; 2] [60; -5; -5; 0].
Proof. reflexivity. Qed.
End ForecastFacts.

(** The quotient is the double the code divides to: with the double
    nearest to -0.2 as slope and an initial quantity of 10, the exact
    quotient lies just below 50 and truncates to 49, the double quotient is
    50, and the date is 50 days after the first data point. *)
Lemma regression_step_double_quotient :
  let slope := (- (3602879701896397 # 18014398509481984))%Q in
  Qtruncate (inject_Z (- 10) / slope) = 49
  /\ Qtruncate (float_div (float_of_int (- 10)) slope) = 50
  /\ forall x y,
       regression_step (fun _ _ => slope) 10 736001 x y = Ok (Some 736051).
Proof.
  cbv zeta. split; [vm_compute; reflexivity|].
  split; [vm_compute; reflexivity|]. intros x y. vm_compute. reflexivity.
Qed.

(** C3, the claim as stated fails: on [forecast_db] the fitted slope is
    negative (-13/10), the code answers day 736008, seven days after the
    first data point, and the date of the claim, counted from the last
    offset with a rounded quotient, is 736012. *)
Lemma predict_quantity_not_spec_forecast_date :
  let x := [-1; 0; 2; 3] in
  let coef := least_squares_slope x (accumulate [10; -2; -3; 0]) in
  series 10 736004 736001 [(736001, -2); (736003, -3)] = (x, [10; -2; -3; 0])
  /\ (coef < 0)%Q
  /\ predict_quantity least_squares_slope 1 0 (Some 736004) forecast_db
     = Ok (Some 736008)
  /\ spec_forecast_date 10 736001 x coef = 736012
  /\ predict_quantity least_squares_slope 1 0 (Some 736004) forecast_db
     <> Ok (Some (spec_forecast_date 10 736001 x coef)).
Proof.
  cbv zeta. split; [vm_compute; reflexivity|]. split; [reflexivity|].
  split; [vm_compute; reflexivity|].
  split; [vm_compute; reflexivity|]. vm_compute. discriminate.
Qed.

(** C2, the code at the failing input: product 1 of [two_product_db] holds
    10 units, above the target 0, and has no restock of its own, yet the
    forecast is not None: it is computed from the ledger of product 2. *)
Lemma predict_quantity_foreign_restock :
  product_qty two_product_db 1 = 10
  /\ restocks (finalized (filter (fun t => (trx_product_id t =? 1) = true)
                                 (db_transactions two_product_db))) = []
  /\ predict_quantity least_squares_slope 1 0 (Some 736003) two_product_db
     = Ok (Some 736018).
Proof. split; [|split]; vm_compute; reflexivity. Qed.

(** ** Double-precision arithmetic *)

Lemma round_half_even_spec n d :
  0 < d -> 2 * Z.abs (round_half_even n d * d - n) <= d.
Proof.
  intros Hd. unfold round_half_even.
  pose proof (Z.div_mod n d ltac:(lia)) as Hdm.
  pose proof (Z.mod_pos_bound n d Hd) as Hr.
  destruct (Z.ltb_spec (2 * (n mod d)) d).
  - nia.
  - destruct (Z.ltb_spec d (2 * (n mod d))).
    + nia.
    + destruct (Z.even (n / d)); nia.
Qed.

Lemma two_pow_pos e : 0 <= e -> 0 < 2 ^ e.
Proof. intros. apply Z.pow_pos_nonneg; lia. Qed.

Lemma two_pow_split a b : 0 <= a -> 0 <= b -> 2 ^ (a + b) = 2 ^ a * 2 ^ b.
Proof. intros. apply Z.pow_add_r; lia. Qed.

Lemma binary_exponent_cases n d :
  let e := Z.log2 n - Z.log2 d in
  (binary_exponent n d = e /\ snd (scaled n d e) <= fst (scaled n d e))
  \/ (binary_exponent n d = e - 1 /\ fst (scaled n d e) < snd (scaled n d e)).
Proof.
  intros e. unfold binary_exponent. fold e.
  destruct (scaled n d e) as [n' d']. cbn [fst snd].
  destruct (Z.leb_spec d' n'); [left|right]; split; auto.
Qed.

Lemma binary_exponent_spec n d :
  0 < n -> 0 < d ->
  snd (scaled n d (binary_exponent n d)) <= fst (scaled n d (binary_exponent n d))
  /\ fst (scaled n d (binary_exponent n d))
     < 2 * snd (scaled n d (binary_exponent n d)).
Proof.
  intros Hn Hd.
  pose proof (Z.log2_spec n Hn) as [HnA HnB].
  pose proof (Z.log2_spec d Hd) as [HdA HdB].
  pose proof (Z.log2_nonneg n) as Hln. pose proof (Z.log2_nonneg d) as Hld.
  rewrite <- Z.add_1_r in HnB, HdB.
  rewrite (two_pow_split _ 1 Hln ltac:(lia)) in HnB.
  rewrite (two_pow_split _ 1 Hld ltac:(lia)) in HdB.
  change (2 ^ 1) with 2 in *.
  pose proof (binary_exponent_cases n d) as Hcases. cbv zeta in Hcases.
  set (ln := Z.log2 n) in *. set (ld := Z.log2 d) in *.
  pose proof (two_pow_pos ln Hln) as HA. pose proof (two_pow_pos ld Hld) as HD.
  destruct (Z.le_gt_cases ld ln) as [Hle|Hgt].
  - (* the quotient is above 1/2 *)
    assert (HE : 2 ^ ln = 2 ^ ld * 2 ^ (ln - ld)).
    { rewrite <- two_pow_split by lia. f_equal. lia. }
    pose proof (two_pow_pos (ln - ld) ltac:(lia)) as HEpos.
    assert (Hs : scaled n d (ln - ld) = (n, d * 2 ^ (ln - ld))).
    { unfold scaled. destruct (Z.leb_spec 0 (ln - ld)); [reflexivity|lia]. }
    rewrite Hs in Hcases. cbn [fst snd] in Hcases.
    destruct Hcases as [[-> Hge]|[-> Hlt]].
    + rewrite Hs. cbn [fst snd]. split; [exact Hge|].
      assert (2 ^ ld * 2 ^ (ln - ld) <= d * 2 ^ (ln - ld))
        by (apply Z.mul_le_mono_nonneg_r; lia).
      lia.
    + unfold scaled. destruct (Z.leb_spec 0 (ln - ld - 1)) as [Hpos|Hneg].
      * assert (HF : 2 ^ (ln - ld) = 2 ^ (ln - ld - 1) * 2).
        { replace (ln - ld) with ((ln - ld - 1) + 1) at 1 by lia.
          rewrite two_pow_split by lia. reflexivity. }
        pose proof (two_pow_pos (ln - ld - 1) Hpos).
        cbn [fst snd].
        assert (d * 2 ^ (ln - ld - 1) < 2 ^ ld * 2 * 2 ^ (ln - ld - 1))
          by (apply Z.mul_lt_mono_pos_r; lia).
        lia.
      * assert (ln - ld = 0) as H0 by lia.
        rewrite H0 in *.
        replace (- (0 - 1)) with 1 by lia.
        change (2 ^ 1) with 2. change (2 ^ 0) with 1 in *.
        cbn [fst snd]. lia.
  - assert (HE : 2 ^ ld = 2 ^ ln * 2 ^ (ld - ln)).
    { rewrite <- two_pow_split by lia. f_equal. lia. }
    pose proof (two_pow_pos (ld - ln) ltac:(lia)) as HEpos.
    assert (Hs : scaled n d (ln - ld) = (n * 2 ^ (ld - ln), d)).
    { unfold scaled. destruct (Z.leb_spec 0 (ln - ld)); [lia|].
      replace (- (ln - ld)) with (ld - ln) by lia. reflexivity. }
    rewrite Hs in Hcases. cbn [fst snd] in Hcases.
    destruct Hcases as [[-> Hge]|[-> Hlt]].
    + rewrite Hs. cbn [fst snd]. split; [exact Hge|].
      assert (n * 2 ^ (ld - ln) < 2 ^ ln * 2 * 2 ^ (ld - ln))
        by (apply Z.mul_lt_mono_pos_r; lia).
      lia.
    + unfold scaled. destruct (Z.leb_spec 0 (ln - ld - 1)) as [|_]; [lia|].
      replace (- (ln - ld - 1)) with ((ld - ln) + 1) by lia.
      rewrite two_pow_split by lia. change (2 ^ 1) with 2.
      cbn [fst snd].
      assert (2 ^ ln * 2 ^ (ld - ln) <= n * 2 ^ (ld - ln))
        by (apply Z.mul_le_mono_nonneg_r; lia).
      lia.
Qed.

Lemma nearest_keeps_floor_ceil a b m P :
  0 < b -> 0 <= a -> 0 < P -> b < 2 * P ->
  2 * Z.abs (m * b - a * P) <= b ->
  m / P = a / b /\ ceil_div m P = ceil_div a b /\ 0 <= m <= a * P.
Proof.
  intros Hb Ha HP HbP Hm.
  pose proof (Z.div_mod a b ltac:(lia)) as Hdm.
  pose proof (Z.mod_pos_bound a b Hb) as Hr.
  set (k := a / b) in *. set (r := a mod b) in *.
  assert (Hk : 0 <= k) by (apply Z.div_pos; lia).
  unfold ceil_div.
  destruct (Z.eq_dec r 0) as [Hr0|Hr0].
  - assert (Hmk : m = k * P) by nia.
    assert (Hak : a = k * b) by lia.
    rewrite Hmk, Hak.
    rewrite <- !Z.mul_opp_l, !Z.div_mul by lia.
    split; [reflexivity|]. split; [reflexivity|]. nia.
  - assert (Hlo : k * P < m) by nia.
    assert (Hhi : m < (k + 1) * P) by nia.
    split; [|split].
    + symmetry. apply (Z.div_unique m P k (m - k * P)); lia.
    + f_equal.
      rewrite <- (Z.div_unique (- m) P (- (k + 1)) ((k + 1) * P - m)) by lia.
      rewrite <- (Z.div_unique (- a) b (- (k + 1)) (b - r)) by lia.
      reflexivity.
    + nia.
Qed.

Lemma two_pow_lt_inv a b : 0 <= a -> 0 <= b -> 2 ^ a < 2 ^ b -> a < b.
Proof. intros Ha Hb H. apply (Z.pow_lt_mono_r_iff 2); lia. Qed.

(** Below 2^53 the double nearest to [a / b] has the floor and the ceiling
    of [a / b]. *)
Lemma binary64_pos_small a b :
  0 < a < 2 ^ 53 -> 0 < b < 2 ^ 53 ->
  let x := binary64_pos a b in
  Qnum x / Z.pos (Qden x) = a / b
  /\ ceil_div (Qnum x) (Z.pos (Qden x)) = ceil_div a b
  /\ 0 <= Qnum x < 2 ^ 53 * Z.pos (Qden x).
Proof.
  intros Ha Hb.
  pose proof (binary_exponent_spec a b ltac:(lia) ltac:(lia)) as Hspec.
  unfold binary64_pos.
  set (e := binary_exponent a b) in *. clearbody e.
  assert (He : -53 <= e <= 52 /\ 2 ^ 52 * b <= a * 2 ^ (52 - e)).
  { unfold scaled in Hspec. destruct (Z.leb_spec 0 e) as [Hpos|Hneg];
      cbn [fst snd] in Hspec.
    - pose proof (two_pow_pos e Hpos) as HE.
      assert (2 ^ e < 2 ^ 53) by nia.
      assert (e < 53) by (apply two_pow_lt_inv; lia).
      split; [lia|].
      assert (HP : 2 ^ 52 = 2 ^ e * 2 ^ (52 - e)).
      { rewrite <- two_pow_split by lia. f_equal. lia. }
      pose proof (two_pow_pos (52 - e) ltac:(lia)).
      rewrite HP.
      replace (2 ^ e * 2 ^ (52 - e) * b) with (b * 2 ^ e * 2 ^ (52 - e)) by ring.
      apply Z.mul_le_mono_nonneg_r; lia.
    - pose proof (two_pow_pos (- e) ltac:(lia)) as HE.
      assert (2 ^ (- e) < 2 ^ 54).
      { change (2 ^ 54) with (2 * 2 ^ 53). nia. }
      assert (- e < 54) by (apply two_pow_lt_inv; lia).
      split; [lia|].
      assert (HP : 2 ^ (52 - e) = 2 ^ (- e) * 2 ^ 52).
      { rewrite <- two_pow_split by lia. f_equal. lia. }
      rewrite HP. nia. }
  destruct He as [He HN].
  rewrite Z.max_l by lia.
  set (P := 2 ^ (52 - e)) in *.
  assert (HPpos : 0 < P) by (apply two_pow_pos; lia).
  assert (HbP : b < 2 * P) by nia.
  unfold scaled.
  destruct (Z.leb_spec 0 (e - 52)) as [Hu|Hu].
  - assert (e = 52) by lia. subst e.
    subst P. change (52 - 52) with 0 in *. change (2 ^ 0) with 1 in *.
    rewrite !Z.mul_1_r. cbn [inject_Z Qnum Qden].
    pose proof (round_half_even_spec a b ltac:(lia)) as Hm.
    destruct (nearest_keeps_floor_ceil a b (round_half_even a b) 1
                ltac:(lia) ltac:(lia) ltac:(lia) ltac:(lia) ltac:(lia))
      as (Hf & Hc & Hr).
    repeat split; try assumption; lia.
  - replace (- (e - 52)) with (52 - e) by lia. fold P.
    cbn [Qnum Qden]. rewrite Z2Pos.id by exact HPpos.
    pose proof (round_half_even_spec (a * P) b ltac:(lia)) as Hm.
    destruct (nearest_keeps_floor_ceil a b (round_half_even (a * P) b) P
                ltac:(lia) ltac:(lia) ltac:(lia) ltac:(lia) ltac:(lia))
      as (Hf & Hc & Hr).
    repeat split; try assumption; nia.
Qed.

(** For operands below 2^53 the ceiling of the double quotient is the
    exact ceiling of the quotient, and the division does not overflow. *)
Lemma binary64_small_Qmake a p :
  Z.abs a < 2 ^ 53 -> Z.pos p < 2 ^ 53 ->
  float_is_finite (binary64 (a # p)) = true
  /\ Qceiling (binary64 (a # p)) = ceil_div a (Z.pos p).
Proof.
  intros Ha Hp. unfold binary64, float_is_finite. cbn [Qnum Qden].
  assert (H53 : 2 ^ 53 < 2 ^ 1024) by (apply Z.pow_lt_mono_r; lia).
  destruct a as [|q|q].
  - split; [reflexivity|]. reflexivity.
  - destruct (binary64_pos_small (Z.pos q) (Z.pos p) ltac:(lia) ltac:(lia))
      as (_ & Hc & Hr).
    set (x := binary64_pos (Z.pos q) (Z.pos p)) in *. split.
    + apply Z.ltb_lt. nia.
    + rewrite <- Hc. unfold Qceiling, Qfloor, ceil_div. destruct x; reflexivity.
  - destruct (binary64_pos_small (Z.pos q) (Z.pos p) ltac:(lia) ltac:(lia))
      as (Hf & _ & Hr).
    set (x := binary64_pos (Z.pos q) (Z.pos p)) in *. split.
    + apply Z.ltb_lt. cbn [Qopp Qnum Qden]. nia.
    + unfold ceil_div. change (- Z.neg q) with (Z.pos q). rewrite <- Hf.
      unfold Qceiling, Qfloor. destruct x as [n d]. cbn [Qopp Qnum Qden].
      rewrite Z.opp_involutive. reflexivity.
Qed.

Lemma int_true_divide_small a b :
  b <> 0 -> Z.abs a < 2 ^ 53 -> Z.abs b < 2 ^ 53 ->
  exists x, int_true_divide a b = Ok x /\ Qceiling x = ceil_div a b.
Proof.
  intros Hb Ha Hbb. unfold int_true_divide.
  destruct (Z.eqb_spec b 0) as [|_]; [contradiction|].
  destruct b as [|p|p]; [contradiction| |]; cbn [int_quotient].
  - destruct (binary64_small_Qmake a p ltac:(lia) ltac:(lia)) as [Hfin Hc].
    rewrite Hfin. eexists. split; [reflexivity|exact Hc].
  - destruct (binary64_small_Qmake (- a) p ltac:(lia) ltac:(lia))
      as [Hfin Hc].
    rewrite Hfin. eexists. split; [reflexivity|]. rewrite Hc.
    unfold ceil_div. rewrite Z.opp_involutive.
    change (Z.neg p) with (- Z.pos p). rewrite Z.div_opp_opp by lia.
    reflexivity.
Qed.

(** A quotient below 2^1023 does not overflow. *)
Lemma binary64_pos_finite n d :
  0 < n -> 0 < d -> n < 2 ^ 1023 * d ->
  float_is_finite (binary64_pos n d) = true
  /\ float_is_finite (- binary64_pos n d) = true.
Proof.
  intros Hn Hd Hlt.
  assert (Hfin : Z.abs (Qnum (binary64_pos n d))
                 < 2 ^ 1024 * Z.pos (Qden (binary64_pos n d))).
  { pose proof (binary_exponent_spec n d Hn Hd) as Hspec.
    unfold binary64_pos.
    set (e := binary_exponent n d) in *. clearbody e.
    assert (HK : 2 ^ 1024 = 2 * 2 ^ 1023) by reflexivity.
    pose proof (two_pow_pos 1023 ltac:(lia)) as HKpos.
    assert (He : e <= 1022).
    { destruct (Z.le_gt_cases e 1022) as [|Hgt]; [assumption|exfalso].
      unfold scaled in Hspec.
      destruct (Z.leb_spec 0 e); [|lia]. cbn [fst snd] in Hspec.
      assert (2 ^ 1023 <= 2 ^ e) by (apply Z.pow_le_mono_r; lia).
      nia. }
    unfold scaled.
    destruct (Z.leb_spec 0 (Z.max (e - 52) (-1074))) as [Hu|Hu].
    - rewrite Z.max_l in * by lia.
      set (u := e - 52) in *.
      pose proof (two_pow_pos u Hu) as HU.
      assert (HE : 2 ^ u <= 2 ^ 970) by (apply Z.pow_le_mono_r; lia).
      assert (H970 : 2 ^ 1023 = 2 ^ 970 * 2 ^ 53) by reflexivity.
      pose proof (two_pow_pos 970 ltac:(lia)) as H970pos.
      assert (H53 : 2 ^ 53 = 9007199254740992) by reflexivity.
      pose proof (round_half_even_spec n (d * 2 ^ u) ltac:(nia)) as Hm.
      set (m := round_half_even n (d * 2 ^ u)) in *. clearbody m.
      cbn [inject_Z Qnum Qden].
      set (K := 2 ^ 1023) in *. clearbody K.
      set (U := 2 ^ u) in *. clearbody U.
      set (V := 2 ^ 970) in *. clearbody V.
      rewrite HK.
      assert (0 <= m) by nia.
      assert (2 * (m * U) * d <= 2 * n + d * U) by nia.
      assert (2 * (m * U) * d < (2 * K + U) * d) by nia.
      assert (2 * (m * U) < 2 * K + U) by nia.
      rewrite Z.abs_eq by nia. nia.
    - set (u := Z.max (e - 52) (-1074)) in *. clearbody u.
      pose proof (two_pow_pos (- u) ltac:(lia)) as HU.
      pose proof (round_half_even_spec (n * 2 ^ (- u)) d Hd) as Hm.
      set (m := round_half_even (n * 2 ^ (- u)) d) in *. clearbody m.
      cbn [Qnum Qden]. rewrite Z2Pos.id by exact HU.
      set (K := 2 ^ 1023) in *. clearbody K.
      set (U := 2 ^ (- u)) in *. clearbody U.
      rewrite HK.
      assert (0 <= m) by nia.
      assert (2 * m * d < (2 * K * U + 1) * d) by nia.
      assert (2 * m < 2 * K * U + 1) by nia.
      rewrite Z.abs_eq by lia. nia. }
  unfold float_is_finite. split; apply Z.ltb_lt; [exact Hfin|].
  destruct (binary64_pos n d) as [num den]. cbn [Qopp Qnum Qden] in *.
  rewrite Z.abs_opp. exact Hfin.
Qed.

Lemma int_true_divide_finite a b :
  b <> 0 -> Z.abs a < 2 ^ 1023 ->
  exists x, int_true_divide a b = Ok x.
Proof.
  intros Hb Ha. unfold int_true_divide.
  destruct (Z.eqb_spec b 0) as [|_]; [contradiction|].
  assert (Hfin : forall n p, Z.abs n < 2 ^ 1023 ->
                   float_is_finite (binary64 (n # p)) = true).
  { intros n p Hn. unfold binary64. cbn [Qnum Qden].
    pose proof (two_pow_pos 1023 ltac:(lia)) as HK.
    destruct n as [|q|q]; [reflexivity| |].
    - apply binary64_pos_finite; nia.
    - apply binary64_pos_finite; nia. }
  destruct b as [|p|p]; [contradiction| |]; cbn [int_quotient];
    rewrite Hfin by lia; eauto.
Qed.

(** ** Ordering from a supplier *)

Lemma Qltb_asym a b : Qltb a b = true -> Qltb b a = false.
Proof.
  unfold Qltb. intros H. apply negb_true_iff in H.
  apply negb_false_iff. apply Qle_bool_iff.
  destruct (Qlt_le_dec a b) as [Hlt|Hle].
  - apply Qlt_le_weak. exact Hlt.
  - apply Qle_bool_iff in Hle. congruence.
Qed.

Lemma Qltb_false a b : Qltb b a = false <-> (a <= b)%Q.
Proof.
  unfold Qltb. rewrite negb_false_iff. apply Qle_bool_iff.
Qed.

Lemma StronglySorted_map_snd {A K : Type} (R : K -> K -> Prop) (f : A -> K)
    (l : list (K * A)) :
  Forall (fun kp => fst kp = f (snd kp)) l ->
  StronglySorted (fun a b => R (fst a) (fst b)) l ->
  StronglySorted (fun a b => R (f a) (f b)) (map snd l).
Proof.
  intros Hkeys Hsorted.
  induction Hsorted as [|kp l Hl IH Hkp]; simpl; [constructor|].
  apply Forall_cons in Hkeys as [Hk Hkeys].
  constructor; [apply IH; exact Hkeys|].
  apply Forall_map. rewrite Forall_forall in *. intros kp' Hin. simpl.
  rewrite <- Hk, <- (Hkeys kp' Hin). apply Hkp. exact Hin.
Qed.

Lemma first_true_split {A : Type} (f : A -> bool) (l : list A) :
  Forall (fun x => f x = false) l
  \/ exists failed p rest,
       l = failed ++ p :: rest
       /\ Forall (fun x => f x = false) failed /\ f p = true.
Proof.
  induction l as [|x l IH]; [left; constructor|].
  destruct (f x) eqn:Hx.
  - right. exists [], x, l. repeat split; [constructor|exact Hx].
  - destruct IH as [Hall|(failed & p & rest & -> & Hfailed & Hp)].
    + left. constructor; assumption.
    + right. exists (x :: failed), p, rest.
      repeat split; [constructor; assumption|exact Hp].
Qed.

Section OrderingFacts.
Variable get_supplier_api : string -> SupplierAPI.

Lemma offerings_ok_Forall db products :
  offerings_ok db products = true ->
  Forall (fun sp => batch_in_range sp /\ exists s, supplier_of db sp = Ok s)
         products.
Proof.
  unfold offerings_ok. rewrite forallb_forall, Forall_forall.
  intros H sp Hsp. apply list_elem_of_In in Hsp. specialize (H sp Hsp).
  apply andb_prop in H as [Hq Hs]. apply andb_prop in Hq as [Hq Hlt].
  split; [split|].
  - apply negb_true_iff, Z.eqb_neq in Hq. exact Hq.
  - apply Z.ltb_lt. exact Hlt.
  - destruct (supplier_of db sp) as [s|e]; [eauto|discriminate].
Qed.

(** Below 2^53, [minimum_qty] is the exact ceiling of [qty / sp.qty]. *)
Lemma minimum_qty_Ok qty sp :
  Z.abs qty < 2 ^ 53 -> batch_in_range sp ->
  minimum_qty qty sp = Ok (ceil_div qty (sp_qty sp)).
Proof.
  intros Hqty [Hnz Hlt]. unfold minimum_qty.
  destruct (int_true_divide_small qty (sp_qty sp) Hnz Hqty Hlt)
    as (x & -> & Hx).
  cbn [bind]. rewrite Hx. reflexivity.
Qed.

Lemma cost_keys qty products :
  Z.abs qty < 2 ^ 53 ->
  Forall batch_in_range products ->
  map_result (fun sp => let* c := cost qty sp in Ok (c, sp)) products
  = Ok (map (fun sp => (cost_of qty sp, sp)) products).
Proof.
  intros Hqty. induction 1 as [|sp l Hsp Hl IH]; [reflexivity|].
  cbn [map_result map]. rewrite IH. unfold cost.
  rewrite (minimum_qty_Ok qty sp Hqty Hsp). reflexivity.
Qed.

(** [sorted(products, key=cost)] is the candidates in ascending order of
    cost. *)
Lemma sorted_by_cost_spec qty products :
  Z.abs qty < 2 ^ 53 ->
  Forall batch_in_range products ->
  exists sorted,
    sorted_by_cost qty products = Ok sorted
    /\ sorted ≡ₚ products
    /\ StronglySorted (fun a b => (cost_of qty a <= cost_of qty b)%Q) sorted.
Proof.
  intros Hqty Hq. unfold sorted_by_cost.
  rewrite (cost_keys qty products Hqty Hq).
  cbn [bind]. eexists. split; [reflexivity|].
  set (keyed := map (fun sp => (cost_of qty sp, sp)) products).
  assert (Hperm : sorted_by_key Qltb fst keyed ≡ₚ keyed)
    by apply sorted_by_key_perm.
  split.
  - rewrite Hperm. subst keyed. rewrite map_map. simpl.
    rewrite map_id. reflexivity.
  - apply (StronglySorted_map_snd Qle (cost_of qty)).
    + rewrite Hperm. subst keyed. apply Forall_map.
      apply Forall_forall. intros sp _. reflexivity.
    + eapply StronglySorted_weaken;
        [|apply (sorted_by_key_sorted Qltb fst)].
      * unfold key_le in *. intros a b H. apply Qltb_false. exact H.
      * apply Qltb_asym.
      * unfold key_le in *. intros a b c H1 H2.
        apply Qltb_false in H1, H2. apply Qltb_false.
        eapply Qle_trans; eassumption.
Qed.

Lemma order_loop_refused qty db prev p rest :
  Z.abs qty < 2 ^ 53 ->
  batch_in_range p -> (exists s, supplier_of db p = Ok s) ->
  accepts get_supplier_api qty db p = false ->
  order_loop get_supplier_api qty db prev (p :: rest)
  = (p :: fst (order_loop get_supplier_api qty db (Some p) rest),
     snd (order_loop get_supplier_api qty db (Some p) rest)).
Proof.
  intros Hqty Hq [s Hs] Hacc. unfold accepts in Hacc. rewrite Hs in Hacc.
  cbn [order_loop]. rewrite Hs, (minimum_qty_Ok qty p Hqty Hq), Hacc.
  destruct (order_loop _ qty db (Some p) rest). reflexivity.
Qed.

Lemma order_loop_accepted qty db prev p rest :
  Z.abs qty < 2 ^ 53 ->
  batch_in_range p -> (exists s, supplier_of db p = Ok s) ->
  accepts get_supplier_api qty db p = true ->
  order_loop get_supplier_api qty db prev (p :: rest) = ([p], Ok p).
Proof.
  intros Hqty Hq [s Hs] Hacc. unfold accepts in Hacc. rewrite Hs in Hacc.
  cbn [order_loop]. rewrite Hs, (minimum_qty_Ok qty p Hqty Hq), Hacc.
  reflexivity.
Qed.

(** The loop returns the first offering that is accepted, after trying
    exactly the offerings before it. *)
Lemma order_loop_first_accepted qty db failed p rest :
  Z.abs qty < 2 ^ 53 ->
  forall prev,
  Forall (fun sp => batch_in_range sp /\ exists s, supplier_of db sp = Ok s)
         (failed ++ [p]) ->
  Forall (fun sp => accepts get_supplier_api qty db sp = false) failed ->
  accepts get_supplier_api qty db p = true ->
  order_loop get_supplier_api qty db prev (failed ++ p :: rest)
  = (failed ++ [p], Ok p).
Proof.
  intros Hqty.
  induction failed as [|f failed IH]; intros prev Hok Hfailed Hacc.
  - apply Forall_cons in Hok as [[Hq Hs] _].
    apply order_loop_accepted; assumption.
  - cbn [app] in *. apply Forall_cons in Hok as [[Hq Hs] Hok].
    apply Forall_cons in Hfailed as [Hf Hfailed].
    rewrite (order_loop_refused qty db prev f _ Hqty Hq Hs Hf).
    rewrite (IH (Some f) Hok Hfailed Hacc). reflexivity.
Qed.

(** When every offering is refused the loop falls through to its [else]
    branch, with the loop variable at the last offering tried. *)
Lemma order_loop_exhausted qty db products :
  Z.abs qty < 2 ^ 53 ->
  forall prev,
  Forall (fun sp => batch_in_range sp /\ exists s, supplier_of db sp = Ok s)
         products ->
  Forall (fun sp => accepts get_supplier_api qty db sp = false) products ->
  order_loop get_supplier_api qty db prev products
  = (products,
     match last (option_list prev ++ products) with
     | Some p => Raise (APIException (order_failure_message p))
     | None => Raise (UnboundLocalError "product")
     end).
Proof.
  intros Hqty.
  induction products as [|f products IH]; intros prev Hok Hfailed.
  - destruct prev; reflexivity.
  - apply Forall_cons in Hok as [[Hq Hs] Hok].
    apply Forall_cons in Hfailed as [Hf Hfailed].
    rewrite (order_loop_refused qty db prev f _ Hqty Hq Hs Hf).
    rewrite (IH (Some f) Hok Hfailed). cbn [fst snd].
    change (option_list (Some f) ++ products) with (f :: products).
    rewrite last_app_cons. reflexivity.
Qed.

(** C5. For a quantity below 2^53 in magnitude and a non-empty candidate
    set (every offering with a supplier row and a batch size other than 0
    and below 2^53 in magnitude, the range in which the double-precision
    [math.ceil(qty / batch)] of the code is the exact ceiling), the
    offerings are tried in ascending order of
    ceil(qty / batch) * batch * unit_price: the call returns the first
    offering of that order whose supplier accepts, having tried exactly the
    cheaper ones before it, each of which was refused. *)
Theorem order_from_supplier_cheapest_first pid qty sid db :
  Z.abs qty < 2 ^ 53 ->
  candidates pid sid db <> [] ->
  offerings_ok db (candidates pid sid db) = true ->
  exists products,
    sorted_by_cost qty (candidates pid sid db) = Ok products
    /\ products ≡ₚ candidates pid sid db
    /\ StronglySorted (fun a b => (cost_of qty a <= cost_of qty b)%Q) products
    /\ fst (order_from_supplier get_supplier_api pid qty sid db)
       `prefix_of` products
    /\ (forall failed p rest,
           products = failed ++ p :: rest ->
           Forall (fun sp => accepts get_supplier_api qty db sp = false)
                  failed ->
           accepts get_supplier_api qty db p = true ->
           order_from_supplier get_supplier_api pid qty sid db
           = (failed ++ [p], Ok p))
    /\ (Forall (fun sp => accepts get_supplier_api qty db sp = false)
               products ->
        exists p,
          last products = Some p
          /\ order_from_supplier get_supplier_api pid qty sid db
             = (products, Raise (APIException (order_failure_message p)))).
Proof.
  intros Hqty Hne Hok. apply offerings_ok_Forall in Hok.
  destruct (sorted_by_cost_spec qty (candidates pid sid db) Hqty)
    as (products & Hsorted & Hperm & Hcost).
  { eapply Forall_impl; [exact Hok|]. simpl. tauto. }
  rewrite <- Hperm in Hok.
  exists products. split; [exact Hsorted|]. split; [exact Hperm|].
  split; [exact Hcost|].
  unfold order_from_supplier. rewrite Hsorted.
  assert (Hsuccess : forall failed p rest,
             products = failed ++ p :: rest ->
             Forall (fun sp => accepts get_supplier_api qty db sp = false)
                    failed ->
             accepts get_supplier_api qty db p = true ->
             order_loop get_supplier_api qty db None products
             = (failed ++ [p], Ok p)).
  { intros failed p rest -> Hfailed Hacc.
    apply order_loop_first_accepted; [exact Hqty| |exact Hfailed|exact Hacc].
    rewrite cons_middle, app_assoc in Hok.
    apply Forall_app in Hok as [Hok _]. exact Hok. }
  assert (Hfail : Forall (fun sp => accepts get_supplier_api qty db sp = false)
                         products ->
                  exists p,
                    last products = Some p
                    /\ order_loop get_supplier_api qty db None products
                       = (products,
                          Raise (APIException (order_failure_message p)))).
  { intros Hfailed.
    rewrite (order_loop_exhausted qty db products Hqty None Hok Hfailed).
    change (option_list None ++ products) with products.
    destruct (last products) as [p|] eqn:Hlast;
      [exists p; split; reflexivity|].
    apply last_None in Hlast. subst products.
    apply Permutation_nil_l in Hperm. symmetry in Hperm. contradiction. }
  split; [|split; assumption].
  (* the offerings tried are an initial part of the order *)
  destruct (first_true_split (accepts get_supplier_api qty db) products)
    as [Hall|(failed & p & rest & Heq & Hfailed & Hp)].
  - destruct (Hfail Hall) as (p & _ & ->). reflexivity.
  - rewrite (Hsuccess failed p rest Heq Hfailed Hp).
    cbn [fst]. exists rest. rewrite Heq, <- app_assoc. reflexivity.
Qed.

(** With no candidate the loop body never runs and the [else] branch
    reads the unbound loop variable. *)
Lemma order_from_supplier_no_candidates pid qty sid db :
  candidates pid sid db = [] ->
  order_from_supplier get_supplier_api pid qty sid db
  = ([], Raise (UnboundLocalError "product")).
Proof. unfold order_from_supplier. intros ->. reflexivity. Qed.
End OrderingFacts.

(** C4, the code at the failing input: product 2 of [offerings_db] has no
    offering, and the call ends in an UnboundLocalError, not in the
    business error. *)
Lemma order_from_supplier_unbound_product :
  candidates 2 None offerings_db = []
  /\ order_from_supplier sample_api 2 10 None offerings_db
     = ([], Raise (UnboundLocalError "product")).
Proof. split; vm_compute; reflexivity. Qed.

(** ** Supplier catalog cache and delivery pipeline *)

Section CacheFacts.
Variable get_supplier_api : string -> SupplierAPI.
Variable sp_defaults : SupplierProduct.

(** C10. With [refresh] set, when the supplier does not know the SKU the
    call returns None and the database, so also a cached row for
    (supplier, SKU), is exactly as before. *)
Theorem get_supplier_product_refresh_keeps_cache sid sku db supplier :
  objects_get "Supplier" (fun s => supplier_id s =? sid) (db_suppliers db)
  = Ok supplier ->
  retrieve_product (get_supplier_api (supplier_internal_name supplier)) sku
  = None ->
  get_supplier_product get_supplier_api sp_defaults sid sku true db
  = Ok (None, db).
Proof.
  intros Hs Hr. unfold get_supplier_product, fetch_supplier_product.
  rewrite Hs. cbn [bind]. rewrite Hr. reflexivity.
Qed.







End CacheFacts.

(** ** The statements at sample data *)

(** C1, the code at the failing input. On [stocktake_db] the one item
    counted 5 units of product 1, of which the ledger records 3.  The call
    succeeds and locks the stocktake; the one transaction it appends is the
    CORRECTION of +2 for that item, and it is pending, not finalized: the
    quantity of product 1 is still 3, not the 5 counted, although the
    docstring has the result of the stock-taking applied to the stock
    quantities. *)
Lemma finalize_stocktaking_leaves_pending :
  exists db' t,
    finalize_stocktaking 2 stocktake_db
    = Ok ({| stocktake_id := 2; stocktake_locked := true |}, db')
    /\ db_transactions db' = db_transactions stocktake_db ++ [t]
    /\ trx_type t = CORRECTION
    /\ trx_qty t = 2
    /\ trx_states t = [ {| state_status := PENDING;
                           state_reference := Some (CT_StocktakeItem, 4) |} ]
    /\ trx_status t = PENDING
    /\ product_qty stocktake_db 1 = 3
    /\ product_qty db' 1 = 3.
Proof. do 2 eexists. repeat split; vm_compute; reflexivity. Qed.

(** So, on [stocktake_db], it is not the case that the item has a
    finalized correction and that the quantity of its product now equals
    the count. *)
Lemma finalize_stocktaking_not_finalized :
  ~ (exists st db',
        finalize_stocktaking 2 stocktake_db = Ok (st, db')
        /\ forall it, it ∈ db_items stocktake_db ->
             (exists t, t ∈ db_transactions db'
                        /\ trx_type t = CORRECTION
                        /\ trx_status t = FINALIZED)
             /\ product_qty db' (item_product_id it) = item_qty it).
Proof.
  intros (st & db' & Hrun & Hall).
  vm_compute in Hrun. injection Hrun as <- <-.
  destruct (Hall {| item_id := 4; item_chunk_id := 3;
                    item_product_id := 1; item_qty := 5 |}) as [_ Hqty].
  - apply list_elem_of_here.
  - vm_compute in Hqty. discriminate.
Qed.

Lemma finalize_stocktaking_corrections_witness :
  items_have_products stocktake_db = true
  /\ exists db' ts,
       finalize_stocktaking 2 stocktake_db
       = Ok ({| stocktake_id := 2; stocktake_locked := true |}, db')
       /\ db_transactions db' = db_transactions stocktake_db ++ ts
       /\ Forall2 (correction_for stocktake_db)
                  (stocktake_items stocktake_db
                     {| stocktake_id := 2; stocktake_locked := false |}) ts
       /\ Forall (fun t => trx_status t = PENDING) ts
       /\ db_stocktakes db'
          = save_row stocktake_id
              {| stocktake_id := 2; stocktake_locked := true |}
              (db_stocktakes stocktake_db).
Proof.
  split; [reflexivity|].
  destruct (finalize_stocktaking_corrections 2 stocktake_db
              {| stocktake_id := 2; stocktake_locked := false |}
              eq_refl eq_refl) as (_ & _ & H).
  apply H; [reflexivity|].
  intros c Hc. apply list_elem_of_singleton in Hc. subst c. reflexivity.
Defined.

Lemma predict_quantity_projects_witness :
  0 < product_qty forecast_db 1
  /\ predict_quantity least_squares_slope 1 0 (Some 736004) forecast_db
     = Ok (Some 736008).
Proof.
  split; [reflexivity|].
  refine (proj2 (predict_quantity_projects least_squares_slope 1 0
                   (Some 736004) forecast_db (sample_product 1 1)
                   (sample_trx 2 1 INVENTORY 10 736000) 736001 (-2)
                   [(736003, -3)] eq_refl eq_refl eq_refl eq_refl) _ _).
  - reflexivity.
  - vm_compute. split; discriminate.
Defined.

Lemma order_from_supplier_cheapest_first_witness :
  Z.abs 10 < 2 ^ 53
  /\ candidates 1 None offerings_db <> []
  /\ offerings_ok offerings_db (candidates 1 None offerings_db) = true
  /\ order_from_supplier sample_api 1 10 None offerings_db
     = ([sample_offering 13 1 "C" 10 (22 # 10);
         sample_offering 11 1 "A" 6 (2 # 1)],
        Ok (sample_offering 11 1 "A" 6 (2 # 1))).
Proof.
  assert (Hne : candidates 1 None offerings_db <> [])
    by (vm_compute; discriminate).
  assert (Hok : offerings_ok offerings_db (candidates 1 None offerings_db)
                = true) by (vm_compute; reflexivity).
  assert (Hqty : Z.abs 10 < 2 ^ 53) by reflexivity.
  split; [exact Hqty|]. split; [exact Hne|]. split; [exact Hok|].
  destruct (order_from_supplier_cheapest_first sample_api 1 10 None
              offerings_db Hqty Hne Hok)
    as (products & Hsorted & _ & _ & _ & Haccepted & _).
  vm_compute in Hsorted. injection Hsorted as <-.
  apply (Haccepted [sample_offering 13 1 "C" 10 (22 # 10)]
                   (sample_offering 11 1 "A" 6 (2 # 1))
                   [sample_offering 12 2 "B" 4 (5 # 2)]).
  - reflexivity.
  - constructor; [vm_compute; reflexivity|constructor].
  - vm_compute. reflexivity.
Defined.

(** Beyond 2^53 the double-precision quotient of the code can order
    otherwise.  On [large_order_db], for 10^17 + 1 units, the batches of 1
    cost less than the batches of 6; the code computes 16666666666666666
    batches of 6, which do not cover the quantity and come cheaper than the
    10^17 batches of 1 it computes, and it orders the batches of 6. *)
Lemma order_from_supplier_beyond_range :
  let qty := 10 ^ 17 + 1 in
  let a := sample_offering 11 1 "A" 6 (1 # 1) in
  let b := sample_offering 12 2 "B" 1 (1 # 1) in
  candidates 1 None large_order_db = [a; b]
  /\ (cost_of qty b < cost_of qty a)%Q
  /\ minimum_qty qty a = Ok 16666666666666666
  /\ minimum_qty qty b = Ok (10 ^ 17)
  /\ order_from_supplier sample_api 1 qty None large_order_db = ([a], Ok a).
Proof. cbv zeta. repeat split; vm_compute; reflexivity. Qed.

Lemma initiate_stocktaking_chunks_witness :
  0 < 2
  /\ exists st db' new_chunks,
       initiate_stocktaking 2 catalog_db = Ok (st, db')
       /\ db_chunks db' = db_chunks catalog_db ++ new_chunks
       /\ Z.of_nat (length new_chunks) = 3.
Proof.
  split; [lia|].
  destruct (initiate_stocktaking_chunks 2 catalog_db ltac:(lia)) as [_ H].
  destruct H as (st & db' & new_chunks & new_items & Hrun & _ & Hchunks & _
                 & Hlen & _).
  - intros s Hs. apply elem_of_nil in Hs. contradiction.
  - exists st, db', new_chunks. split; [exact Hrun|]. split; [exact Hchunks|].
    rewrite Hlen. reflexivity.
Defined.

(** With a chunk size of 0 the call ends in a ValueError of [range], before
    any chunk is created. *)
Lemma initiate_stocktaking_zero_chunk_size :
  initiate_stocktaking 0 catalog_db
  = Raise (ValueError "range() arg 3 must not be zero").
Proof. reflexivity. Qed.

Lemma assign_free_stocktake_chunk_idempotent_witness :
  exists c db1,
    NoDup (map chunk_id (db_chunks counting_db))
    /\ assign_free_stocktake_chunk 7 2 counting_db = Ok (Some c, db1)
    /\ assign_free_stocktake_chunk 7 2 db1 = Ok (Some c, db1).
Proof.
  assert (Hnd : NoDup (map chunk_id (db_chunks counting_db)))
    by (apply (bool_decide_unpack _); vm_compute; exact I).
  do 2 eexists. split; [exact Hnd|].
  assert (Hfirst : assign_free_stocktake_chunk 7 2 counting_db
                   = Ok (Some {| chunk_id := 3; chunk_stocktake_id := 2;
                                 chunk_locked := false;
                                 chunk_owner_id := Some 7 |},
                         set_chunks
                           (save_row chunk_id
                              {| chunk_id := 3; chunk_stocktake_id := 2;
                                 chunk_locked := false;
                                 chunk_owner_id := Some 7 |}) counting_db))
    by (vm_compute; reflexivity).
  split; [exact Hfirst|].
  exact (proj1 (assign_free_stocktake_chunk_idempotent 7 2 counting_db)
               _ _ Hnd Hfirst).
Defined.


Lemma locked_chunk_has_no_owner_witness :
  reachable sample_api sample_defaults least_squares_slope counted_db
  /\ forall c, c ∈ db_chunks counted_db -> chunk_locked c = true ->
               chunk_owner_id c = None.
Proof.
  assert (Hreach : reachable sample_api sample_defaults least_squares_slope
                             counted_db).
  { unfold reachable.
    eapply rtc_l; [apply (step_create_product _ _ _ empty_db 1)|].
    eapply rtc_l;
      [eapply (step_initiate_stocktaking _ _ _ _ 10); vm_compute; reflexivity|].
    eapply rtc_l;
      [eapply (step_assign_free_stocktake_chunk _ _ _ _ 7 2);
       vm_compute; reflexivity|].
    eapply rtc_l;
      [eapply (step_finalize_stocktake_chunk _ _ _ _ 3);
       vm_compute; reflexivity|].
    apply rtc_refl. }
  split; [exact Hreach|].
  intros c.
  exact (proj2 (locked_chunk_has_no_owner sample_api sample_defaults
                  least_squares_slope) counted_db c Hreach).
Defined.

Lemma get_supplier_product_refresh_keeps_cache_witness :
  is_Some (db_supplier_products offerings_db !! (1, "C"))
  /\ get_supplier_product sample_api sample_defaults 1 "C" true offerings_db
     = Ok (None, offerings_db).
Proof.
  split; [vm_compute; eauto|].
  apply (get_supplier_product_refresh_keeps_cache sample_api sample_defaults
           1 "C" offerings_db
           {| supplier_id := 1; supplier_internal_name := "north" |});
    reflexivity.
Defined.

(** * Further properties of the module *)

(** ** Rows and primary keys *)

Lemma save_row_pks {A : Type} (pk : A -> Z) (r : A) (l : list A) :
  map pk (save_row pk r l) = map pk l.
Proof.
  induction l as [|x l IH]; simpl; [reflexivity|]. rewrite IH.
  destruct (Z.eqb_spec (pk x) (pk r)) as [Heq|_]; [rewrite Heq|]; reflexivity.
Qed.

(** After [save_row], the rows with the key of the saved row are copies of
    it. *)
Lemma filter_pk_save_row {A : Type} (pk : A -> Z) (r : A) (l : list A) :
  filter (fun x => (pk x =? pk r) = true) (save_row pk r l)
  = map (fun _ => r) (filter (fun x => (pk x =? pk r) = true) l).
Proof.
  induction l as [|x l IH]; simpl; [reflexivity|].
  destruct (Z.eqb_spec (pk x) (pk r)) as [Heq|Hne].
  - rewrite !filter_cons_True by (apply Z.eqb_eq; congruence).
    simpl. f_equal. exact IH.
  - rewrite !filter_cons_False by (rewrite Z.eqb_eq; congruence).
    exact IH.
Qed.

Lemma objects_get_save_row {A : Type} (model : string) (pk : A -> Z)
    (r r0 : A) (l : list A) :
  objects_get model (fun x => pk x =? pk r) l = Ok r0 ->
  objects_get model (fun x => pk x =? pk r) (save_row pk r l) = Ok r.
Proof.
  intros H. apply objects_get_Ok in H. unfold objects_get.
  rewrite filter_pk_save_row, H. reflexivity.
Qed.

Lemma save_row_other {A : Type} (pk : A -> Z) (r x : A) (l : list A) :
  x ∈ l -> pk x <> pk r -> x ∈ save_row pk r l.
Proof.
  intros Hx Hne. unfold save_row. apply list_elem_of_fmap.
  exists x. split; [|exact Hx].
  destruct (Z.eqb_spec (pk x) (pk r)); [contradiction|reflexivity].
Qed.

Lemma save_row_elem {A : Type} (pk : A -> Z) (r x : A) (l : list A) :
  x ∈ save_row pk r l -> x = r \/ (x ∈ l /\ pk x <> pk r).
Proof.
  unfold save_row. intros H. apply list_elem_of_fmap in H as (y & -> & Hy).
  destruct (Z.eqb_spec (pk y) (pk r)); [left; reflexivity|right; tauto].
Qed.

Lemma save_row_present {A : Type} (pk : A -> Z) (r r0 : A) (l : list A) :
  r0 ∈ l -> pk r0 = pk r -> r ∈ save_row pk r l.
Proof.
  intros Hin Hpk. unfold save_row. apply list_elem_of_fmap.
  exists r0. split; [|exact Hin]. rewrite Hpk, Z.eqb_refl. reflexivity.
Qed.

(** Rows with the same key of a table with distinct keys are the same
    row. *)
Lemma NoDup_pk_eq {A : Type} (pk : A -> Z) (l : list A) (x y : A) :
  NoDup (map pk l) -> x ∈ l -> y ∈ l -> pk x = pk y -> x = y.
Proof.
  induction l as [|z l IH]; intros Hnd Hx Hy Hpk; [inversion Hx|].
  simpl in Hnd. apply NoDup_cons in Hnd as [Hz Hnd].
  apply elem_of_cons in Hx as [->|Hx]; apply elem_of_cons in Hy as [->|Hy].
  - reflexivity.
  - exfalso. apply Hz. rewrite Hpk. apply list_elem_of_fmap. eauto.
  - exfalso. apply Hz. rewrite <- Hpk. apply list_elem_of_fmap. eauto.
  - apply IH; assumption.
Qed.

(** ** Finishing chunks *)

(** X1. A chunk is finished once.  A successful [finalize_stocktake_chunk]
    leaves the chunk locked and without owner and every other chunk as it
    was, and a second call for the same chunk fails with 'Chunk already
    locked.'. *)
Theorem finalize_stocktake_chunk_once (cid : Z) (db db' : DB) :
  finalize_stocktake_chunk cid db = Ok (tt, db') ->
  (exists c,
      objects_get "StocktakeChunk" (fun c => chunk_id c =? cid) (db_chunks db')
      = Ok c
      /\ chunk_locked c = true /\ chunk_owner_id c = None)
  /\ (forall c, c ∈ db_chunks db -> chunk_id c <> cid -> c ∈ db_chunks db')
  /\ finalize_stocktake_chunk cid db'
     = Raise (APIException "Chunk already locked.").
Proof.
  unfold finalize_stocktake_chunk at 1. intros H. bind_inv H as c0 Hc0.
  destruct (chunk_locked c0) eqn:Hl; [discriminate|].
  inversion H; subst db'; clear H.
  pose proof (objects_get_elem _ _ _ _ Hc0) as [_ Hid].
  apply Z.eqb_eq in Hid.
  set (c1 := {| chunk_id := chunk_id c0;
                chunk_stocktake_id := chunk_stocktake_id c0;
                chunk_locked := true; chunk_owner_id := None |}).
  assert (Hget : objects_get "StocktakeChunk" (fun c => chunk_id c =? cid)
                   (save_row chunk_id c1 (db_chunks db)) = Ok c1).
  { rewrite <- Hid in *.
    apply (objects_get_save_row _ chunk_id c1 c0). exact Hc0. }
  split; [exists c1; auto|]. split.
  - intros c Hc Hne. cbn. apply save_row_other; [exact Hc|].
    subst c1. simpl. congruence.
  - unfold finalize_stocktake_chunk. cbn [db_chunks set_chunks].
    fold c1. rewrite Hget. reflexivity.
Qed.

(** ** Assigning chunks *)

(** What a successful [assign_free_stocktake_chunk] returns: a row of the
    new chunk table, of the stocktake asked for and owned by the user; the
    keys of the table are as before. *)
Lemma assign_free_stocktake_chunk_Some uid sid db c db1 :
  assign_free_stocktake_chunk uid sid db = Ok (Some c, db1) ->
  c ∈ db_chunks db1
  /\ chunk_stocktake_id c = sid
  /\ chunk_owner_id c = Some uid
  /\ map chunk_id (db_chunks db1) = map chunk_id (db_chunks db).
Proof.
  unfold assign_free_stocktake_chunk. intros H.
  destruct (objects_get _ (owned_by sid uid) (db_chunks db)) as [c0|e] eqn:Hget.
  - inversion H; subst. apply objects_get_elem in Hget as [Hin Hown].
    unfold owned_by in Hown. apply andb_prop in Hown as [Hs Ho].
    apply Z.eqb_eq in Hs. apply bool_decide_eq_true in Ho. auto.
  - destruct e; try discriminate.
    destruct (first_by_pk chunk_id _) as [c0|] eqn:Hfirst; [|discriminate].
    inversion H; subst. clear H.
    apply first_by_pk_elem, list_elem_of_filter in Hfirst as [Hfree Hin].
    unfold free_in in Hfree. apply andb_prop in Hfree as [Hfree _].
    apply andb_prop in Hfree as [Hs _]. apply Z.eqb_eq in Hs.
    cbn. split; [|split; [exact Hs|split; [reflexivity|apply save_row_pks]]].
    eapply save_row_present; [exact Hin|reflexivity].
Qed.

(** X2. Two users never hold the same chunk.  When one user is given a chunk
    and then another user is given one, the two chunks differ. *)
Theorem assign_free_stocktake_chunk_exclusive (u1 u2 sid : Z) (db db1 db2 : DB)
    (c1 c2 : StocktakeChunk) :
  NoDup (map chunk_id (db_chunks db)) ->
  u1 <> u2 ->
  assign_free_stocktake_chunk u1 sid db = Ok (Some c1, db1) ->
  assign_free_stocktake_chunk u2 sid db1 = Ok (Some c2, db2) ->
  chunk_id c1 <> chunk_id c2.
Proof.
  intros Hnd Hne H1 H2 Hid.
  apply assign_free_stocktake_chunk_Some in H1 as (Hin1 & _ & Ho1 & Hpk1).
  rewrite <- Hpk1 in Hnd.
  unfold assign_free_stocktake_chunk in H2.
  destruct (objects_get _ (owned_by sid u2) (db_chunks db1)) as [c0|e] eqn:Hget.
  - inversion H2; subst. apply objects_get_elem in Hget as [Hin2 Hown].
    unfold owned_by in Hown. apply andb_prop in Hown as [_ Ho2].
    apply bool_decide_eq_true in Ho2.
    pose proof (NoDup_pk_eq chunk_id _ _ _ Hnd Hin1 Hin2 Hid) as ->.
    congruence.
  - destruct e; try discriminate.
    destruct (first_by_pk chunk_id _) as [c0|] eqn:Hfirst; [|discriminate].
    inversion H2; subst. clear H2. simpl in Hid.
    apply first_by_pk_elem, list_elem_of_filter in Hfirst as [Hfree Hin0].
    unfold free_in in Hfree. apply andb_prop in Hfree as [_ Ho0].
    apply bool_decide_eq_true in Ho0.
    pose proof (NoDup_pk_eq chunk_id _ _ _ Hnd Hin1 Hin0 Hid) as ->.
    congruence.
Qed.

(** ** What the operations leave alone *)

Lemma keeps_stocktaking_refl db : keeps_stocktaking db db.
Proof. unfold keeps_stocktaking. repeat split; lia. Qed.

Lemma keeps_stocktaking_trans db1 db2 db3 :
  keeps_stocktaking db1 db2 -> keeps_stocktaking db2 db3 ->
  keeps_stocktaking db1 db3.
Proof.
  intros (Hp1 & Hs1 & Hc1 & Hn1) (Hp2 & Hs2 & Hc2 & Hn2).
  unfold keeps_stocktaking. repeat split; try congruence. lia.
Qed.

Lemma for_each_keeps {A : Type} (body : DB -> A -> Result DB) (l : list A) :
  (forall db x db', body db x = Ok db' -> keeps_stocktaking db db') ->
  forall db db', for_each body db l = Ok db' -> keeps_stocktaking db db'.
Proof.
  intros Hbody. induction l as [|x l IH]; simpl; intros db db' H.
  - inversion H. apply keeps_stocktaking_refl.
  - bind_inv H as db1 H1.
    eapply keeps_stocktaking_trans; [eapply Hbody; exact H1|eauto].
Qed.

Lemma create_product_transaction_keeps pid ty qty reference db t db' :
  create_product_transaction pid ty qty reference db = Ok (t, db') ->
  keeps_stocktaking db db'.
Proof.
  unfold create_product_transaction. intros H. bind_inv H as p Hp.
  inversion H; subst. unfold keeps_stocktaking. cbn. repeat split; lia.
Qed.

Lemma correct_item_keeps db item db' :
  correct_item db item = Ok db' -> keeps_stocktaking db db'.
Proof.
  unfold correct_item. intros H. bind_inv H as p Hp. bind_inv H as r Hr.
  destruct r as [t db1]. inversion H; subst.
  eapply create_product_transaction_keeps; eassumption.
Qed.

Lemma correct_chunk_keeps db c db' :
  correct_chunk db c = Ok db' -> keeps_stocktaking db db'.
Proof. unfold correct_chunk. apply for_each_keeps, correct_item_keeps. Qed.

(** What a successful [finalize_stocktaking] did. *)
Lemma finalize_stocktaking_Ok sid db st db' :
  finalize_stocktaking sid db = Ok (st, db') ->
  exists st0 db1,
    objects_get "Stocktake" (fun s => stocktake_id s =? sid) (db_stocktakes db)
    = Ok st0
    /\ stocktake_locked st0 = false
    /\ st = {| stocktake_id := sid; stocktake_locked := true |}
    /\ keeps_stocktaking db db1
    /\ db' = set_stocktakes (save_row stocktake_id st) db1.
Proof.
  unfold finalize_stocktaking. intros H. bind_inv H as st0 Hst0.
  destruct (stocktake_locked st0) eqn:Hl; [discriminate|].
  destruct (negb _); [discriminate|].
  bind_inv H as db1 Hrun. inversion H; subst. clear H.
  pose proof (objects_get_elem _ _ _ _ Hst0) as [_ Hid].
  apply Z.eqb_eq in Hid. rewrite Hid.
  exists st0, db1. repeat split; try assumption.
  - eapply for_each_keeps; [|exact Hrun]. apply correct_chunk_keeps.
  - eapply for_each_keeps; [|exact Hrun]. apply correct_chunk_keeps.
  - eapply for_each_keeps; [|exact Hrun]. apply correct_chunk_keeps.
  - eapply for_each_keeps; [|exact Hrun]. apply correct_chunk_keeps.
Qed.

(** What a successful [initiate_stocktaking] did. *)
Lemma initiate_stocktaking_Ok chunk_size db st db' :
  initiate_stocktaking chunk_size db = Ok (st, db') ->
  unlocked_stocktakes db = []
  /\ st = {| stocktake_id := db_next_id db; stocktake_locked := false |}
  /\ exists groups,
       db' = add_stocktake_rows
               (built_chunks (db_next_id db) (db_next_id db + 1) groups)
               (built_items (db_next_id db + 1) groups)
               (next_after (db_next_id db + 1) groups)
               (set_stocktakes (fun t => t ++ [st]) (snd (fresh_id db))).
Proof.
  unfold initiate_stocktaking, unlocked_stocktakes. intros H.
  destruct (filter _ (db_stocktakes db)) as [|s l]; [|discriminate].
  split; [reflexivity|]. simpl in H. bind_inv H as starts Hstarts.
  inversion H; subst. clear H. split; [reflexivity|].
  rewrite initiate_loop_rows. eexists. reflexivity.
Qed.

Lemma initiate_stocktaking_succeeds chunk_size db :
  0 < chunk_size -> unlocked_stocktakes db = [] ->
  exists st db', initiate_stocktaking chunk_size db = Ok (st, db').
Proof.
  unfold initiate_stocktaking, unlocked_stocktakes. intros Hsize ->.
  simpl. unfold py_range.
  destruct (Z.eqb_spec chunk_size 0); [lia|].
  destruct (Z.ltb_spec 0 chunk_size); [|lia].
  cbn [bind]. eauto.
Qed.

(** ** One stocktake at a time *)

(** X4. A second stocktake cannot be initiated.  After a successful
    [initiate_stocktaking], a further call fails with 'Stock-taking already
    in progress.', whatever the chunk size. *)
Theorem initiate_stocktaking_twice (chunk_size chunk_size' : Z) (db db' : DB)
    (st : Stocktake) :
  initiate_stocktaking chunk_size db = Ok (st, db') ->
  initiate_stocktaking chunk_size' db'
  = Raise (APIException "Stock-taking already in progress.").
Proof.
  intros H. apply initiate_stocktaking_Ok in H as (_ & -> & groups & ->).
  unfold initiate_stocktaking. cbn [db_stocktakes add_stocktake_rows
    set_stocktakes fresh_id snd].
  rewrite filter_app, filter_cons_True by reflexivity.
  rewrite length_app. cbn [length filter].
  destruct (length _ + _ =? 0)%nat eqn:Hz; [|reflexivity].
  apply Nat.eqb_eq in Hz. rewrite filter_nil in Hz. simpl in Hz. lia.
Qed.

(** X5. A stocktake is finalized once.  After a successful
    [finalize_stocktaking], a second call for the same stocktake fails with
    'Stock-taking already finished.' and records no further correction. *)
Theorem finalize_stocktaking_twice (sid : Z) (db db' : DB) (st : Stocktake) :
  finalize_stocktaking sid db = Ok (st, db') ->
  finalize_stocktaking sid db'
  = Raise (APIException "Stock-taking already finished.").
Proof.
  intros H.
  apply finalize_stocktaking_Ok in H
    as (st0 & db1 & Hget & _ & -> & (_ & Hs & _) & ->).
  unfold finalize_stocktaking. cbn [db_stocktakes set_stocktakes].
  rewrite Hs.
  pose proof (objects_get_save_row "Stocktake" stocktake_id
                {| stocktake_id := sid; stocktake_locked := true |} st0
                (db_stocktakes db) Hget) as Hget'.
  cbn [stocktake_id] in Hget'. rewrite Hget'. reflexivity.
Qed.

Lemma save_row_locked_unlocked (st : Stocktake) (l : list Stocktake) :
  stocktake_locked st = true ->
  (length (filter (fun s => stocktake_locked s = false)
                  (save_row stocktake_id st l))
   <= length (filter (fun s => stocktake_locked s = false) l))%nat.
Proof.
  intros Hst. induction l as [|x l IH]; simpl; [lia|].
  destruct (stocktake_id x =? stocktake_id st).
  - rewrite filter_cons_False by congruence.
    destruct (stocktake_locked x) eqn:Hx.
    + rewrite filter_cons_False by congruence. exact IH.
    + rewrite filter_cons_True by exact Hx. simpl. lia.
  - destruct (stocktake_locked x) eqn:Hx.
    + rewrite !filter_cons_False by congruence. exact IH.
    + rewrite !filter_cons_True by exact Hx. simpl. lia.
Qed.

(** X6. Finalizing the open stocktake frees the way for the next one.  When
    every other stocktake is locked, a successful [finalize_stocktaking]
    leaves no unlocked stocktake, and [initiate_stocktaking] with a positive
    chunk size succeeds afterwards. *)
Theorem finalize_then_initiate_stocktaking (sid chunk_size : Z) (db db' : DB)
    (st : Stocktake) :
  0 < chunk_size ->
  (forall s, s ∈ db_stocktakes db -> stocktake_id s <> sid ->
             stocktake_locked s = true) ->
  finalize_stocktaking sid db = Ok (st, db') ->
  unlocked_stocktakes db' = []
  /\ exists st' db'', initiate_stocktaking chunk_size db' = Ok (st', db'').
Proof.
  intros Hsize Hothers H.
  apply finalize_stocktaking_Ok in H
    as (st0 & db1 & Hget & _ & -> & (_ & Hs & _) & ->).
  assert (Hnone : unlocked_stocktakes
                    (set_stocktakes
                       (save_row stocktake_id
                          {| stocktake_id := sid; stocktake_locked := true |})
                       db1) = []).
  { unfold unlocked_stocktakes. cbn [db_stocktakes set_stocktakes].
    rewrite Hs. apply unlocked_stocktakes_nil. intros s Hin.
    apply save_row_elem in Hin as [->|[Hin Hne]]; [reflexivity|].
    apply Hothers; assumption. }
  split; [exact Hnone|].
  apply initiate_stocktaking_succeeds; assumption.
Qed.

(** ** Invariants of reachable databases *)

Lemma fresh_keys_nil db db' : fresh_keys db db' [].
Proof. split; constructor. Qed.

Lemma step_effect_same db db' :
  db_next_id db <= db_next_id db' ->
  map product_id (db_products db') = map product_id (db_products db) ->
  map chunk_id (db_chunks db') = map chunk_id (db_chunks db) ->
  map stocktake_id (db_stocktakes db') = map stocktake_id (db_stocktakes db) ->
  (length (unlocked_stocktakes db') <= length (unlocked_stocktakes db))%nat ->
  step_effect db db'.
Proof.
  intros Hn Hp Hc Hs Hu. unfold step_effect. split; [exact Hn|].
  split; [exists []; rewrite app_nil_r; split; [exact Hp|apply fresh_keys_nil]|].
  split; [exists []; rewrite app_nil_r; split; [exact Hc|apply fresh_keys_nil]|].
  left. split; assumption.
Qed.

Lemma keeps_stocktaking_effect db db' :
  keeps_stocktaking db db' -> step_effect db db'.
Proof.
  intros (Hp & Hs & Hc & Hn).
  apply step_effect_same; [exact Hn|congruence|congruence|congruence|].
  unfold unlocked_stocktakes. rewrite Hs. lia.
Qed.

Lemma built_chunks_lt sid next groups c :
  c ∈ built_chunks sid next groups -> chunk_id c < next_after next groups.
Proof.
  revert next. induction groups as [|g groups IH]; simpl; intros next Hc.
  - inversion Hc.
  - assert (Hmono : forall gs n, n <= next_after n gs).
    { clear. induction gs as [|g gs IH]; simpl; intros n; [lia|].
      specialize (IH (n + group_span g)). pose proof (group_span_pos g). lia. }
    apply elem_of_cons in Hc as [->|Hc]; [|apply IH; exact Hc].
    simpl. specialize (Hmono groups (next + group_span g)).
    pose proof (group_span_pos g). lia.
Qed.

Lemma next_after_ge next groups : next <= next_after next groups.
Proof.
  revert next. induction groups as [|g groups IH]; simpl; intros next; [lia|].
  specialize (IH (next + group_span g)). pose proof (group_span_pos g). lia.
Qed.

Lemma initiate_stocktaking_effect chunk_size db st db' :
  initiate_stocktaking chunk_size db = Ok (st, db') -> step_effect db db'.
Proof.
  intros H. apply initiate_stocktaking_Ok in H as (Hnone & -> & groups & ->).
  pose proof (next_after_ge (db_next_id db + 1) groups) as Hnext.
  unfold step_effect.
  cbn [db_next_id db_products db_chunks db_stocktakes add_stocktake_rows
       set_stocktakes fresh_id snd].
  split; [lia|].
  split; [exists []; rewrite app_nil_r; split;
          [reflexivity|apply fresh_keys_nil]|].
  split.
  - exists (map chunk_id
                (built_chunks (db_next_id db) (db_next_id db + 1) groups)).
    split; [apply map_app|]. split; [apply built_chunks_NoDup|].
    apply Forall_map. apply Forall_forall. intros c Hc. simpl.
    pose proof (built_chunks_ge _ _ _ _ Hc).
    pose proof (built_chunks_lt _ _ _ _ Hc). lia.
  - right. split; [exact Hnone|]. split; [reflexivity|lia].
Qed.

Lemma finalize_stocktaking_effect sid db st db' :
  finalize_stocktaking sid db = Ok (st, db') -> step_effect db db'.
Proof.
  intros H.
  apply finalize_stocktaking_Ok in H
    as (st0 & db1 & _ & _ & -> & (Hp & Hs & Hc & Hn) & ->).
  apply step_effect_same; cbn [db_next_id db_products db_chunks db_stocktakes
                               set_stocktakes].
  - exact Hn.
  - congruence.
  - congruence.
  - rewrite save_row_pks. congruence.
  - unfold unlocked_stocktakes. cbn [db_stocktakes set_stocktakes].
    rewrite Hs. apply save_row_locked_unlocked. reflexivity.
Qed.

Lemma finalize_stocktake_chunk_effect cid db db' :
  finalize_stocktake_chunk cid db = Ok (tt, db') -> step_effect db db'.
Proof.
  unfold finalize_stocktake_chunk. intros H. bind_inv H as c Hc.
  destruct (chunk_locked c); [discriminate|]. inversion H; subst.
  apply step_effect_same; cbn; [lia|reflexivity|apply save_row_pks
                               |reflexivity|reflexivity].
Qed.

Lemma assign_free_stocktake_chunk_effect uid sid db r db' :
  assign_free_stocktake_chunk uid sid db = Ok (r, db') -> step_effect db db'.
Proof.
  unfold assign_free_stocktake_chunk. intros H.
  destruct (objects_get _ _ _) as [c|e].
  - inversion H; subst. apply keeps_stocktaking_effect, keeps_stocktaking_refl.
  - destruct e; try discriminate.
    destruct (first_by_pk _ _) as [c|].
    + inversion H; subst.
      apply step_effect_same; cbn; [lia|reflexivity|apply save_row_pks
                                   |reflexivity|reflexivity].
    + inversion H; subst.
      apply keeps_stocktaking_effect, keeps_stocktaking_refl.
Qed.

Lemma finalize_stocktake_chunk_finished cid db db' :
  finalize_stocktake_chunk cid db = Ok (tt, db') -> finished_chunk cid db'.
Proof.
  unfold finalize_stocktake_chunk. intros H. bind_inv H as c0 Hc0.
  destruct (chunk_locked c0); [discriminate|]. inversion H; subst.
  apply objects_get_elem in Hc0 as [Hin0 Hcid]. apply Z.eqb_eq in Hcid.
  eexists. split.
  - cbn [db_chunks set_chunks].
    eapply save_row_present; [exact Hin0|reflexivity].
  - cbn. auto.
Qed.

Lemma same_chunks_finished cid db db' :
  db_chunks db' = db_chunks db -> finished_chunk cid db ->
  finished_chunk cid db'.
Proof. unfold finished_chunk. intros ->. tauto. Qed.

(** Saving a row over an unlocked one leaves the finished chunks as they
    are. *)
Lemma save_row_keeps_finished cid c0 c' db :
  NoDup (map chunk_id (db_chunks db)) ->
  c0 ∈ db_chunks db -> chunk_locked c0 = false ->
  chunk_id c' = chunk_id c0 ->
  finished_chunk cid db ->
  finished_chunk cid (set_chunks (save_row chunk_id c') db).
Proof.
  intros Hnd Hin0 Hunlocked Hid (c & Hin & Hcid & Hlocked & Howner).
  exists c. cbn [db_chunks set_chunks]. split; [|auto].
  apply save_row_other; [exact Hin|]. intros Heq.
  assert (c = c0)
    by (apply (NoDup_pk_eq chunk_id _ _ _ Hnd Hin Hin0); congruence).
  congruence.
Qed.

Lemma finalize_stocktake_chunk_keeps_finished cid cid' db db' :
  NoDup (map chunk_id (db_chunks db)) ->
  finalize_stocktake_chunk cid' db = Ok (tt, db') ->
  finished_chunk cid db -> finished_chunk cid db'.
Proof.
  intros Hnd H Hfin. unfold finalize_stocktake_chunk in H.
  bind_inv H as c0 Hc0.
  destruct (chunk_locked c0) eqn:Hunlocked; [discriminate|].
  inversion H; subst. apply objects_get_elem in Hc0 as [Hin0 _].
  apply (save_row_keeps_finished cid c0); auto.
Qed.

Lemma assign_free_stocktake_chunk_keeps_finished cid uid sid db r db' :
  NoDup (map chunk_id (db_chunks db)) ->
  assign_free_stocktake_chunk uid sid db = Ok (r, db') ->
  finished_chunk cid db -> finished_chunk cid db'.
Proof.
  intros Hnd H Hfin. unfold assign_free_stocktake_chunk in H.
  destruct (objects_get _ _ _) as [c|e].
  - inversion H; subst. exact Hfin.
  - destruct e; try discriminate.
    destruct (first_by_pk _ _) as [c0|] eqn:Hfirst.
    + inversion H; subst.
      apply first_by_pk_elem, list_elem_of_filter in Hfirst as [Hfree Hin0].
      unfold free_in in Hfree. apply andb_prop in Hfree as [Hfree _].
      apply andb_prop in Hfree as [_ Hunlocked].
      apply negb_true_iff in Hunlocked.
      apply (save_row_keeps_finished cid c0); auto.
    + inversion H; subst. exact Hfin.
Qed.

Lemma initiate_stocktaking_keeps_finished cid chunk_size db st db' :
  initiate_stocktaking chunk_size db = Ok (st, db') ->
  finished_chunk cid db -> finished_chunk cid db'.
Proof.
  intros H (c & Hin & Hc).
  apply initiate_stocktaking_Ok in H as (_ & _ & groups & ->).
  exists c. split; [|exact Hc].
  cbn [db_chunks add_stocktake_rows set_stocktakes].
  apply elem_of_app. left. exact Hin.
Qed.

Lemma keeps_stocktaking_finished cid db db' :
  keeps_stocktaking db db' -> finished_chunk cid db -> finished_chunk cid db'.
Proof. intros (_ & _ & Hc & _). apply same_chunks_finished. exact Hc. Qed.

Section ReachableFacts.
Variable get_supplier_api : string -> SupplierAPI.
Variable sp_defaults : SupplierProduct.
Variable svr_coef : list Z -> list Z -> Q.

Lemma get_supplier_product_keeps sid sku refresh db r db' :
  get_supplier_product get_supplier_api sp_defaults sid sku refresh db
  = Ok (r, db') ->
  keeps_stocktaking db db'.
Proof.
  assert (Hfetch : forall r db',
             fetch_supplier_product get_supplier_api sp_defaults sid sku db
             = Ok (r, db') -> keeps_stocktaking db db').
  { clear r db'. intros r db'. unfold fetch_supplier_product. intros H.
    bind_inv H as s Hs. destruct (retrieve_product _ sku).
    - unfold update_or_create in H.
      destruct (db_supplier_products db !! (sid, sku)); inversion H; subst;
        unfold keeps_stocktaking; cbn; repeat split; lia.
    - inversion H; subst. apply keeps_stocktaking_refl. }
  unfold get_supplier_product. destruct refresh; [apply Hfetch|].
  destruct (db_supplier_products db !! (sid, sku)); [|apply Hfetch].
  intros H; inversion H; subst. apply keeps_stocktaking_refl.
Qed.

Lemma populate_item_keeps d s db item db' :
  populate_item get_supplier_api sp_defaults d s db item = Ok db' ->
  keeps_stocktaking db db'.
Proof.
  unfold populate_item. intros H. bind_inv H as a Hget. destruct a as [r db1].
  apply get_supplier_product_keeps in Hget. destruct r as [sp|].
  - destruct (sp_qty_multiplier sp =? 0); [discriminate|].
    inversion H; subst. eapply keeps_stocktaking_trans; [exact Hget|].
    unfold keeps_stocktaking. cbn. repeat split; lia.
  - inversion H; subst. exact Hget.
Qed.

Lemma process_item_keeps db item db' :
  process_item db item = Ok db' -> keeps_stocktaking db db'.
Proof.
  unfold process_item. destruct (delivery_item_product db item); [|discriminate].
  intros H. bind_inv H as a Hget. destruct a as [t db1]. inversion H; subst.
  eapply create_product_transaction_keeps; eassumption.
Qed.

(** Every step of the module has the effect described by [step_effect]. *)
Lemma step_step_effect db db' :
  step get_supplier_api sp_defaults svr_coef db db' -> step_effect db db'.
Proof.
  intros Hstep. destruct Hstep as
    [ db t | db id qty | db s | db d | db category
    | db pid category db' H | db pid ty qty reference t db' H
    | db tid reference db' H | db tid reference db' H
    | db sid sku refresh r db' H | db did d db' H | db did db' H
    | db chunk_size s db' H | db sid s db' H | db cid db' H
    | db uid sid r db' H | db pid db' H ].
  - apply keeps_stocktaking_effect. unfold keeps_stocktaking. cbn.
    repeat split; lia.
  - apply keeps_stocktaking_effect. unfold keeps_stocktaking. cbn.
    repeat split; lia.
  - apply keeps_stocktaking_effect. unfold keeps_stocktaking. cbn.
    repeat split; lia.
  - apply keeps_stocktaking_effect. unfold keeps_stocktaking. cbn.
    repeat split; lia.
  - (* create_product: one product with the next key *)
    unfold step_effect, unlocked_stocktakes. cbn. split; [lia|]. split.
    + exists [db_next_id db]. split; [apply map_app|]. split.
      * apply NoDup_singleton.
      * constructor; [cbn; lia|constructor].
    + split; [exists []; rewrite app_nil_r; split;
              [reflexivity|apply fresh_keys_nil]|].
      left. split; [reflexivity|lia].
  - (* update_product *)
    unfold update_product in H. bind_inv H as p Hp. inversion H; subst.
    apply step_effect_same; cbn; [lia|apply save_row_pks|reflexivity
                                 |reflexivity|reflexivity].
  - apply keeps_stocktaking_effect.
    eapply create_product_transaction_keeps; exact H.
  - unfold finalize_product_transaction, change_product_transaction in H.
    bind_inv H as t Ht. bind_inv H as t' Ht'. inversion H; subst.
    apply keeps_stocktaking_effect. unfold keeps_stocktaking. cbn.
    repeat split; lia.
  - unfold cancel_product_transaction, change_product_transaction in H.
    bind_inv H as t Ht. bind_inv H as t' Ht'. inversion H; subst.
    apply keeps_stocktaking_effect. unfold keeps_stocktaking. cbn.
    repeat split; lia.
  - apply keeps_stocktaking_effect.
    eapply get_supplier_product_keeps; exact H.
  - unfold populate_delivery in H.
    bind_inv H as dl Hdl. bind_inv H as sup Hsup. bind_inv H as db1 Hdb1.
    inversion H; subst. apply keeps_stocktaking_effect.
    eapply for_each_keeps; [|exact Hdb1]. apply populate_item_keeps.
  - unfold process_delivery in H. bind_inv H as dl Hdl.
    destruct (negb (delivery_valid db dl)); [discriminate|].
    bind_inv H as db1 Hdb1. inversion H; subst.
    apply keeps_stocktaking_effect.
    eapply keeps_stocktaking_trans.
    + eapply for_each_keeps; [|exact Hdb1]. apply process_item_keeps.
    + unfold keeps_stocktaking. cbn. repeat split; lia.
  - eapply initiate_stocktaking_effect; exact H.
  - eapply finalize_stocktaking_effect; exact H.
  - eapply finalize_stocktake_chunk_effect; exact H.
  - eapply assign_free_stocktake_chunk_effect; exact H.
  - unfold update_out_of_stock_forecast in H.
    bind_inv H as p Hp. bind_inv H as f Hf. inversion H; subst.
    apply step_effect_same; cbn; [lia|apply save_row_pks|reflexivity
                                 |reflexivity|reflexivity].
Qed.

Lemma fresh_keys_extend db db' old new :
  db_next_id db <= db_next_id db' ->
  NoDup old -> Forall (fun k => k < db_next_id db) old ->
  fresh_keys db db' new ->
  NoDup (old ++ new) /\ Forall (fun k => k < db_next_id db') (old ++ new).
Proof.
  intros Hn Hnd Hold (Hnew & Hbound). split.
  - apply NoDup_app. split; [exact Hnd|]. split; [|exact Hnew].
    intros k Hk Hk'. rewrite Forall_forall in Hold, Hbound.
    specialize (Hold k Hk). specialize (Hbound k Hk'). simpl in *. lia.
  - apply Forall_app. split.
    + eapply Forall_impl; [exact Hold|]. simpl. intros k Hk. lia.
    + eapply Forall_impl; [exact Hbound|]. simpl. intros k Hk. lia.
Qed.

Lemma step_effect_keys db db' :
  step_effect db db' -> keys_inv db -> keys_inv db'.
Proof.
  intros (Hn & (newp & Hp & Hfp) & (newc & Hc & Hfc) & Hs)
         (Hndp & Hnds & Hndc & Hbp & Hbs & Hbc).
  destruct (fresh_keys_extend db db' _ _ Hn Hndp Hbp Hfp) as [Hp1 Hp2].
  destruct (fresh_keys_extend db db' _ _ Hn Hndc Hbc Hfc) as [Hc1 Hc2].
  unfold keys_inv. rewrite Hp, Hc.
  assert (Hstock : NoDup (map stocktake_id (db_stocktakes db'))
                   /\ Forall (fun k => k < db_next_id db')
                             (map stocktake_id (db_stocktakes db'))).
  { destruct Hs as [[Hs _]|(_ & Hs & Hlt)].
    - rewrite Hs. split; [exact Hnds|].
      eapply Forall_impl; [exact Hbs|]. simpl. intros k Hk. lia.
    - rewrite Hs, map_app. simpl.
      apply (fresh_keys_extend db db'); [exact Hn|exact Hnds|exact Hbs|].
      split; [apply NoDup_singleton|]. constructor; [lia|constructor]. }
  destruct Hstock as [Hs1 Hs2]. repeat split; assumption.
Qed.

Lemma step_effect_chunk_keys db db' :
  step_effect db db' -> chunk_keys_inv db -> chunk_keys_inv db'.
Proof.
  intros (Hn & _ & (newc & Hc & Hfc) & _) (Hnd & Hb).
  unfold chunk_keys_inv. rewrite Hc.
  apply (fresh_keys_extend db db'); assumption.
Qed.

Lemma step_effect_single db db' :
  step_effect db db' ->
  (length (unlocked_stocktakes db) <= 1)%nat ->
  (length (unlocked_stocktakes db') <= 1)%nat.
Proof.
  intros (_ & _ & _ & [[_ Hu]|(Hnone & Hs & _)]) Hone; [lia|].
  unfold unlocked_stocktakes in *. rewrite Hs, filter_app, Hnone.
  rewrite filter_cons_True by reflexivity. rewrite filter_nil. simpl. lia.
Qed.

(** X7. Primary keys stay distinct.  In every database reachable from the
    empty one the keys of the products, of the stocktakes and of the chunks
    are pairwise distinct and below the key counter. *)
Theorem reachable_keys_distinct (db : DB) :
  reachable get_supplier_api sp_defaults svr_coef db -> keys_inv db.
Proof.
  unfold reachable. revert db. apply (rtc_ind_r keys_inv).
  - unfold keys_inv. cbn. repeat split; constructor.
  - intros db1 db2 _ Hstep IH.
    eapply step_effect_keys; [apply step_step_effect; exact Hstep|exact IH].
Qed.

(** X8. At most one stocktake is open.  In every database reachable from the
    empty one at most one stocktake is unlocked. *)
Theorem reachable_single_open_stocktake (db : DB) :
  reachable get_supplier_api sp_defaults svr_coef db ->
  (length (unlocked_stocktakes db) <= 1)%nat.
Proof.
  unfold reachable. revert db.
  apply (rtc_ind_r (fun db => (length (unlocked_stocktakes db) <= 1)%nat)).
  - cbn. lia.
  - intros db1 db2 _ Hstep IH.
    eapply step_effect_single; [apply step_step_effect; exact Hstep|exact IH].
Qed.
(** No step of the module opens a finished chunk again. *)
Lemma step_keeps_finished cid db db' :
  NoDup (map chunk_id (db_chunks db)) ->
  step get_supplier_api sp_defaults svr_coef db db' ->
  finished_chunk cid db -> finished_chunk cid db'.
Proof.
  intros Hnd Hstep. destruct Hstep as
    [ db t | db id qty | db s | db d | db category
    | db pid category db' H | db pid ty qty reference t db' H
    | db tid reference db' H | db tid reference db' H
    | db sid sku refresh r db' H | db did d db' H | db did db' H
    | db chunk_size s db' H | db sid s db' H | db cid' db' H
    | db uid sid r db' H | db pid db' H ].
  - apply same_chunks_finished. reflexivity.
  - apply same_chunks_finished. reflexivity.
  - apply same_chunks_finished. reflexivity.
  - apply same_chunks_finished. reflexivity.
  - apply same_chunks_finished. reflexivity.
  - unfold update_product in H. bind_inv H as p Hp. inversion H; subst.
    apply same_chunks_finished. reflexivity.
  - apply keeps_stocktaking_finished.
    eapply create_product_transaction_keeps; exact H.
  - unfold finalize_product_transaction, change_product_transaction in H.
    bind_inv H as t Ht. bind_inv H as t' Ht'. inversion H; subst.
    apply same_chunks_finished. reflexivity.
  - unfold cancel_product_transaction, change_product_transaction in H.
    bind_inv H as t Ht. bind_inv H as t' Ht'. inversion H; subst.
    apply same_chunks_finished. reflexivity.
  - apply keeps_stocktaking_finished.
    eapply get_supplier_product_keeps; exact H.
  - unfold populate_delivery in H.
    bind_inv H as dl Hdl. bind_inv H as sup Hsup. bind_inv H as db1 Hdb1.
    inversion H; subst. apply keeps_stocktaking_finished.
    eapply for_each_keeps; [|exact Hdb1]. apply populate_item_keeps.
  - unfold process_delivery in H. bind_inv H as dl Hdl.
    destruct (negb (delivery_valid db dl)); [discriminate|].
    bind_inv H as db1 Hdb1. inversion H; subst.
    intros Hfin. apply (same_chunks_finished cid db1); [reflexivity|].
    revert Hfin. apply keeps_stocktaking_finished.
    eapply for_each_keeps; [|exact Hdb1]. apply process_item_keeps.
  - eapply initiate_stocktaking_keeps_finished; exact H.
  - apply finalize_stocktaking_Ok in H
      as (st0 & db1 & _ & _ & _ & Hkeeps & ->).
    intros Hfin. apply (same_chunks_finished cid db1); [reflexivity|].
    revert Hfin. apply keeps_stocktaking_finished. exact Hkeeps.
  - eapply finalize_stocktake_chunk_keeps_finished; eassumption.
  - eapply assign_free_stocktake_chunk_keeps_finished; eassumption.
  - unfold update_out_of_stock_forecast in H.
    bind_inv H as p Hp. bind_inv H as f Hf. inversion H; subst.
    apply same_chunks_finished. reflexivity.
Qed.

(** X3. A finished chunk is not handed out again.  Once a chunk has been
    finalized, in a database whose chunk keys are distinct and below the
    key counter (as they are in every reachable database), no call of
    [assign_free_stocktake_chunk] returns it, in the database the
    finalization leaves or in any database reached from it by further
    steps of the module. *)
Theorem assign_free_stocktake_chunk_skips_finished (cid uid sid : Z)
    (db db1 db2 db3 : DB) (c : StocktakeChunk) :
  NoDup (map chunk_id (db_chunks db)) ->
  Forall (fun k => k < db_next_id db) (map chunk_id (db_chunks db)) ->
  finalize_stocktake_chunk cid db = Ok (tt, db1) ->
  rtc (step get_supplier_api sp_defaults svr_coef) db1 db2 ->
  assign_free_stocktake_chunk uid sid db2 = Ok (Some c, db3) ->
  chunk_id c <> cid.
Proof.
  intros Hnd0 Hbound Hfin Hlater Hassign Hid.
  assert (Hkeys : chunk_keys_inv db) by (split; assumption).
  assert (Hinv : chunk_keys_inv db2 /\ finished_chunk cid db2).
  { clear Hassign. revert db2 Hlater.
    apply (rtc_ind_r (fun d => chunk_keys_inv d /\ finished_chunk cid d)).
    - split.
      + eapply step_effect_chunk_keys; [|exact Hkeys].
        eapply finalize_stocktake_chunk_effect; exact Hfin.
      + eapply finalize_stocktake_chunk_finished; exact Hfin.
    - intros d d' _ Hstep [Hk Hf]. split.
      + eapply step_effect_chunk_keys;
          [apply step_step_effect; exact Hstep|exact Hk].
      + eapply step_keeps_finished; [|exact Hstep|exact Hf]. apply Hk. }
  destruct Hinv as [[Hnd _] (c1 & Hin1 & Hcid1 & Hlocked1 & Howner1)].
  unfold assign_free_stocktake_chunk in Hassign.
  destruct (objects_get _ (owned_by sid uid) _) as [c2|e] eqn:Hget.
  - inversion Hassign; subst. apply objects_get_elem in Hget as [Hin2 Hown].
    unfold owned_by in Hown. apply andb_prop in Hown as [_ Ho2].
    apply bool_decide_eq_true in Ho2.
    assert (c = c1)
      by (apply (NoDup_pk_eq chunk_id _ _ _ Hnd Hin2 Hin1); congruence).
    congruence.
  - destruct e; try discriminate.
    destruct (first_by_pk chunk_id _) as [c2|] eqn:Hfirst; [|discriminate].
    inversion Hassign; subst. clear Hassign. simpl in Hcid1.
    apply first_by_pk_elem, list_elem_of_filter in Hfirst as [Hfree Hin2].
    assert (c2 = c1)
      by (apply (NoDup_pk_eq chunk_id _ _ _ Hnd Hin2 Hin1); congruence).
    subst c2.
    unfold free_in in Hfree. apply andb_prop in Hfree as [Hfree _].
    apply andb_prop in Hfree as [_ Hunlocked].
    rewrite Hlocked1 in Hunlocked. discriminate.
Qed.
End ReachableFacts.

(** ** Reading back what was written *)

Lemma filter_other_save_row {A : Type} (pk : A -> Z) (r : A) (k : Z)
    (l : list A) :
  k <> pk r ->
  filter (fun x => (pk x =? k) = true) (save_row pk r l)
  = filter (fun x => (pk x =? k) = true) l.
Proof.
  intros Hne. induction l as [|x l IH]; simpl; [reflexivity|].
  destruct (Z.eqb_spec (pk x) (pk r)) as [Heq|Hne'].
  - rewrite !filter_cons_False by (rewrite Z.eqb_eq; congruence). exact IH.
  - destruct (Z.eqb_spec (pk x) k) as [Hk|Hk].
    + rewrite !filter_cons_True by (apply Z.eqb_eq; exact Hk).
      f_equal. exact IH.
    + rewrite !filter_cons_False by (rewrite Z.eqb_eq; exact Hk). exact IH.
Qed.

Lemma filter_pk_fresh {A : Type} (pk : A -> Z) (k : Z) (l : list A) :
  k ∉ map pk l -> filter (fun x => (pk x =? k) = true) l = [].
Proof.
  intros H. apply (filter_none (fun x => pk x =? k)). intros x Hx.
  apply Z.eqb_neq. intros Heq. apply H. rewrite <- Heq.
  apply list_elem_of_fmap. eauto.
Qed.

(** X9. A created product can be read back.  When the product keys are below
    the key counter, [get_product] finds the product that [create_product]
    has just created and answers for every other key as before; for a key
    no product has, it answers None. *)
Theorem get_product_created (category : Z) (db : DB) :
  Forall (fun k => k < db_next_id db) (map product_id (db_products db)) ->
  let product_obj := fst (create_product category db) in
  let db' := snd (create_product category db) in
  get_product (product_id product_obj) db' = Ok (Some product_obj)
  /\ get_product (product_id product_obj) db = Ok None
  /\ forall pid, pid <> product_id product_obj ->
                 get_product pid db' = get_product pid db.
Proof.
  intros Hbound product_obj db'. subst product_obj db'.
  unfold create_product. cbn [fst snd fresh_id product_id].
  assert (Hfresh : db_next_id db ∉ map product_id (db_products db)).
  { intros Hin. rewrite Forall_forall in Hbound.
    specialize (Hbound _ Hin). simpl in Hbound. lia. }
  unfold get_product, get_product_row, objects_get.
  cbn [db_products set_products].
  split; [|split].
  - rewrite filter_app, (filter_pk_fresh product_id _ _ Hfresh).
    rewrite filter_cons_True by (apply Z.eqb_refl). reflexivity.
  - rewrite (filter_pk_fresh product_id _ _ Hfresh). reflexivity.
  - intros pid Hne. rewrite filter_app.
    rewrite filter_cons_False by (cbn; rewrite Z.eqb_eq; congruence).
    rewrite filter_nil, app_nil_r. reflexivity.
Qed.

(** X10. An update can be read back and touches one product.  After a
    successful [update_product], [get_product] returns the product with the
    new category and its old forecast, and answers for every other key as
    before; for a key no product has, [update_product] raises DoesNotExist
    where [get_product] answers None. *)
Theorem update_product_read_back (pid category : Z) (db : DB) :
  (forall db',
      update_product pid category db = Ok (tt, db') ->
      (exists p,
          get_product pid db = Ok (Some p)
          /\ get_product pid db'
             = Ok (Some {| product_id := pid; product_category := category;
                           product_out_of_stock_forecast :=
                             product_out_of_stock_forecast p |}))
      /\ forall pid', pid' <> pid -> get_product pid' db' = get_product pid' db)
  /\ (get_product pid db = Ok None ->
      update_product pid category db = Raise (DoesNotExist "Product")).
Proof.
  split.
  - intros db' H. unfold update_product in H. bind_inv H as p Hp.
    inversion H; subst db'; clear H.
    pose proof (get_product_row_id _ _ _ Hp) as Hid.
    set (p' := {| product_id := product_id p; product_category := category;
                  product_out_of_stock_forecast :=
                    product_out_of_stock_forecast p |}).
    split.
    + exists p. unfold get_product. rewrite Hp. split; [reflexivity|].
      unfold get_product_row in *. cbn [db_products set_products].
      rewrite <- Hid in *.
      pose proof (objects_get_save_row "Product" product_id p' p _ Hp)
        as Hget.
      subst p'. cbn [product_id] in Hget. rewrite Hget. reflexivity.
    + intros pid' Hne. unfold get_product, get_product_row, objects_get.
      cbn [db_products set_products].
      rewrite (filter_other_save_row product_id p' pid')
        by (subst p'; simpl; congruence).
      reflexivity.
  - unfold get_product, update_product, get_product_row, objects_get.
    destruct (filter _ (db_products db)) as [|p1 [|p2 rest]];
      [reflexivity|discriminate|discriminate].
Qed.

Lemma refers_to_pending reference reference' tid pid ty qty now :
  refers_to reference'
    {| trx_id := tid; trx_product_id := pid; trx_type := ty; trx_qty := qty;
       trx_date_created := now;
       trx_states := [ {| state_status := PENDING;
                          state_reference := reference |} ] |}
  = bool_decide (reference = Some reference').
Proof. unfold refers_to. simpl. apply orb_false_r. Qed.

(** X11. A transaction is found by its reference.  After
    [create_product_transaction] with a reference,
    [get_product_transactions_by_ref] for that reference returns what it
    returned before followed by the new transaction, and for every other
    reference what it returned before. *)
Theorem create_product_transaction_by_ref (pid qty : Z) (ty : TrxType)
    (reference : option (ContentType * Z)) (db db' : DB)
    (t : ProductTransaction) :
  create_product_transaction pid ty qty reference db = Ok (t, db') ->
  forall r,
    get_product_transactions_by_ref r db'
    = get_product_transactions_by_ref r db
      ++ (if bool_decide (reference = Some r) then [t] else []).
Proof.
  unfold create_product_transaction. intros H r. bind_inv H as p Hp.
  inversion H; subst; clear H.
  unfold get_product_transactions_by_ref. cbn [db_transactions set_transactions
    fresh_id].
  rewrite filter_app. f_equal.
  destruct (bool_decide (reference = Some r)) eqn:Hr.
  - rewrite filter_cons_True by (rewrite refers_to_pending; exact Hr).
    reflexivity.
  - rewrite filter_cons_False
      by (rewrite refers_to_pending, Hr; discriminate).
    reflexivity.
Qed.

(** ** The audit trail of a stock-taking *)

Lemma correction_refers db it t k :
  correction_for db it t ->
  refers_to (CT_StocktakeItem, k) t = bool_decide (item_id it = k).
Proof.
  intros (_ & _ & _ & Hstates). unfold refers_to. rewrite Hstates. simpl.
  rewrite orb_false_r. apply bool_decide_ext. split; congruence.
Qed.

Lemma corrections_of_others db items ts k :
  Forall2 (correction_for db) items ts ->
  k ∉ map item_id items ->
  filter (fun t => refers_to (CT_StocktakeItem, k) t = true) ts = [].
Proof.
  induction 1 as [|it t items ts Hc Hrest IH]; intros Hk; [reflexivity|].
  simpl in Hk. apply not_elem_of_cons in Hk as [Hne Hk].
  rewrite filter_cons_False; [apply IH; exact Hk|].
  rewrite (correction_refers _ _ _ _ Hc). rewrite bool_decide_eq_true.
  congruence.
Qed.

Lemma corrections_by_item db items ts it :
  Forall2 (correction_for db) items ts ->
  NoDup (map item_id items) -> it ∈ items ->
  exists t,
    filter (fun t => refers_to (CT_StocktakeItem, item_id it) t = true) ts = [t]
    /\ correction_for db it t.
Proof.
  induction 1 as [|i t items ts Hc Hrest IH]; intros Hnd Hin; [inversion Hin|].
  simpl in Hnd. apply NoDup_cons in Hnd as [Hi Hnd].
  apply elem_of_cons in Hin as [->|Hin].
  - exists t. split; [|exact Hc].
    rewrite filter_cons_True
      by (rewrite (correction_refers _ _ _ _ Hc); apply bool_decide_eq_true;
          reflexivity).
    f_equal. eapply corrections_of_others; eassumption.
  - destruct (IH Hnd Hin) as (t' & Hf & Hc'). exists t'. split; [|exact Hc'].
    rewrite filter_cons_False; [exact Hf|].
    rewrite (correction_refers _ _ _ _ Hc), bool_decide_eq_true.
    intros Heq. apply Hi. rewrite Heq. apply list_elem_of_fmap. eauto.
Qed.

(** X12. Every counted item can be traced to its correction.  After a
    successful [finalize_stocktaking] (items with products, the items of
    the stocktake with distinct keys), [get_product_transactions_by_ref]
    for an item of the stocktake returns what it returned before followed
    by exactly one transaction: the correction recorded for that item. *)
Theorem finalize_stocktaking_audit_trail (sid : Z) (db db' : DB)
    (st : Stocktake) (it : StocktakeItem) :
  items_have_products db = true ->
  NoDup (map item_id (stocktake_items db st)) ->
  finalize_stocktaking sid db = Ok (st, db') ->
  it ∈ stocktake_items db st ->
  exists t,
    get_product_transactions_by_ref (CT_StocktakeItem, item_id it) db'
    = get_product_transactions_by_ref (CT_StocktakeItem, item_id it) db ++ [t]
    /\ correction_for db it t.
Proof.
  intros Hprod Hnd Hrun Hit.
  unfold finalize_stocktaking in Hrun. bind_inv Hrun as st0 Hst0.
  destruct (stocktake_locked st0); [discriminate|].
  destruct (negb _); [discriminate|].
  bind_inv Hrun as db1 Hloop. inversion Hrun; subst st db'; clear Hrun.
  change (stocktake_items db
            {| stocktake_id := stocktake_id st0; stocktake_locked := true |})
    with (stocktake_items db st0) in *.
  fold (stocktake_chunks db st0) in Hloop.
  destruct (correct_chunks_spec db (stocktake_chunks db st0)) with (db := db)
    (ts0 := @nil ProductTransaction) as (db2 & ts & Hloop' & Hg & Hcs).
  { intros i Hi. apply items_have_products_elem; assumption. }
  { apply ledger_grows_refl. }
  rewrite Hloop in Hloop'. inversion Hloop'; subst db2; clear Hloop'.
  destruct Hg as (Ht & _).
  destruct (corrections_by_item db _ ts it Hcs Hnd Hit) as (t & Hf & Hc).
  exists t. split; [|exact Hc].
  unfold get_product_transactions_by_ref.
  cbn [db_transactions set_stocktakes]. rewrite Ht, filter_app, Hf.
  reflexivity.
Qed.

(** ** Processing a delivery *)

Lemma delivery_frame_refl db : delivery_frame db db [].
Proof. unfold delivery_frame. rewrite app_nil_r. repeat split. Qed.

Lemma delivery_frame_trans db1 db2 db3 ts1 ts2 :
  delivery_frame db1 db2 ts1 -> delivery_frame db2 db3 ts2 ->
  delivery_frame db1 db3 (ts1 ++ ts2).
Proof.
  intros (Ht1 & Hp1 & Hs1 & Hi1 & Hd1) (Ht2 & Hp2 & Hs2 & Hi2 & Hd2).
  unfold delivery_frame. rewrite Ht2, Ht1, <- app_assoc.
  repeat split; congruence.
Qed.

Lemma delivery_frame_item_product db db' ts it :
  delivery_frame db db' ts ->
  delivery_item_product db' it = delivery_item_product db it.
Proof.
  intros (_ & _ & Hs & _).
  unfold delivery_item_product, supplier_product_by_id, supplier_product_rows.
  rewrite Hs. reflexivity.
Qed.

Lemma delivery_frame_product_row db db' ts pid :
  delivery_frame db db' ts -> get_product_row pid db' = get_product_row pid db.
Proof.
  intros (_ & Hp & _). unfold get_product_row. rewrite Hp. reflexivity.
Qed.

(** One delivery item: the body of the loop. *)
Lemma process_item_inv db it db' :
  process_item db it = Ok db' ->
  exists pid p t,
    delivery_item_product db it = Some pid
    /\ get_product_row pid db = Ok p
    /\ delivery_frame db db' [t]
    /\ inventory_for db it t.
Proof.
  unfold process_item.
  destruct (delivery_item_product db it) as [pid|] eqn:Hpid; [|discriminate].
  intros H. bind_inv H as r Hr. destruct r as [t db1].
  inversion H; subst db1; clear H.
  unfold create_product_transaction in Hr. bind_inv Hr as p Hp.
  pose proof (get_product_row_id _ _ _ Hp) as Hid.
  injection Hr as <- <-.
  exists pid, p. eexists. split; [reflexivity|]. split; [exact Hp|]. split.
  - unfold delivery_frame. cbn. repeat split.
  - unfold inventory_for. cbn. rewrite Hid. repeat split. exact Hpid.
Qed.

Lemma process_item_run db it pid p :
  delivery_item_product db it = Some pid ->
  get_product_row pid db = Ok p ->
  exists db', process_item db it = Ok db'.
Proof.
  intros Hpid Hp. unfold process_item, create_product_transaction.
  rewrite Hpid, Hp. cbn [bind fresh_id]. eauto.
Qed.

Lemma inventory_for_frame db0 db ts0 it t :
  delivery_frame db0 db ts0 -> inventory_for db it t -> inventory_for db0 it t.
Proof.
  intros Hf (H1 & H2 & H3 & H4). unfold inventory_for.
  rewrite <- (delivery_frame_item_product _ _ _ it Hf). auto.
Qed.

Lemma process_items_inv db0 items :
  forall db ts0 db',
    delivery_frame db0 db ts0 ->
    for_each process_item db items = Ok db' ->
    exists ts,
      delivery_frame db db' ts
      /\ Forall2 (inventory_for db0) items ts
      /\ Forall (fun it => exists pid p,
                     delivery_item_product db0 it = Some pid
                     /\ get_product_row pid db0 = Ok p) items.
Proof.
  induction items as [|it items IH]; intros db ts0 db' Hf Hrun.
  - inversion Hrun; subst. exists []. split; [apply delivery_frame_refl|].
    split; constructor.
  - cbn [for_each] in Hrun. bind_inv Hrun as db1 H1.
    destruct (process_item_inv _ _ _ H1) as (pid & p & t & Hpid & Hp & Hf1 & Hi).
    destruct (IH db1 (ts0 ++ [t]) db'
                 (delivery_frame_trans _ _ _ _ _ Hf Hf1) Hrun)
      as (ts & Hf' & Hrel & Hex).
    exists ([t] ++ ts). split; [eapply delivery_frame_trans; eassumption|].
    split.
    + constructor; [|exact Hrel]. eapply inventory_for_frame; eassumption.
    + constructor; [|exact Hex]. exists pid, p.
      rewrite <- (delivery_frame_item_product _ _ _ it Hf).
      rewrite <- (delivery_frame_product_row _ _ _ pid Hf). auto.
Qed.

Lemma process_items_run db0 items :
  Forall (fun it => exists pid p,
              delivery_item_product db0 it = Some pid
              /\ get_product_row pid db0 = Ok p) items ->
  forall db ts0,
    delivery_frame db0 db ts0 ->
    exists db', for_each process_item db items = Ok db'.
Proof.
  induction 1 as [|it items (pid & p & Hpid & Hp) Hrest IH]; intros db ts0 Hf.
  - exists db. reflexivity.
  - rewrite <- (delivery_frame_item_product _ _ _ it Hf) in Hpid.
    rewrite <- (delivery_frame_product_row _ _ _ pid Hf) in Hp.
    destruct (process_item_run db it pid p Hpid Hp) as [db1 H1].
    destruct (process_item_inv _ _ _ H1) as (_ & _ & t & _ & _ & Hf1 & _).
    destruct (IH db1 (ts0 ++ [t]) (delivery_frame_trans _ _ _ _ _ Hf Hf1))
      as [db' Hrun].
    exists db'. cbn [for_each]. rewrite H1. exact Hrun.
Qed.

Lemma delivery_valid_products db delivery :
  delivery_valid db delivery = true ->
  delivery_products_exist db delivery ->
  Forall (fun it => exists pid p,
              delivery_item_product db it = Some pid
              /\ get_product_row pid db = Ok p)
         (delivery_items_of db delivery).
Proof.
  intros Hvalid Hexist. apply Forall_forall. intros it Hit.
  unfold delivery_valid in Hvalid. rewrite forallb_forall in Hvalid.
  specialize (Hvalid it (proj1 (list_elem_of_In _ _) Hit)).
  apply bool_decide_eq_true in Hvalid as [pid Hpid].
  destruct (Hexist it pid Hit Hpid) as [p Hp]. eauto.
Qed.

(** X13. A valid delivery becomes stock movements.  For a delivery that is
    valid and whose products exist, [process_delivery] succeeds whether or
    not the delivery is locked: it appends, for every item of the delivery
    in order, one pending INVENTORY transaction with the quantity of the
    item, for the product of the item and referring to the item, and it
    locks the delivery. *)
Theorem process_delivery_transactions (did : Z) (db : DB) (delivery : Delivery) :
  objects_get "Delivery" (fun d => delivery_id d =? did) (db_deliveries db)
  = Ok delivery ->
  delivery_valid db delivery = true ->
  delivery_products_exist db delivery ->
  exists db' ts,
    process_delivery did db = Ok (tt, db')
    /\ db_transactions db' = db_transactions db ++ ts
    /\ Forall2 (inventory_for db) (delivery_items_of db delivery) ts
    /\ db_deliveries db'
       = save_row delivery_id (lock_delivery delivery) (db_deliveries db).
Proof.
  intros Hd Hvalid Hexist.
  pose proof (delivery_valid_products db delivery Hvalid Hexist) as Hitems.
  destruct (process_items_run db _ Hitems db [] (delivery_frame_refl db))
    as [db1 Hrun].
  destruct (process_items_inv db _ db [] db1 (delivery_frame_refl db) Hrun)
    as (ts & (Ht & _ & _ & _ & Hdel) & Hrel & _).
  unfold process_delivery. rewrite Hd. cbn [bind]. rewrite Hvalid.
  cbn [negb]. rewrite Hrun. cbn [bind].
  do 2 eexists. split; [reflexivity|]. cbn.
  split; [exact Ht|]. split; [exact Hrel|]. rewrite Hdel. reflexivity.
Qed.

(** X14. A delivery can be processed again.  [process_delivery] does not look
    at the lock: after a successful call a second call for the same
    delivery succeeds too and appends as many transactions once more. *)
Theorem process_delivery_again (did : Z) (db db1 : DB) :
  process_delivery did db = Ok (tt, db1) ->
  exists db2 n,
    process_delivery did db1 = Ok (tt, db2)
    /\ length (db_transactions db1) = (length (db_transactions db) + n)%nat
    /\ length (db_transactions db2) = (length (db_transactions db1) + n)%nat.
Proof.
  intros H. unfold process_delivery in H. bind_inv H as d Hd.
  destruct (delivery_valid db d) eqn:Hvalid; [|discriminate].
  cbn [negb] in H. bind_inv H as db0 Hrun. inversion H; subst db1; clear H.
  destruct (process_items_inv db _ db [] db0 (delivery_frame_refl db) Hrun)
    as (ts & Hf & Hrel & Hex).
  pose proof Hf as (Ht & Hp & Hs & Hi & Hdel).
  pose proof (objects_get_elem _ _ _ _ Hd) as [_ Hid]. apply Z.eqb_eq in Hid.
  (* the second run sees the same delivery, locked, with the same items *)
  fold (lock_delivery d).
  set (db1 := set_deliveries (save_row delivery_id (lock_delivery d)) db0).
  assert (Hf1 : delivery_frame db db0 ts) by exact Hf.
  assert (Hd1 : objects_get "Delivery" (fun x => delivery_id x =? did)
                  (db_deliveries db1) = Ok (lock_delivery d)).
  { subst db1. cbn [db_deliveries set_deliveries]. rewrite Hdel.
    pose proof (objects_get_save_row "Delivery" delivery_id (lock_delivery d)
                  d (db_deliveries db)) as Hget.
    cbn [lock_delivery delivery_id] in Hget. rewrite Hid in Hget.
    apply Hget. exact Hd. }
  assert (Hitems1 : delivery_items_of db1 (lock_delivery d)
                    = delivery_items_of db d).
  { unfold delivery_items_of. subst db1. cbn. rewrite Hi. reflexivity. }
  assert (Hprod1 : forall it, delivery_item_product db1 it
                              = delivery_item_product db it).
  { intros it. unfold delivery_item_product, supplier_product_by_id,
      supplier_product_rows. subst db1. cbn. rewrite Hs. reflexivity. }
  assert (Hrow1 : forall pid, get_product_row pid db1 = get_product_row pid db).
  { intros pid. unfold get_product_row. subst db1. cbn. rewrite Hp.
    reflexivity. }
  assert (Hex1 : Forall (fun it => exists pid p,
                             delivery_item_product db1 it = Some pid
                             /\ get_product_row pid db1 = Ok p)
                        (delivery_items_of db1 (lock_delivery d))).
  { rewrite Hitems1. eapply Forall_impl; [exact Hex|]. simpl.
    intros it (pid & p & H1 & H2). exists pid, p.
    rewrite Hprod1, Hrow1. auto. }
  assert (Hvalid1 : delivery_valid db1 (lock_delivery d) = true).
  { unfold delivery_valid. apply forallb_forall. intros it Hit.
    apply list_elem_of_In in Hit. rewrite Forall_forall in Hex1.
    destruct (Hex1 it Hit) as (pid & _ & Hpid & _).
    apply bool_decide_eq_true. eauto. }
  destruct (process_items_run db1 _ Hex1 db1 [] (delivery_frame_refl db1))
    as [db2 Hrun2].
  destruct (process_items_inv db1 _ db1 [] db2 (delivery_frame_refl db1) Hrun2)
    as (ts2 & (Ht2 & _) & Hrel2 & _).
  exists (set_deliveries
            (save_row delivery_id (lock_delivery (lock_delivery d))) db2),
         (length (delivery_items_of db d)).
  split.
  - unfold process_delivery. rewrite Hd1. cbn [bind]. rewrite Hvalid1.
    cbn [negb]. rewrite Hrun2. reflexivity.
  - apply Forall2_length in Hrel, Hrel2. rewrite Hitems1 in Hrel2.
    subst db1. cbn [db_transactions set_deliveries] in *.
    rewrite Ht2, Ht, !length_app. lia.
Qed.

(** ** The catalog cache *)

Section CacheRoundTrip.
Variable get_supplier_api : string -> SupplierAPI.
Variable sp_defaults : SupplierProduct.

(** X15. A supplier product that was returned is served from the cache.
    When [get_supplier_product] returns a row (with or without [refresh]),
    the row is in the cache under (supplier, SKU), and the same call
    without [refresh] returns it again without changing the database; when
    it returns None, the database is as before, so a miss is not
    remembered. *)
Theorem get_supplier_product_cached (sid : Z) (sku : string) (refresh : bool)
    (db db' : DB) (r : option SupplierProduct) :
  get_supplier_product get_supplier_api sp_defaults sid sku refresh db
  = Ok (r, db') ->
  match r with
  | Some sp =>
      db_supplier_products db' !! (sid, sku) = Some sp
      /\ get_supplier_product get_supplier_api sp_defaults sid sku false db'
         = Ok (Some sp, db')
  | None => db' = db
  end.
Proof.
  assert (Hfetch : fetch_supplier_product get_supplier_api sp_defaults sid sku db
                   = Ok (r, db') ->
                   match r with
                   | Some sp => db_supplier_products db' !! (sid, sku) = Some sp
                   | None => db' = db
                   end).
  { unfold fetch_supplier_product. intros H. bind_inv H as s Hs.
    destruct (retrieve_product _ sku) as [pd|].
    - unfold update_or_create in H.
      destruct (db_supplier_products db !! (sid, sku));
        inversion H; subst; cbn; apply lookup_insert_eq.
    - inversion H; subst. reflexivity. }
  assert (Hhit : forall sp,
             db_supplier_products db' !! (sid, sku) = Some sp ->
             get_supplier_product get_supplier_api sp_defaults sid sku false db'
             = Ok (Some sp, db')).
  { intros sp Hsp. unfold get_supplier_product. rewrite Hsp. reflexivity. }
  unfold get_supplier_product. destruct refresh.
  - intros H. apply Hfetch in H. destruct r; auto.
  - destruct (db_supplier_products db !! (sid, sku)) as [sp|] eqn:Hcache.
    + intros H. inversion H; subst. auto.
    + intros H. apply Hfetch in H. destruct r; auto.
Qed.

(** X16. A refresh renews the supplier's data and keeps the rest.  With
    [refresh] set, for a cached row and a supplier that knows the SKU, the
    call returns and stores the row with the supplier's name, price and
    units and with its old key, product, batch size and unit multiplier;
    every other row of the cache is as before. *)
Theorem get_supplier_product_refresh_updates (sid : Z) (sku : string)
    (db : DB) (supplier : Supplier) (old : SupplierProduct)
    (pd : ProductData) :
  objects_get "Supplier" (fun s => supplier_id s =? sid) (db_suppliers db)
  = Ok supplier ->
  retrieve_product (get_supplier_api (supplier_internal_name supplier)) sku
  = Some pd ->
  db_supplier_products db !! (sid, sku) = Some old ->
  exists sp db',
    get_supplier_product get_supplier_api sp_defaults sid sku true db
    = Ok (Some sp, db')
    /\ sp_name sp = pd_name pd /\ sp_price sp = pd_price pd
    /\ sp_units sp = pd_units pd
    /\ sp_id sp = sp_id old /\ sp_product_id sp = sp_product_id old
    /\ sp_qty sp = sp_qty old
    /\ sp_qty_multiplier sp = sp_qty_multiplier old
    /\ db_supplier_products db' !! (sid, sku) = Some sp
    /\ (forall key, key <> (sid, sku) ->
                    db_supplier_products db' !! key
                    = db_supplier_products db !! key)
    /\ db_next_id db' = db_next_id db.
Proof.
  intros Hs Hr Hold. unfold get_supplier_product, fetch_supplier_product.
  rewrite Hs. cbn [bind]. rewrite Hr. unfold update_or_create. rewrite Hold.
  do 2 eexists. split; [reflexivity|]. cbn.
  repeat split; try reflexivity.
  - apply lookup_insert_eq.
  - intros key Hne. apply lookup_insert_ne. congruence.
Qed.
End CacheRoundTrip.

(** ** Ordering *)

Lemma map_result_keys_snd qty products keyed :
  map_result (fun sp => let* c := cost qty sp in Ok (c, sp)) products
  = Ok keyed ->
  map snd keyed = products.
Proof.
  revert keyed. induction products as [|sp l IH]; intros keyed H.
  - inversion H; reflexivity.
  - cbn [map_result] in H. bind_inv H as y Hy. bind_inv H as ys Hys.
    inversion H; subst. bind_inv Hy as c Hc. inversion Hy; subst.
    simpl. f_equal. apply IH. exact Hys.
Qed.

Lemma sorted_by_cost_Ok_perm qty products sorted :
  sorted_by_cost qty products = Ok sorted -> sorted ≡ₚ products.
Proof.
  unfold sorted_by_cost. intros H. bind_inv H as keyed Hk.
  inversion H; subst. apply map_result_keys_snd in Hk.
  rewrite <- Hk. apply Permutation_map. apply sorted_by_key_perm.
Qed.

Lemma minimum_qty_zero qty sp :
  sp_qty sp = 0 -> minimum_qty qty sp = Raise ZeroDivisionError.
Proof. intros Hz. unfold minimum_qty, int_true_divide. rewrite Hz. reflexivity. Qed.

(** The only errors of [minimum_qty]: ZeroDivisionError for a batch size of
    0 and nothing else, OverflowError for a quotient beyond the doubles. *)
Lemma minimum_qty_cases qty sp :
  (exists m, minimum_qty qty sp = Ok m /\ sp_qty sp <> 0)
  \/ (minimum_qty qty sp = Raise ZeroDivisionError /\ sp_qty sp = 0)
  \/ (exists msg, minimum_qty qty sp = Raise (OverflowError msg)
                  /\ sp_qty sp <> 0).
Proof.
  unfold minimum_qty, int_true_divide.
  destruct (Z.eqb_spec (sp_qty sp) 0) as [Hz|Hnz]; [right; left; auto|].
  destruct (float_is_finite _); cbn [bind]; [left|right; right]; eauto.
Qed.

Lemma minimum_qty_finite qty sp :
  Z.abs qty < 2 ^ 1023 -> sp_qty sp <> 0 ->
  exists m, minimum_qty qty sp = Ok m.
Proof.
  intros Hqty Hnz. unfold minimum_qty.
  destruct (int_true_divide_finite qty (sp_qty sp) Hnz Hqty) as [x ->].
  cbn [bind]. eauto.
Qed.

(** With a batch size of 0 among the candidates the keys of the sort are
    not all computed: the first error raised is a ZeroDivisionError, or the
    OverflowError of an earlier candidate. *)
Lemma cost_keys_raise qty products :
  Exists (fun sp => sp_qty sp = 0) products ->
  exists e,
    map_result (fun sp => let* c := cost qty sp in Ok (c, sp)) products
    = Raise e
    /\ (e = ZeroDivisionError \/ exists msg, e = OverflowError msg).
Proof.
  induction products as [|sp l IH]; intros H; [inversion H|].
  cbn [map_result]. unfold cost at 1.
  destruct (minimum_qty_cases qty sp)
    as [(m & -> & Hnz)|[(-> & Hz)|(msg & -> & Hnz)]]; cbn [bind].
  - apply Exists_cons in H as [H|H]; [contradiction|].
    destruct (IH H) as (e & -> & He). cbn [bind]. eauto.
  - eauto.
  - eauto.
Qed.

Lemma cost_keys_zero qty products :
  Z.abs qty < 2 ^ 1023 ->
  Exists (fun sp => sp_qty sp = 0) products ->
  map_result (fun sp => let* c := cost qty sp in Ok (c, sp)) products
  = Raise ZeroDivisionError.
Proof.
  intros Hqty.
  induction products as [|sp l IH]; intros H; [inversion H|].
  cbn [map_result]. unfold cost at 1.
  destruct (Z.eq_dec (sp_qty sp) 0) as [Hz|Hnz].
  - rewrite (minimum_qty_zero qty sp Hz). reflexivity.
  - destruct (minimum_qty_finite qty sp Hqty Hnz) as [m ->]. cbn [bind].
    rewrite IH; [reflexivity|].
    apply Exists_cons in H as [H|H]; [contradiction|exact H].
Qed.

(** X17. The smallest number of batches is ordered.  For a quantity below
    2^53 in magnitude and an offering with a positive batch size below
    2^53, the range in which the double [qty / sp.qty] has the ceiling of
    the exact quotient, [minimum_qty] is the least number of batches that
    covers the quantity asked for; with a batch size of 0 it raises
    ZeroDivisionError, whatever the quantity. *)
Theorem minimum_qty_covers (qty : Z) (sp : SupplierProduct) :
  (Z.abs qty < 2 ^ 53 -> 0 < sp_qty sp < 2 ^ 53 ->
   exists m,
     minimum_qty qty sp = Ok m
     /\ qty <= m * sp_qty sp
     /\ (m - 1) * sp_qty sp < qty)
  /\ (sp_qty sp = 0 -> minimum_qty qty sp = Raise ZeroDivisionError).
Proof.
  split.
  - intros Hqty Hpos. exists (ceil_div qty (sp_qty sp)).
    split.
    + unfold minimum_qty.
      destruct (int_true_divide_small qty (sp_qty sp)
                  ltac:(lia) Hqty ltac:(lia)) as (x & -> & Hx).
      cbn [bind]. rewrite Hx. reflexivity.
    + pose proof (ceil_div_spec qty (sp_qty sp) ltac:(lia)). tauto.
  - apply minimum_qty_zero.
Qed.

(** Beyond that range the double falls short: for 10^17 + 1 units in
    batches of 6 the quotient rounds to 16666666666666666, and as many
    batches do not cover the quantity. *)
Lemma minimum_qty_beyond_range :
  minimum_qty (10 ^ 17 + 1) (sample_offering 11 1 "A" 6 (1 # 1))
  = Ok 16666666666666666
  /\ 16666666666666666 * 6 < 10 ^ 17 + 1.
Proof. split; vm_compute; reflexivity. Qed.

Section OrderingMore.
Variable get_supplier_api : string -> SupplierAPI.

Lemma order_loop_elem qty db products :
  forall prev,
    (forall sp, sp ∈ fst (order_loop get_supplier_api qty db prev products) ->
                sp ∈ products)
    /\ (forall sp, snd (order_loop get_supplier_api qty db prev products)
                   = Ok sp -> sp ∈ products).
Proof.
  induction products as [|p rest IH]; intros prev.
  - simpl. split; [intros sp H; inversion H|].
    destruct prev; discriminate.
  - cbn [order_loop].
    destruct (supplier_of db p) as [s|e];
      [|split; [intros sp H; inversion H|discriminate]].
    destruct (minimum_qty qty p) as [m|e];
      [|split; [intros sp H; inversion H|discriminate]].
    destruct (order_product _ (sp_sku p) m).
    + simpl. split.
      * intros sp H. apply list_elem_of_singleton in H as ->.
        apply list_elem_of_here.
      * intros sp H. inversion H; subst. apply list_elem_of_here.
    + destruct (IH (Some p)) as [IH1 IH2].
      destruct (order_loop get_supplier_api qty db (Some p) rest)
        as [attempts r].
      simpl in *. split.
      * intros sp H. apply elem_of_cons in H as [->|H];
          [apply list_elem_of_here|apply list_elem_of_further, IH1, H].
      * intros sp H. apply list_elem_of_further, IH2, H.
Qed.

Lemma candidates_elem pid sid db sp :
  sp ∈ candidates pid sid db ->
  sp_product_id sp = Some pid
  /\ match sid with Some s => sp_supplier_id sp = s | None => True end.
Proof.
  unfold candidates. destruct sid as [s|]; intros H.
  - apply list_elem_of_filter in H as [Hs H].
    apply list_elem_of_filter in H as [Hp _].
    apply Z.eqb_eq in Hs. auto.
  - apply list_elem_of_filter in H as [Hp _]. auto.
Qed.

Lemma order_from_supplier_candidate pid qty sid db sp :
  sp ∈ fst (order_from_supplier get_supplier_api pid qty sid db)
  \/ snd (order_from_supplier get_supplier_api pid qty sid db) = Ok sp ->
  sp ∈ candidates pid sid db.
Proof.
  intros H. unfold order_from_supplier in H.
  destruct (sorted_by_cost qty (candidates pid sid db)) as [products|e]
    eqn:Hsorted.
  - apply sorted_by_cost_Ok_perm in Hsorted. rewrite <- Hsorted.
    destruct (order_loop_elem qty db products None) as [H1 H2].
    destruct H as [H|H]; [apply H1, H|apply H2, H].
  - simpl in H. destruct H as [H|H]; [inversion H|discriminate].
Qed.

(** X18. Only offerings of the product asked for are ordered.  Every offering
    that [order_from_supplier] hands to a supplier, and so the offering it
    returns, is an offering of the requested product, and of the requested
    supplier when one is given. *)
Theorem order_from_supplier_offers_product (pid qty : Z) (sid : option Z)
    (db : DB) (sp : SupplierProduct) :
  sp ∈ fst (order_from_supplier get_supplier_api pid qty sid db)
  \/ snd (order_from_supplier get_supplier_api pid qty sid db) = Ok sp ->
  sp_product_id sp = Some pid
  /\ match sid with Some s => sp_supplier_id sp = s | None => True end.
Proof.
  intros H. apply (candidates_elem pid sid db).
  apply (order_from_supplier_candidate pid qty). exact H.
Qed.

(** X19. An offering with a batch size of 0 stops the order before it
    starts.  When some candidate has a batch size of 0, the call raises
    while the costs are computed, and no supplier has been asked.  The
    error is ZeroDivisionError for every quantity below 2^1023 in
    magnitude; beyond, it can be the OverflowError of a quotient that is
    too large for a double, raised for a candidate that comes first. *)
Theorem order_from_supplier_zero_batch (pid qty : Z) (sid : option Z) (db : DB) :
  Exists (fun sp => sp_qty sp = 0) (candidates pid sid db) ->
  (exists e,
     order_from_supplier get_supplier_api pid qty sid db = ([], Raise e)
     /\ (e = ZeroDivisionError \/ exists msg, e = OverflowError msg))
  /\ (Z.abs qty < 2 ^ 1023 ->
      order_from_supplier get_supplier_api pid qty sid db
      = ([], Raise ZeroDivisionError)).
Proof.
  intros H. unfold order_from_supplier, sorted_by_cost. split.
  - destruct (cost_keys_raise qty _ H) as (e & -> & He). cbn [bind]. eauto.
  - intros Hqty. rewrite (cost_keys_zero qty _ Hqty H). reflexivity.
Qed.
End OrderingMore.

(** On [zero_batch_db] the offering with a batch size of 0 is the last of
    four candidates: for 2^1100 units the quotient of the first candidate
    overflows, and the call ends in that OverflowError. *)
Lemma order_from_supplier_overflow :
  Exists (fun sp => sp_qty sp = 0) (candidates 1 None zero_batch_db)
  /\ order_from_supplier sample_api 1 (2 ^ 1100) None zero_batch_db
     = ([], Raise (OverflowError
                     "integer division result too large for a float")).
Proof.
  split; [apply (bool_decide_unpack _); vm_compute; exact I|].
  vm_compute. reflexivity.
Qed.

(** ** Refill *)

Lemma next_weekday_spec (d wd : Z) :
  0 <= wd < 7 -> 1 <= d -> d + 7 <= 3652059 ->
  exists d',
    next_weekday d wd = Some d'
    /\ d < d' <= d + 7
    /\ weekday d' = wd
    /\ (forall e, d < e < d' -> weekday e <> wd)
    /\ (weekday d = wd -> d' = d + 7).
Proof.
  intros Hwd Hd Hmax. unfold next_weekday, date_add, weekday.
  pose proof (Z.mod_pos_bound (d + 6) 7 ltac:(lia)) as Hw.
  pose proof (Z.div_mod (d + 6) 7 ltac:(lia)) as Hdm.
  set (w := (d + 6) mod 7) in *. set (q := (d + 6) / 7) in *.
  assert (Hday : forall k, 1 <= k <= 7 -> (d + k + 6) mod 7 = (w + k) mod 7).
  { intros k Hk. replace (d + k + 6) with (w + k + q * 7) by lia.
    apply Z.mod_add. lia. }
  destruct (Z.leb_spec (wd - w) 0) as [Hle|Hgt].
  - set (k := wd - w + 7).
    assert (Hk : 1 <= k <= 7) by (subst k; lia).
    replace (d + (wd - w + 7)) with (d + k) by (subst k; lia).
    destruct (Z.leb_spec 1 (d + k)); [|lia].
    destruct (Z.leb_spec (d + k) 3652059); [|lia].
    eexists. split; [reflexivity|]. split; [lia|]. split; [|split].
    + rewrite (Hday k Hk). subst k.
      replace (w + (wd - w + 7)) with (wd + 1 * 7) by lia.
      rewrite Z.mod_add by lia. apply Z.mod_small. lia.
    + intros e He Hwe.
      assert (Hj : 1 <= e - d <= 7) by lia.
      replace (e + 6) with (d + (e - d) + 6) in Hwe by lia.
      rewrite (Hday _ Hj) in Hwe.
      destruct (Z.lt_ge_cases (w + (e - d)) 7) as [Hlt|Hge].
      * rewrite Z.mod_small in Hwe by lia. subst k. lia.
      * replace (w + (e - d)) with (w + (e - d) - 7 + 1 * 7) in Hwe by lia.
        rewrite Z.mod_add in Hwe by lia.
        rewrite Z.mod_small in Hwe by lia. subst k. lia.
    + intros Heq. subst k. lia.
  - set (k := wd - w).
    assert (Hk : 1 <= k <= 7) by (subst k; lia).
    destruct (Z.leb_spec 1 (d + k)); [|lia].
    destruct (Z.leb_spec (d + k) 3652059); [|subst k; lia].
    eexists. split; [reflexivity|]. split; [subst k; lia|]. split; [|split].
    + rewrite (Hday k Hk). subst k.
      replace (w + (wd - w)) with wd by lia. apply Z.mod_small. lia.
    + intros e He Hwe.
      assert (Hj : 1 <= e - d <= 7) by (subst k; lia).
      replace (e + 6) with (d + (e - d) + 6) in Hwe by lia.
      rewrite (Hday _ Hj) in Hwe.
      rewrite Z.mod_small in Hwe by (subst k; lia). subst k. lia.
    + intros Heq. subst k. lia.
Qed.

(** X20. The next delivery day.  For a weekday from 0 to 6 and a date at
    least a week before the last date, [next_weekday] returns the first day
    strictly after the given one that falls on that weekday, at most seven
    days later (exactly seven when the given day falls on it). *)
Theorem next_weekday_next (d wd : Z) :
  0 <= wd < 7 -> 1 <= d -> d + 7 <= 3652059 ->
  exists d',
    next_weekday d wd = Some d'
    /\ d < d' <= d + 7
    /\ weekday d' = wd
    /\ (forall e, d < e < d' -> weekday e <> wd)
    /\ (weekday d = wd -> d' = d + 7).
Proof. apply next_weekday_spec. Qed.

Section RefillFacts.
Variable get_supplier_api : string -> SupplierAPI.
Variable delivers_on : Supplier -> Z.

(** X21. The refill looks one to two weeks ahead.  For an existing supplier
    that delivers on a weekday from 0 to 6, [order_refill] orders for the
    base levels whose product has a forecast before the second delivery
    day, which is the supplier's weekday and lies 8 to 14 days after
    today; a product without forecast is never ordered. *)
Theorem order_refill_window (sid : Z) (current_date : option Z)
    (base_levels : list BaseStockLevel) (db : DB) (supplier : Supplier) :
  objects_get "Supplier" (fun s => supplier_id s =? sid) (db_suppliers db)
  = Ok supplier ->
  0 <= delivers_on supplier < 7 ->
  1 <= today_of current_date db ->
  today_of current_date db + 14 <= 3652059 ->
  exists second_delivery,
    today_of current_date db + 8 <= second_delivery
      <= today_of current_date db + 14
    /\ weekday second_delivery = delivers_on supplier
    /\ order_refill get_supplier_api delivers_on sid current_date
         base_levels db
       = Some (refill_loop get_supplier_api sid db
                 (filter (fun bl => refill_due db second_delivery bl = true)
                         base_levels))
    /\ (forall bl p,
           List.find (fun p => product_id p =? bsl_product_id bl)
                     (db_products db) = Some p ->
           product_out_of_stock_forecast p = None ->
           refill_due db second_delivery bl = false).
Proof.
  intros Hs Hwd Htoday Hmax.
  destruct (next_weekday_spec (today_of current_date db)
              (delivers_on supplier) Hwd Htoday ltac:(lia))
    as (first & Hfirst & Hf1 & Hf2 & _ & _).
  destruct (next_weekday_spec first (delivers_on supplier) Hwd
              ltac:(lia) ltac:(lia))
    as (second & Hsecond & Hs1 & Hs2 & _ & Hs3).
  specialize (Hs3 Hf2). exists second.
  split; [lia|]. split; [exact Hs2|]. split.
  - unfold order_refill. rewrite Hs, Hfirst, Hsecond.
    pose proof (objects_get_elem _ _ _ _ Hs) as [_ Hid].
    apply Z.eqb_eq in Hid. rewrite Hid. reflexivity.
  - intros bl p Hfind Hnone. unfold refill_due. rewrite Hfind, Hnone.
    reflexivity.
Qed.

(** X22. One order per due base level, from the supplier of the refill.  When
    the loop of [order_refill] ends without exception, it returns one
    offering for every base level, in order, each an offering of the
    product of its base level and of the supplier; and every offering
    handed to a supplier on the way, whatever the outcome, is of that
    supplier. *)
Theorem refill_loop_orders (sid : Z) (db : DB)
    (base_levels : list BaseStockLevel) :
  (forall ordered,
      snd (refill_loop get_supplier_api sid db base_levels) = Ok ordered ->
      Forall2 (fun bl sp => sp_product_id sp = Some (bsl_product_id bl)
                            /\ sp_supplier_id sp = sid)
              base_levels ordered)
  /\ Forall (fun sp => sp_supplier_id sp = sid)
            (fst (refill_loop get_supplier_api sid db base_levels)).
Proof.
  induction base_levels as [|bl rest [IH1 IH2]].
  - simpl. split; [|constructor].
    intros ordered H. inversion H. constructor.
  - cbn [refill_loop].
    pose proof (fun sp =>
                  order_from_supplier_candidate get_supplier_api
                    (bsl_product_id bl) (bsl_level bl) (Some sid) db sp)
      as Hcand.
    destruct (order_from_supplier get_supplier_api (bsl_product_id bl)
                (bsl_level bl) (Some sid) db) as [attempts [sp|e]].
    + assert (Hatt : Forall (fun sp => sp_supplier_id sp = sid) attempts).
      { apply Forall_forall. intros sp' Hsp'.
        apply (candidates_elem (bsl_product_id bl) (Some sid) db).
        apply Hcand. left. exact Hsp'. }
      destruct (refill_loop get_supplier_api sid db rest) as [attempts' r].
      simpl in *. split.
      * intros ordered H. destruct r as [l|e]; [|discriminate].
        inversion H; subst. constructor; [|apply IH1; reflexivity].
        apply (candidates_elem (bsl_product_id bl) (Some sid) db).
        apply Hcand. right. reflexivity.
      * apply Forall_app. split; assumption.
    + simpl. split; [discriminate|].
      apply Forall_forall. intros sp' Hsp'.
      apply (candidates_elem (bsl_product_id bl) (Some sid) db).
      apply Hcand. left. exact Hsp'.
Qed.

(** X23. A failed order ends the refill.  When the orders for the first base
    levels succeed and the next one raises, the refill raises that
    exception and returns no list, although the orders before it have been
    placed. *)
Theorem refill_loop_stops (sid : Z) (db : DB)
    (done rest : list BaseStockLevel) (bl : BaseStockLevel)
    (ordered : list SupplierProduct) (e : Exception) :
  snd (refill_loop get_supplier_api sid db done) = Ok ordered ->
  snd (order_from_supplier get_supplier_api (bsl_product_id bl)
         (bsl_level bl) (Some sid) db) = Raise e ->
  refill_loop get_supplier_api sid db (done ++ bl :: rest)
  = (fst (refill_loop get_supplier_api sid db done)
     ++ fst (order_from_supplier get_supplier_api (bsl_product_id bl)
               (bsl_level bl) (Some sid) db),
     Raise e)
  /\ length ordered = length done.
Proof.
  revert ordered. induction done as [|b done IH]; intros ordered Hdone Hbl.
  - simpl in Hdone. inversion Hdone; subst. cbn [app refill_loop fst].
    destruct (order_from_supplier get_supplier_api (bsl_product_id bl)
                (bsl_level bl) (Some sid) db) as [attempts r].
    simpl in Hbl. subst r. auto.
  - cbn [app refill_loop] in *.
    destruct (order_from_supplier get_supplier_api (bsl_product_id b)
                (bsl_level b) (Some sid) db) as [attempts [sp|e']];
      [|discriminate].
    destruct (refill_loop get_supplier_api sid db done) as [attempts' r]
      eqn:Hloop.
    destruct r as [l|e']; [|discriminate].
    simpl in Hdone. inversion Hdone; subst ordered.
    destruct (IH l eq_refl Hbl) as [IHrun IHlen].
    rewrite IHrun. cbn [fst]. rewrite app_assoc. simpl. auto.
Qed.
End RefillFacts.

(** ** The forecast series *)

Lemma add_to_day_days d q groups r :
  r ∈ add_to_day d q groups ->
  fst r = d \/ exists r0, r0 ∈ groups /\ fst r = fst r0.
Proof.
  induction groups as [|[d' q'] groups IH]; simpl; intros H.
  - apply list_elem_of_singleton in H as ->. left. reflexivity.
  - destruct (Z.eqb_spec d d') as [->|Hne].
    + apply elem_of_cons in H as [->|H].
      * left. reflexivity.
      * right. exists r. split; [apply list_elem_of_further, H|reflexivity].
    + destruct (d <? d').
      * apply elem_of_cons in H as [->|H]; [left; reflexivity|].
        right. exists r. split; [exact H|reflexivity].
      * apply elem_of_cons in H as [->|H].
        -- right. exists (d', q'). split; [apply list_elem_of_here|reflexivity].
        -- destruct (IH H) as [Hd|(r0 & Hr0 & Heq)]; [left; exact Hd|].
           right. exists r0. split; [apply list_elem_of_further, Hr0|exact Heq].
Qed.

Lemma group_by_day_days ts r :
  r ∈ group_by_day ts ->
  exists t, t ∈ ts /\ fst r = day_of (trx_date_created t).
Proof.
  unfold group_by_day.
  assert (Hgen : forall groups,
             r ∈ foldl (fun groups t =>
                          add_to_day (day_of (trx_date_created t))
                                     (trx_qty t) groups) groups ts ->
             (exists r0, r0 ∈ groups /\ fst r = fst r0)
             \/ exists t, t ∈ ts /\ fst r = day_of (trx_date_created t)).
  { induction ts as [|t ts IH]; simpl; intros groups H.
    - left. exists r. auto.
    - destruct (IH _ H) as [(r0 & Hr0 & Heq)|(t' & Ht' & Heq)].
      + apply add_to_day_days in Hr0 as [Hd|(r1 & Hr1 & Heq1)].
        * right. exists t. split; [apply list_elem_of_here|congruence].
        * left. exists r1. split; [exact Hr1|congruence].
      + right. exists t'. split; [apply list_elem_of_further, Ht'|exact Heq]. }
  intros H. destruct (Hgen [] H) as [(r0 & Hr0 & _)|Ht]; [inversion Hr0|exact Ht].
Qed.

Lemma data_points_days db restock_trx r :
  r ∈ data_points db restock_trx ->
  exists t, t ∈ db_transactions db /\ fst r = day_of (trx_date_created t).
Proof.
  unfold data_points. intros H.
  apply group_by_day_days in H as (t & Ht & Heq). exists t. split; [|exact Heq].
  apply list_elem_of_filter in Ht as [_ Ht]. unfold finalized in Ht.
  apply list_elem_of_filter in Ht as [_ Ht]. exact Ht.
Qed.

(** X24. Today's point is always appended.  The test [today_ordinal not in x]
    compares the ordinal of today with day offsets; for a ledger whose
    transactions are dated from day 1 on and not after today it never
    finds today, so the fitted series always ends with a zero delta at
    today's offset, also when today has a data point of its own. *)
Theorem series_appends_today (db : DB) (restock_trx : ProductTransaction)
    (initial_qty today first_date first_qty : Z) (rest : list (Z * Z)) :
  (forall t, t ∈ db_transactions db ->
             86400 <= trx_date_created t
             /\ day_of (trx_date_created t) <= today) ->
  data_points db restock_trx = (first_date, first_qty) :: rest ->
  series initial_qty today first_date (data_points db restock_trx)
  = ((-1 :: map (fun r => fst r - first_date) (data_points db restock_trx))
       ++ [today - first_date],
     (initial_qty :: map snd (data_points db restock_trx)) ++ [0]).
Proof.
  intros Hdated Hdata.
  assert (Hday : forall r, r ∈ data_points db restock_trx ->
                           1 <= fst r <= today).
  { intros r Hr. apply data_points_days in Hr as (t & Ht & ->).
    destruct (Hdated t Ht) as [Hlo Hhi]. split; [|exact Hhi].
    unfold day_of. apply Z.div_le_lower_bound; lia. }
  assert (Hfirst : 1 <= first_date <= today).
  { apply (Hday (first_date, first_qty)). rewrite Hdata.
    apply list_elem_of_here. }
  unfold series.
  destruct (bool_decide _) eqn:Hin; [|reflexivity].
  apply bool_decide_eq_true in Hin. exfalso.
  apply elem_of_cons in Hin as [Hin|Hin]; [lia|].
  apply list_elem_of_fmap in Hin as (r & Heq & Hr).
  specialize (Hday r Hr). lia.
Qed.

Lemma find_save_row {A : Type} (pk : A -> Z) (r r0 : A) (l : list A) :
  r0 ∈ l -> pk r0 = pk r ->
  List.find (fun x => pk x =? pk r) (save_row pk r l) = Some r.
Proof.
  intros Hin Hpk. induction l as [|x l IH]; [inversion Hin|].
  simpl. destruct (Z.eqb_spec (pk x) (pk r)) as [Heq|Hne].
  - simpl. rewrite Z.eqb_refl. reflexivity.
  - simpl. destruct (Z.eqb_spec (pk x) (pk r)); [contradiction|].
    apply IH. apply elem_of_cons in Hin as [->|Hin]; [contradiction|exact Hin].
Qed.

Section ForecastMore.
Variable svr_coef : list Z -> list Z -> Q.

(** X25. A product that is out of stock gets no forecast and no refill.  For
    a product whose quantity is 0 or less, [update_out_of_stock_forecast]
    stores the forecast None, whatever the ledger and the regression; the
    refill then passes over every base level of that product. *)
Theorem update_out_of_stock_forecast_empty_stock (pid : Z) (db : DB)
    (p : Product) :
  get_product_row pid db = Ok p ->
  product_qty db pid <= 0 ->
  exists db',
    update_out_of_stock_forecast svr_coef pid db = Ok (tt, db')
    /\ get_product pid db'
       = Ok (Some {| product_id := pid;
                     product_category := product_category p;
                     product_out_of_stock_forecast := None |})
    /\ forall second_delivery bl,
         bsl_product_id bl = pid ->
         refill_due db' second_delivery bl = false.
Proof.
  intros Hp Hqty. pose proof (get_product_row_id _ _ _ Hp) as Hid.
  unfold update_out_of_stock_forecast, predict_quantity.
  rewrite Hp. cbn [bind]. rewrite Hid.
  destruct (Z.leb_spec (product_qty db pid) 0) as [_|Hgt]; [|lia].
  cbn [bind]. eexists. split; [reflexivity|].
  set (p' := {| product_id := pid; product_category := product_category p;
                product_out_of_stock_forecast := None |}).
  assert (Hpk : product_id p = product_id p') by (subst p'; simpl; exact Hid).
  split.
  - unfold get_product, get_product_row in *. cbn [db_products set_products].
    pose proof (objects_get_save_row "Product" product_id p' p
                  (db_products db)) as Hget.
    cbn [product_id p'] in Hget. rewrite (Hget Hp). reflexivity.
  - intros second bl Hbl. unfold refill_due.
    cbn [db_products set_products]. rewrite Hbl.
    apply objects_get_elem in Hp as [Hin _].
    pose proof (find_save_row product_id p' p _ Hin Hpk) as Hfind.
    cbn [product_id p'] in Hfind. rewrite Hfind. reflexivity.
Qed.
End ForecastMore.

(** ** Listing products *)

(** X26. [limit] is where the listing ends, not how long it is.  With bounds
    [0 <= start <= limit], [list_products] returns the matching rows from
    position [start] up to, not including, position [limit]: at most
    [limit - start] rows, and none of the first [start]; a negative bound
    is refused. *)
Theorem list_products_slice (start limit : Z) (criteria : Product -> bool)
    (db : DB) :
  let matching := filter (fun p => criteria p = true) (db_products db) in
  (0 <= start <= limit ->
   exists rows,
     list_products (Some start) (Some limit) criteria db = Ok rows
     /\ rows = take (Z.to_nat (limit - start)) (drop (Z.to_nat start) matching)
     /\ Z.of_nat (length rows)
        = Z.max 0 (Z.min limit (Z.of_nat (length matching)) - start))
  /\ (start < 0 \/ limit < 0 ->
      list_products (Some start) (Some limit) criteria db
      = Raise (AssertionError "Negative indexing is not supported.")).
Proof.
  intros matching. split.
  - intros Hbounds. unfold list_products, queryset_slice. fold matching.
    destruct (Z.ltb_spec start 0); [lia|].
    destruct (Z.ltb_spec limit 0); [lia|]. cbn [orb].
    eexists. split; [reflexivity|].
    replace (Z.to_nat limit - Z.to_nat start)%nat
      with (Z.to_nat (limit - start)) by lia.
    split; [reflexivity|].
    rewrite length_take, length_drop. lia.
  - intros Hneg. unfold list_products, queryset_slice.
    destruct (Z.ltb_spec start 0); [reflexivity|].
    destruct (Z.ltb_spec limit 0); [reflexivity|lia].
Qed.

(** ** The further properties at sample data *)

Lemma finalize_stocktake_chunk_once_witness :
  finalize_stocktake_chunk 3 counting_db = Ok (tt, finished_db)
  /\ finalize_stocktake_chunk 3 finished_db
     = Raise (APIException "Chunk already locked.").
Proof.
  assert (H : finalize_stocktake_chunk 3 counting_db = Ok (tt, finished_db))
    by (vm_compute; reflexivity).
  split; [exact H|].
  exact (proj2 (proj2 (finalize_stocktake_chunk_once 3 counting_db
                         finished_db H))).
Defined.

Lemma assign_free_stocktake_chunk_exclusive_witness :
  exists c1 c2 db1 db2,
    assign_free_stocktake_chunk 7 2 counting_db = Ok (Some c1, db1)
    /\ assign_free_stocktake_chunk 8 2 db1 = Ok (Some c2, db2)
    /\ chunk_id c1 <> chunk_id c2.
Proof.
  do 4 eexists.
  split; [vm_compute; reflexivity|]. split; [vm_compute; reflexivity|].
  eapply (assign_free_stocktake_chunk_exclusive 7 8 2 counting_db).
  - apply (bool_decide_unpack _). vm_compute. exact I.
  - discriminate.
  - vm_compute. reflexivity.
  - vm_compute. reflexivity.
Defined.

Lemma assign_free_stocktake_chunk_skips_finished_witness :
  exists db1 db2 db3 c,
    NoDup (map chunk_id (db_chunks keyed_counting_db))
    /\ Forall (fun k => k < db_next_id keyed_counting_db)
              (map chunk_id (db_chunks keyed_counting_db))
    /\ finalize_stocktake_chunk 101 keyed_counting_db = Ok (tt, db1)
    /\ assign_free_stocktake_chunk 8 100 db1 = Ok (Some c, db2)
    /\ rtc (step sample_api sample_defaults least_squares_slope) db1 db2
    /\ exists c', assign_free_stocktake_chunk 7 100 db2 = Ok (Some c', db3)
                  /\ chunk_id c' = 107 /\ chunk_id c' <> 101.
Proof.
  assert (Hnd : NoDup (map chunk_id (db_chunks keyed_counting_db)))
    by (apply (bool_decide_unpack _); vm_compute; exact I).
  assert (Hbound : Forall (fun k => k < db_next_id keyed_counting_db)
                          (map chunk_id (db_chunks keyed_counting_db)))
    by (apply (bool_decide_unpack _); vm_compute; exact I).
  do 4 eexists. split; [exact Hnd|]. split; [exact Hbound|].
  split; [vm_compute; reflexivity|].
  split; [vm_compute; reflexivity|].
  match goal with
  | |- rtc _ ?d1 ?d2 /\ _ =>
      assert (Hstep : rtc (step sample_api sample_defaults
                             least_squares_slope) d1 d2)
  end.
  { eapply rtc_l; [|apply rtc_refl].
    eapply (step_assign_free_stocktake_chunk _ _ _ _ 8 100).
    vm_compute. reflexivity. }
  split; [exact Hstep|].
  eexists. split; [vm_compute; reflexivity|]. split; [reflexivity|].
  eapply (assign_free_stocktake_chunk_skips_finished sample_api
            sample_defaults least_squares_slope 101 7 100 keyed_counting_db
            _ _ _ _ Hnd Hbound); [|exact Hstep|].
  - vm_compute. reflexivity.
  - vm_compute. reflexivity.
Defined.

Lemma initiate_stocktaking_twice_witness :
  exists st,
    initiate_stocktaking 2 catalog_db = Ok (st, counting_db)
    /\ initiate_stocktaking 5 counting_db
       = Raise (APIException "Stock-taking already in progress.").
Proof.
  eexists.
  assert (H : initiate_stocktaking 2 catalog_db
              = Ok ({| stocktake_id := 2; stocktake_locked := false |},
                    counting_db)) by (vm_compute; reflexivity).
  split; [exact H|].
  exact (initiate_stocktaking_twice 2 5 catalog_db counting_db _ H).
Defined.

Lemma finalize_stocktaking_twice_witness :
  exists st db',
    finalize_stocktaking 2 stocktake_db = Ok (st, db')
    /\ finalize_stocktaking 2 db'
       = Raise (APIException "Stock-taking already finished.").
Proof.
  do 2 eexists.
  split; [vm_compute; reflexivity|].
  eapply (finalize_stocktaking_twice 2 stocktake_db).
  vm_compute. reflexivity.
Defined.

Lemma finalize_then_initiate_stocktaking_witness :
  exists st db',
    0 < 10
    /\ finalize_stocktaking 2 stocktake_db = Ok (st, db')
    /\ unlocked_stocktakes db' = []
    /\ exists st' db'', initiate_stocktaking 10 db' = Ok (st', db'').
Proof.
  do 2 eexists. split; [lia|]. split; [vm_compute; reflexivity|].
  eapply (finalize_then_initiate_stocktaking 2 10 stocktake_db).
  - lia.
  - intros s Hs Hne. apply list_elem_of_singleton in Hs. subst s.
    contradiction Hne. reflexivity.
  - vm_compute. reflexivity.
Defined.

Lemma reachable_facts_counted_db :
  reachable sample_api sample_defaults least_squares_slope counted_db.
Proof.
  unfold reachable.
  eapply rtc_l; [apply (step_create_product _ _ _ empty_db 1)|].
  eapply rtc_l;
    [eapply (step_initiate_stocktaking _ _ _ _ 10); vm_compute; reflexivity|].
  eapply rtc_l;
    [eapply (step_assign_free_stocktake_chunk _ _ _ _ 7 2);
     vm_compute; reflexivity|].
  eapply rtc_l;
    [eapply (step_finalize_stocktake_chunk _ _ _ _ 3);
     vm_compute; reflexivity|].
  apply rtc_refl.
Defined.

Lemma reachable_keys_distinct_witness :
  reachable sample_api sample_defaults least_squares_slope counted_db
  /\ keys_inv counted_db.
Proof.
  split; [exact reachable_facts_counted_db|].
  exact (reachable_keys_distinct sample_api sample_defaults
           least_squares_slope counted_db reachable_facts_counted_db).
Defined.

Lemma reachable_single_open_stocktake_witness :
  reachable sample_api sample_defaults least_squares_slope counted_db
  /\ (length (unlocked_stocktakes counted_db) <= 1)%nat.
Proof.
  split; [exact reachable_facts_counted_db|].
  exact (reachable_single_open_stocktake sample_api sample_defaults
           least_squares_slope counted_db reachable_facts_counted_db).
Defined.

Lemma get_product_created_witness :
  Forall (fun k => k < db_next_id keyed_catalog_db)
         (map product_id (db_products keyed_catalog_db))
  /\ get_product 100 (snd (create_product 4 keyed_catalog_db))
     = Ok (Some (sample_product 100 4))
  /\ get_product 100 keyed_catalog_db = Ok None.
Proof.
  assert (H : Forall (fun k => k < db_next_id keyed_catalog_db)
                     (map product_id (db_products keyed_catalog_db)))
    by (apply (bool_decide_unpack _); vm_compute; exact I).
  split; [exact H|].
  destruct (get_product_created 4 keyed_catalog_db H) as (H1 & H2 & _).
  split; [exact H1|exact H2].
Defined.

Lemma update_product_read_back_witness :
  exists db',
    update_product 11 7 catalog_db = Ok (tt, db')
    /\ get_product 11 db' = Ok (Some (sample_product 11 7))
    /\ get_product 12 db' = get_product 12 catalog_db.
Proof.
  eexists.
  assert (H : update_product 11 7 catalog_db
              = Ok (tt, set_products
                          (save_row product_id (sample_product 11 7))
                          catalog_db)) by (vm_compute; reflexivity).
  split; [exact H|].
  destruct (proj1 (update_product_read_back 11 7 catalog_db) _ H)
    as [(p & Hold & Hnew) Hothers].
  split.
  - vm_compute in Hold. injection Hold as <-. exact Hnew.
  - apply Hothers. discriminate.
Defined.

Lemma create_product_transaction_by_ref_witness :
  exists t db',
    create_product_transaction 1 PURCHASE (-1) (Some (CT_Other, 9))
      stocktake_db = Ok (t, db')
    /\ get_product_transactions_by_ref (CT_Other, 9) db' = [t].
Proof.
  set (t := {| trx_id := 6; trx_product_id := 1; trx_type := PURCHASE;
               trx_qty := -1; trx_date_created := db_now stocktake_db;
               trx_states := [ {| state_status := PENDING;
                                  state_reference := Some (CT_Other, 9) |} ] |}).
  assert (H : create_product_transaction 1 PURCHASE (-1) (Some (CT_Other, 9))
                stocktake_db
              = Ok (t, set_transactions (fun l => l ++ [t])
                         (snd (fresh_id stocktake_db))))
    by (vm_compute; reflexivity).
  exists t. eexists. split; [exact H|].
  rewrite (create_product_transaction_by_ref _ _ _ _ _ _ _ H).
  reflexivity.
Defined.

Lemma finalize_stocktaking_audit_trail_witness :
  exists st db' t,
    finalize_stocktaking 2 stocktake_db = Ok (st, db')
    /\ get_product_transactions_by_ref (CT_StocktakeItem, 4) db' = [t]
    /\ trx_qty t = 2.
Proof.
  assert (H : finalize_stocktaking 2 stocktake_db
              = Ok ({| stocktake_id := 2; stocktake_locked := true |},
                    match finalize_stocktaking 2 stocktake_db with
                    | Ok (_, d) => d
                    | Raise _ => stocktake_db
                    end)) by (vm_compute; reflexivity).
  destruct (finalize_stocktaking_audit_trail 2 stocktake_db _
              {| stocktake_id := 2; stocktake_locked := true |}
              {| item_id := 4; item_chunk_id := 3; item_product_id := 1;
                 item_qty := 5 |} eq_refl
              ltac:(apply (bool_decide_unpack _); vm_compute; exact I) H
              ltac:(apply list_elem_of_here))
    as (t & Hby & (_ & _ & Hqty & _)).
  do 2 eexists. exists t. split; [exact H|]. split; [exact Hby|].
  rewrite Hqty. reflexivity.
Defined.

Lemma delivered_db_products_exist :
  delivery_products_exist delivered_db
    {| delivery_id := 20; delivery_supplier_id := 1;
       delivery_report_path := "report.pdf"; delivery_locked := false |}.
Proof.
  intros it pid Hit Hpid. exists (sample_product 1 1).
  apply elem_of_cons in Hit as [->|Hit];
    [|apply list_elem_of_singleton in Hit as ->];
    vm_compute in Hpid; injection Hpid as <-; reflexivity.
Defined.

Lemma process_delivery_transactions_witness :
  delivery_valid delivered_db
    {| delivery_id := 20; delivery_supplier_id := 1;
       delivery_report_path := "report.pdf"; delivery_locked := false |}
  = true
  /\ exists db' ts,
       process_delivery 20 delivered_db = Ok (tt, db')
       /\ db_transactions db' = db_transactions delivered_db ++ ts
       /\ length ts = 2%nat.
Proof.
  split; [vm_compute; reflexivity|].
  destruct (process_delivery_transactions 20 delivered_db _ eq_refl
              ltac:(vm_compute; reflexivity) delivered_db_products_exist)
    as (db' & ts & Hrun & Ht & Hrel & _).
  exists db', ts. split; [exact Hrun|]. split; [exact Ht|].
  apply Forall2_length in Hrel. rewrite <- Hrel. reflexivity.
Defined.

Lemma process_delivery_again_witness :
  exists db1 db2 n,
    process_delivery 20 delivered_db = Ok (tt, db1)
    /\ process_delivery 20 db1 = Ok (tt, db2)
    /\ length (db_transactions db1)
       = (length (db_transactions delivered_db) + n)%nat
    /\ length (db_transactions db2) = (length (db_transactions db1) + n)%nat.
Proof.
  assert (H : process_delivery 20 delivered_db
              = Ok (tt, match process_delivery 20 delivered_db with
                        | Ok (_, d) => d
                        | Raise _ => delivered_db
                        end)) by (vm_compute; reflexivity).
  destruct (process_delivery_again 20 delivered_db _ H)
    as (db2 & n & H2 & Hn1 & Hn2).
  eexists; exists db2, n. split; [exact H|]. auto.
Defined.

Lemma get_supplier_product_cached_witness :
  exists sp db',
    get_supplier_product sample_api sample_defaults 1 "D" false offerings_db
    = Ok (Some sp, db')
    /\ db_supplier_products db' !! (1, "D") = Some sp
    /\ get_supplier_product sample_api sample_defaults 1 "D" false db'
       = Ok (Some sp, db').
Proof.
  do 2 eexists.
  assert (H : forall r db',
             get_supplier_product sample_api sample_defaults 1 "D" false
               offerings_db = Ok (Some r, db') ->
             db_supplier_products db' !! (1, "D") = Some r
             /\ get_supplier_product sample_api sample_defaults 1 "D" false db'
                = Ok (Some r, db'))
    by (intros r db' Hr;
        exact (get_supplier_product_cached sample_api sample_defaults
                 1 "D" false offerings_db db' (Some r) Hr)).
  split; [vm_compute; reflexivity|].
  apply H. vm_compute. reflexivity.
Defined.

Lemma get_supplier_product_refresh_updates_witness :
  db_supplier_products stale_db !! (1, "D")
  = Some (sample_offering 15 1 "D" 3 (7 # 1))
  /\ exists sp db',
       get_supplier_product sample_api sample_defaults 1 "D" true stale_db
       = Ok (Some sp, db')
       /\ sp_price sp = 9 # 1 /\ sp_id sp = 15
       /\ sp_qty_multiplier sp = 3.
Proof.
  assert (Hold : db_supplier_products stale_db !! (1, "D")
                 = Some (sample_offering 15 1 "D" 3 (7 # 1)))
    by (vm_compute; reflexivity).
  split; [exact Hold|].
  destruct (get_supplier_product_refresh_updates sample_api sample_defaults
              1 "D" stale_db
              {| supplier_id := 1; supplier_internal_name := "north" |}
              (sample_offering 15 1 "D" 3 (7 # 1))
              {| pd_name := "D"; pd_price := 9 # 1; pd_units := 1 |}
              eq_refl eq_refl Hold)
    as (sp & db' & Hrun & _ & Hprice & _ & Hid & _ & _ & Hmult & _).
  exists sp, db'. auto.
Defined.

Lemma minimum_qty_covers_witness :
  Z.abs 10 < 2 ^ 53
  /\ 0 < sp_qty (sample_offering 12 2 "B" 4 (5 # 2)) < 2 ^ 53
  /\ exists m,
       minimum_qty 10 (sample_offering 12 2 "B" 4 (5 # 2)) = Ok m
       /\ 10 <= m * 4 /\ (m - 1) * 4 < 10.
Proof.
  split; [reflexivity|]. split; [split; reflexivity|].
  apply (proj1 (minimum_qty_covers 10 (sample_offering 12 2 "B" 4 (5 # 2)))).
  - reflexivity.
  - split; reflexivity.
Defined.

Lemma order_from_supplier_offers_product_witness :
  snd (order_from_supplier sample_api 1 10 (Some 1) offerings_db)
  = Ok (sample_offering 11 1 "A" 6 (2 # 1))
  /\ sp_product_id (sample_offering 11 1 "A" 6 (2 # 1)) = Some 1
  /\ sp_supplier_id (sample_offering 11 1 "A" 6 (2 # 1)) = 1.
Proof.
  assert (H : snd (order_from_supplier sample_api 1 10 (Some 1) offerings_db)
              = Ok (sample_offering 11 1 "A" 6 (2 # 1)))
    by (vm_compute; reflexivity).
  split; [exact H|].
  exact (order_from_supplier_offers_product sample_api 1 10 (Some 1)
           offerings_db _ (or_intror H)).
Defined.

Lemma order_from_supplier_zero_batch_witness :
  Exists (fun sp => sp_qty sp = 0) (candidates 1 None zero_batch_db)
  /\ Z.abs 10 < 2 ^ 1023
  /\ order_from_supplier sample_api 1 10 None zero_batch_db
     = ([], Raise ZeroDivisionError).
Proof.
  assert (H : Exists (fun sp => sp_qty sp = 0) (candidates 1 None zero_batch_db))
    by (apply (bool_decide_unpack _); vm_compute; exact I).
  split; [exact H|]. split; [reflexivity|].
  apply (proj2 (order_from_supplier_zero_batch sample_api 1 10 None
                  zero_batch_db H)).
  reflexivity.
Defined.

Lemma next_weekday_next_witness :
  0 <= 0 < 7 /\ 1 <= 736010 /\ 736010 + 7 <= 3652059
  /\ exists d', next_weekday 736010 0 = Some d'
               /\ 736010 < d' <= 736010 + 7 /\ weekday d' = 0.
Proof.
  split; [lia|]. split; [lia|]. split; [lia|].
  destruct (next_weekday_next 736010 0 ltac:(lia) ltac:(lia) ltac:(lia))
    as (d' & H1 & H2 & H3 & _).
  exists d'. auto.
Defined.

Lemma order_refill_window_witness :
  exists second_delivery,
    736010 + 8 <= second_delivery <= 736010 + 14
    /\ order_refill sample_api sample_delivers_on 1 None sample_base_levels
         refill_db
       = Some (refill_loop sample_api 1 refill_db
                 (filter (fun bl => refill_due refill_db second_delivery bl
                                    = true) sample_base_levels)).
Proof.
  destruct (order_refill_window sample_api sample_delivers_on 1 None
              sample_base_levels refill_db
              {| supplier_id := 1; supplier_internal_name := "north" |}
              eq_refl ltac:(unfold sample_delivers_on; lia)
              ltac:(vm_compute; discriminate) ltac:(vm_compute; discriminate))
    as (second & Hwindow & _ & Hrun & _).
  exists second. split; [exact Hwindow|exact Hrun].
Defined.

Lemma refill_loop_orders_witness :
  snd (refill_loop sample_api 1 refill_db
         [ {| bsl_product_id := 1; bsl_level := 10 |} ])
  = Ok [sample_offering 11 1 "A" 6 (2 # 1)]
  /\ Forall2 (fun bl sp => sp_product_id sp = Some (bsl_product_id bl)
                           /\ sp_supplier_id sp = 1)
             [ {| bsl_product_id := 1; bsl_level := 10 |} ]
             [sample_offering 11 1 "A" 6 (2 # 1)].
Proof.
  assert (H : snd (refill_loop sample_api 1 refill_db
                     [ {| bsl_product_id := 1; bsl_level := 10 |} ])
              = Ok [sample_offering 11 1 "A" 6 (2 # 1)])
    by (vm_compute; reflexivity).
  split; [exact H|].
  exact (proj1 (refill_loop_orders sample_api 1 refill_db _) _ H).
Defined.

Lemma refill_loop_stops_witness :
  snd (refill_loop sample_api 1 refill_db sample_base_levels)
  = Raise (UnboundLocalError "product")
  /\ fst (refill_loop sample_api 1 refill_db sample_base_levels)
     = [sample_offering 13 1 "C" 10 (22 # 10);
        sample_offering 11 1 "A" 6 (2 # 1)].
Proof.
  destruct (refill_loop_stops sample_api 1 refill_db
              [ {| bsl_product_id := 1; bsl_level := 10 |} ] []
              {| bsl_product_id := 2; bsl_level := 5 |}
              [sample_offering 11 1 "A" 6 (2 # 1)]
              (UnboundLocalError "product")
              ltac:(vm_compute; reflexivity) ltac:(vm_compute; reflexivity))
    as [Hrun _].
  change ([ {| bsl_product_id := 1; bsl_level := 10 |} ]
            ++ [ {| bsl_product_id := 2; bsl_level := 5 |} ])
    with sample_base_levels in Hrun.
  rewrite Hrun. split; [reflexivity|]. vm_compute. reflexivity.
Defined.

Lemma series_appends_today_witness :
  fst (series 10 736003 736001
         (data_points forecast_db (sample_trx 2 1 INVENTORY 10 736000)))
  = [-1; 0; 2; 2].
Proof.
  rewrite (series_appends_today forecast_db
             (sample_trx 2 1 INVENTORY 10 736000) 10 736003 736001 (-2)
             [(736003, -3)]).
  - vm_compute. reflexivity.
  - intros t Ht. vm_compute in Ht.
    repeat (apply elem_of_cons in Ht as [->|Ht];
            [vm_compute; split; discriminate|]).
    inversion Ht.
  - vm_compute. reflexivity.
Defined.

Lemma update_out_of_stock_forecast_empty_stock_witness :
  product_qty catalog_db 10 <= 0
  /\ exists db',
       update_out_of_stock_forecast least_squares_slope 10 catalog_db
       = Ok (tt, db')
       /\ refill_due db' 736023 {| bsl_product_id := 10; bsl_level := 4 |}
          = false.
Proof.
  split; [vm_compute; discriminate|].
  destruct (update_out_of_stock_forecast_empty_stock least_squares_slope 10
              catalog_db (sample_product 10 2) eq_refl
              ltac:(vm_compute; discriminate))
    as (db' & Hrun & _ & Hdue).
  exists db'. split; [exact Hrun|]. apply Hdue. reflexivity.
Defined.

Lemma list_products_slice_witness :
  0 <= 2 <= 4
  /\ exists rows,
       list_products (Some 2) (Some 4) (fun _ => true) catalog_db = Ok rows
       /\ Z.of_nat (length rows) = 2.
Proof.
  split; [lia|].
  destruct (proj1 (list_products_slice 2 4 (fun _ => true) catalog_db)
              ltac:(lia)) as (rows & Hrun & _ & Hlen).
  exists rows. split; [exact Hrun|]. rewrite Hlen. vm_compute. reflexivity.
Defined.
